(** * Statistics layer of the clinical-trial dashboard

    A shallow embedding of the statistical routines of the dashboard:
    [js/stats.js] ([mean], [standardDeviation], [median],
    [confidenceInterval95], [tTest], [calculateDifferenceCI], [groupBy],
    [summarizeByGroup]), [calculateMedian] of [js/data-loader.js],
    [updateNNTCard] of [js/main.js], and the survival and diagnostic
    routines of the charts module ([calculateKM], [calculateRMST],
    [updateRMSTCard], [calculateHR], [getSurvivalAtTime], [findMedian],
    [calculateCumulativeEvents], [countAtRisk], [createROCCurve],
    [createPRCurve], [createDiagnosticGauges], [updateThresholdExplorer],
    [createConfusionMatrix], [createDiagnosticAccuracyChart],
    [createCalibrationPlot], [createNNTIconArray]).

    Numbers.  A JavaScript number is modelled by [num]: a finite value,
    which is an exact rational, or one of the three IEEE special values
    [PInf], [NInf], [NaN].  The special values follow IEEE 754 (division
    by zero, [0 * Infinity], [Infinity - Infinity], comparisons with
    [NaN], ...).  Arithmetic on finite values is exact: rounding to
    binary64 and overflow are not modelled, and the two zeros are not
    told apart (every zero divisor met in the modelled code is a count,
    a sum or difference of counts or rates, or a square root, hence
    [+0]).  The statements are chosen accordingly: they assert
    orderings, signs, counts and special values, which rounding to
    nearest preserves, and where a sum or a square of the input could
    overflow they are restricted to inputs of magnitude at most 10^100
    ([moderate]).

    [Math.sqrt] and [Math.exp] on finite arguments are the interface
    [MathLib]: any pair of functions on the rationals with the sign
    properties the routines rely on; [approxMath] is a computable
    instance used to run the routines on sample data.

    Only the computations are modelled: the chart routines are taken on
    an existing container, and what they hand to the plotting library
    is left out.  A routine that can throw a [TypeError] returns an
    [option], [None] being the exception. *)

From Stdlib Require Import String.
From Stdlib Require Import QArith Qabs Qround ZArith List Bool Lia Lra Psatz.
From Stdlib Require Import Sorted.
Import ListNotations.
Local Open Scope Q_scope.

(** ** JavaScript numbers *)

Module JS.

Inductive num : Type :=
| Fin (q : Q)
| PInf
| NInf
| NaN.

Definition Qlt_bool (a b : Q) : bool := negb (Qle_bool b a).

(** Sign of a finite value, used by the special cases of [*] and [/]. *)
Inductive sign := Neg | Zero | Pos.

Definition sgn (q : Q) : sign :=
  if Qeq_bool q 0 then Zero else if Qle_bool 0 q then Pos else Neg.

Definition inf_of (s : sign) : num :=
  match s with Pos => PInf | Neg => NInf | Zero => NaN end.

Definition flip (s : sign) : sign :=
  match s with Pos => Neg | Neg => Pos | Zero => Zero end.

Definition neg (x : num) : num :=
  match x with
  | Fin q => Fin (- q)
  | PInf => NInf
  | NInf => PInf
  | NaN => NaN
  end.

Definition add (x y : num) : num :=
  match x, y with
  | NaN, _ | _, NaN => NaN
  | Fin a, Fin b => Fin (a + b)
  | PInf, NInf | NInf, PInf => NaN
  | PInf, _ | _, PInf => PInf
  | NInf, _ | _, NInf => NInf
  end.

Definition sub (x y : num) : num := add x (neg y).

Definition mul (x y : num) : num :=
  match x, y with
  | NaN, _ | _, NaN => NaN
  | Fin a, Fin b => Fin (a * b)
  | Fin a, PInf | PInf, Fin a => inf_of (sgn a)
  | Fin a, NInf | NInf, Fin a => inf_of (flip (sgn a))
  | PInf, PInf | NInf, NInf => PInf
  | PInf, NInf | NInf, PInf => NInf
  end.

(** Division; a finite zero divisor is [+0]. *)
Definition div (x y : num) : num :=
  match x, y with
  | NaN, _ | _, NaN => NaN
  | Fin a, Fin b => if Qeq_bool b 0 then inf_of (sgn a) else Fin (a / b)
  | Fin _, PInf | Fin _, NInf => Fin 0
  | PInf, Fin b => if Qle_bool 0 b then PInf else NInf
  | NInf, Fin b => if Qle_bool 0 b then NInf else PInf
  | PInf, PInf | PInf, NInf | NInf, PInf | NInf, NInf => NaN
  end.

(** Comparisons: every comparison with [NaN] is false. *)
Definition ltb (x y : num) : bool :=
  match x, y with
  | NaN, _ | _, NaN => false
  | Fin a, Fin b => Qlt_bool a b
  | Fin _, PInf | NInf, Fin _ | NInf, PInf => true
  | Fin _, NInf | PInf, _ | NInf, NInf => false
  end.

Definition leb (x y : num) : bool :=
  match x, y with
  | NaN, _ | _, NaN => false
  | Fin a, Fin b => Qle_bool a b
  | NInf, _ | Fin _, PInf | PInf, PInf => true
  | Fin _, NInf | PInf, Fin _ | PInf, NInf => false
  end.

Definition gtb (x y : num) : bool := ltb y x.
Definition geb (x y : num) : bool := leb y x.

(** Strict equality [===] on numbers. *)
Definition eqb (x y : num) : bool :=
  match x, y with
  | Fin a, Fin b => Qeq_bool a b
  | PInf, PInf | NInf, NInf => true
  | _, _ => false
  end.

Definition isNaN (x : num) : bool :=
  match x with NaN => true | _ => false end.

(** [Math.max], [Math.min], [Math.abs], [Math.floor]. *)
Definition max (x y : num) : num :=
  match x, y with
  | NaN, _ | _, NaN => NaN
  | _, _ => if leb x y then y else x
  end.

Definition min (x y : num) : num :=
  match x, y with
  | NaN, _ | _, NaN => NaN
  | _, _ => if leb x y then x else y
  end.

Definition abs (x : num) : num :=
  match x with
  | Fin q => Fin (Qabs q)
  | PInf | NInf => PInf
  | NaN => NaN
  end.

Definition floor (x : num) : num :=
  match x with
  | Fin q => Fin (inject_Z (Qfloor q))
  | _ => x
  end.

(** [Math.pow(x, 2)]. *)
Definition sq (x : num) : num := mul x x.

(** A count ([.length]) as a number. *)
Definition cnt (n : nat) : num := Fin (inject_Z (Z.of_nat n)).

(** [x.toFixed(d)] read back by [parseFloat]: the decimal with [d]
    digits nearest to [x], the larger magnitude on a tie; values of
    magnitude at least 1e21 are printed in full and read back
    unchanged, and so are the special values. *)
Definition pow10 (d : nat) : Q := inject_Z (10 ^ Z.of_nat d).

Definition nearest (d : nat) (q : Q) : Q :=
  inject_Z (Qfloor (q * pow10 d + (1 # 2))) / pow10 d.

Definition toFixedQ (d : nat) (q : Q) : Q :=
  if Qle_bool (pow10 21) (Qabs q) then q
  else if Qle_bool 0 q then nearest d q
  else - nearest d (- q).

Definition toFixed (d : nat) (x : num) : num :=
  match x with
  | Fin q => Fin (toFixedQ d q)
  | _ => x
  end.

(** Two numbers denote the same value.  Unlike [eqb] this relates
    [NaN] to itself: it is used to describe results, not to model
    [===]. *)
Definition same (x y : num) : Prop :=
  match x, y with
  | Fin a, Fin b => a == b
  | PInf, PInf | NInf, NInf | NaN, NaN => True
  | _, _ => False
  end.

Definition lt (x y : num) : Prop := ltb x y = true.
Definition le (x y : num) : Prop := leb x y = true.

Definition finite (x : num) : Prop :=
  match x with Fin _ => True | _ => False end.

(** The finite value lies in the closed interval [lo, hi]. *)
Definition within (lo hi : Q) (x : num) : Prop :=
  match x with Fin q => lo <= q <= hi | _ => False end.

End JS.

Import JS.

Declare Scope num_scope.
Delimit Scope num_scope with num.
Bind Scope num_scope with num.
Infix "+" := add : num_scope.
Infix "-" := sub : num_scope.
Infix "*" := mul : num_scope.
Infix "/" := div : num_scope.
Infix "<?" := ltb : num_scope.
Infix ">?" := gtb : num_scope.
Infix ">=?" := geb : num_scope.
Infix "===" := eqb (at level 70) : num_scope.
Coercion Fin : Q >-> num.

(** ** [Math.sqrt] and [Math.exp] *)

Class MathLib : Type := {
  sqrtQ : Q -> Q;
  expQ : Q -> Q;
  sqrtQ_nonneg : forall x, 0 <= x -> 0 <= sqrtQ x;
  sqrtQ_pos : forall x, 0 < x -> 0 < sqrtQ x;
  expQ_pos : forall x, 0 < expQ x
}.

Definition Math_sqrt `{MathLib} (x : num) : num :=
  match x with
  | Fin q => if Qlt_bool q 0 then NaN else Fin (sqrtQ q)
  | PInf => PInf
  | NInf | NaN => NaN
  end.

Definition Math_exp `{MathLib} (x : num) : num :=
  match x with
  | Fin q => Fin (expQ q)
  | PInf => PInf
  | NInf => Fin 0
  | NaN => NaN
  end.

(** ** Arrays *)

(** [Array.prototype.sort] with a comparator function.  On a consistent
    comparator the result is the stable sort of the array; it is
    modelled by stable insertion sort, [x] staying in front of the
    elements it does not exceed. *)
Fixpoint insert_by {A : Type} (cmp : A -> A -> Q) (x : A) (l : list A)
  : list A :=
  match l with
  | [] => [x]
  | y :: l' =>
      if Qle_bool (cmp x y) 0 then x :: l else y :: insert_by cmp x l'
  end.

Definition sort_by {A : Type} (cmp : A -> A -> Q) (l : list A) : list A :=
  fold_right (insert_by cmp) [] l.

(** [[...new Set(l)]]: the distinct numbers of [l], each at its first
    occurrence. *)
Fixpoint set_of (l : list Q) : list Q :=
  match l with
  | [] => []
  | x :: r => x :: filter (fun y => negb (Qeq_bool x y)) (set_of r)
  end.

(** ** js/stats.js *)

(** An array element handed to the statistics helpers. *)
Inductive value : Type :=
| JNull
| JUndefined
| JNum (x : num).

(** [val !== null && val !== undefined && !isNaN(val)] *)
Definition valid (val : value) : bool :=
  match val with
  | JNum x => negb (isNaN x)
  | _ => false
  end.

(** The number an element stands for in [sum + val] and [val - avg]. *)
Definition toNumber (val : value) : num :=
  match val with
  | JNull => Fin 0
  | JUndefined => NaN
  | JNum x => x
  end.

Definition mean (arr : list value) : num :=
  let filtered := filter valid arr in
  if (length filtered =? 0)%nat then Fin 0
  else (fold_left (fun sum val => sum + toNumber val) filtered (Fin 0)
        / cnt (length filtered))%num.

Definition standardDeviation `{MathLib} (arr : list value) : num :=
  let filtered := filter valid arr in
  if (length filtered <=? 1)%nat then Fin 0
  else
    let avg := mean filtered in
    let squaredDiffs := map (fun val => sq (toNumber val - avg)) filtered in
    let variance :=
      (fold_left (fun sum val => sum + val) squaredDiffs (Fin 0)
       / (cnt (length filtered) - Fin 1))%num in
    Math_sqrt variance.

Module CI.
Record t : Type := { mean : num; lower : num; upper : num; se : num }.
End CI.

Definition confidenceInterval95 `{MathLib} (arr : list value) : CI.t :=
  let filtered := filter valid arr in
  if (length filtered =? 0)%nat then
    {| CI.mean := Fin 0; CI.lower := Fin 0; CI.upper := Fin 0;
       CI.se := Fin 0 |}
  else
    let avg := mean filtered in
    let sd := standardDeviation filtered in
    let se := (sd / Math_sqrt (cnt (length filtered)))%num in
    let margin := (Fin 1.96 * se)%num in
    {| CI.mean := toFixed 2 avg;
       CI.lower := toFixed 2 (avg - margin);
       CI.upper := toFixed 2 (avg + margin);
       CI.se := toFixed 2 se |}.

(** The [pValue] property holds the number 1 or one of three strings. *)
Inductive pvalue : Type :=
| PNumber (x : num)
| PString (s : string).

Module TTest.
(** [df = None]: the object has no [df] property. *)
Record t : Type :=
  { tStatistic : num; pValue : pvalue; meanDiff : num; df : option num }.
End TTest.

(** The locals [meanDiff], [pooledSE] and [tStatistic] of [tTest], as
    functions of the two filtered arrays. *)
Definition tTest_meanDiff (filtered1 filtered2 : list value) : num :=
  (mean filtered1 - mean filtered2)%num.

Definition tTest_pooledSE `{MathLib} (filtered1 filtered2 : list value)
  : num :=
  let sd1 := standardDeviation filtered1 in
  let sd2 := standardDeviation filtered2 in
  let n1 := cnt (length filtered1) in
  let n2 := cnt (length filtered2) in
  Math_sqrt ((sd1 * sd1) / n1 + (sd2 * sd2) / n2)%num.

Definition tTest_tStatistic `{MathLib} (filtered1 filtered2 : list value)
  : num :=
  let meanDiff := tTest_meanDiff filtered1 filtered2 in
  let pooledSE := tTest_pooledSE filtered1 filtered2 in
  if (pooledSE === Fin 0)%num then Fin 0 else (meanDiff / pooledSE)%num.

Definition tTest_df `{MathLib} (filtered1 filtered2 : list value) : num :=
  let sd1 := standardDeviation filtered1 in
  let sd2 := standardDeviation filtered2 in
  let n1 := cnt (length filtered1) in
  let n2 := cnt (length filtered2) in
  floor (sq (sd1 * sd1 / n1 + sd2 * sd2 / n2)
         / (sq (sd1 * sd1 / n1) / (n1 - Fin 1)
            + sq (sd2 * sd2 / n2) / (n2 - Fin 1)))%num.

Definition tTest `{MathLib} (arr1 arr2 : list value) : TTest.t :=
  let filtered1 := filter valid arr1 in
  let filtered2 := filter valid arr2 in
  if (length filtered1 =? 0)%nat || (length filtered2 =? 0)%nat then
    {| TTest.tStatistic := Fin 0; TTest.pValue := PNumber (Fin 1);
       TTest.meanDiff := Fin 0; TTest.df := None |}
  else
    let meanDiff := tTest_meanDiff filtered1 filtered2 in
    let tStatistic := tTest_tStatistic filtered1 filtered2 in
    let df := tTest_df filtered1 filtered2 in
    let absT := abs tStatistic in
    let pValue :=
      if (absT <? Fin 1.96)%num then ">0.05"%string
      else if (absT <? Fin 2.58)%num then "<0.05"%string
      else "<0.01"%string in
    {| TTest.tStatistic := toFixed 3 tStatistic;
       TTest.pValue := PString pValue;
       TTest.meanDiff := toFixed 2 meanDiff;
       TTest.df := Some df |}.

(** ** Survival analysis (charts module) *)

Module Survival.
(** One row of the survival study for one arm: [time_months] and the
    [event] indicator (1 = event, 0 = censored). *)
Record record : Type := { time_months : Q; event : Z }.
End Survival.
Import Survival.

Module KM.
Record point : Type :=
  { time : num; survival : num; lower : num; upper : num;
    atRisk : Z; events : Z }.
End KM.

(** [sorted.filter(d => d.time_months === t && d.event === 1).length] *)
Definition eventsAt (sorted : list record) (t : Q) : nat :=
  length (filter (fun d => Qeq_bool (time_months d) t && (event d =? 1)%Z)
                 sorted).

(** [sorted.filter(d => d.time_months >= t).length] *)
Definition atRiskAt (sorted : list record) (t : Q) : nat :=
  length (filter (fun d => Qle_bool t (time_months d)) sorted).

(** The [for (const t of uniqueTimes)] loop of [calculateKM]; the
    running [survProb] and [greenwoodVar] are threaded through. *)
Fixpoint km_loop `{MathLib} (sorted : list record) (uniqueTimes : list Q)
  (survProb greenwoodVar : num) : list KM.point :=
  match uniqueTimes with
  | [] => []
  | t :: rest =>
      let eventsAtT := eventsAt sorted t in
      let atRisk := atRiskAt sorted t in
      let '(survProb, greenwoodVar) :=
        if (0 <? eventsAtT)%nat && (0 <? atRisk)%nat then
          ((survProb * (Fin 1 - cnt eventsAtT / cnt atRisk))%num,
           (greenwoodVar
            + cnt eventsAtT / (cnt atRisk * (cnt atRisk - cnt eventsAtT)))%num)
        else (survProb, greenwoodVar) in
      let se := (survProb * Math_sqrt greenwoodVar)%num in
      let z := Fin 1.96 in
      let lower := max (Fin 0) (survProb - z * se) in
      let upper := min (Fin 1) (survProb + z * se) in
      {| KM.time := Fin t;
         KM.survival := survProb;
         KM.lower := lower;
         KM.upper := upper;
         KM.atRisk := Z.of_nat atRisk - Z.of_nat eventsAtT;
         KM.events := Z.of_nat eventsAtT |}
      :: km_loop sorted rest survProb greenwoodVar
  end.

Definition uniqueTimes (sorted : list record) : list Q :=
  sort_by (fun a b => a - b) (set_of (map time_months sorted)).

Definition calculateKM `{MathLib} (data : list record) : list KM.point :=
  let sorted :=
    sort_by (fun a b => time_months a - time_months b) data in
  let atRisk := length sorted in
  {| KM.time := Fin 0; KM.survival := Fin 1; KM.lower := Fin 1;
     KM.upper := Fin 1; KM.atRisk := Z.of_nat atRisk; KM.events := 0%Z |}
  :: km_loop sorted (uniqueTimes sorted) (Fin 1) (Fin 0).

(** The [for] loop of [calculateRMST] with its [break]; the result is
    the state [(rmst, prevTime, prevSurvival)] when the loop is left. *)
Fixpoint rmst_loop (kmData : list KM.point) (restrictionTime : num)
  (rmst prevTime prevSurvival : num) : num * num * num :=
  match kmData with
  | [] => (rmst, prevTime, prevSurvival)
  | p :: rest =>
      let currentTime := min (KM.time p) restrictionTime in
      let currentSurvival := KM.survival p in
      let timeInterval := (currentTime - prevTime)%num in
      let avgSurvival := ((prevSurvival + currentSurvival) / Fin 2)%num in
      let rmst := (rmst + timeInterval * avgSurvival)%num in
      if (currentTime >=? restrictionTime)%num then
        (rmst, prevTime, prevSurvival)
      else rmst_loop rest restrictionTime rmst currentTime currentSurvival
  end.

Definition calculateRMST (kmData : list KM.point) (restrictionTime : num)
  : num :=
  let '(rmst, prevTime, prevSurvival) :=
    rmst_loop kmData restrictionTime (Fin 0) (Fin 0) (Fin 1) in
  if (prevTime <? restrictionTime)%num then
    (rmst + (restrictionTime - prevTime) * prevSurvival)%num
  else rmst.

Module HR.
Record t : Type :=
  { hr : num; ciLower : num; ciUpper : num; nA : Z; nB : Z }.
End HR.

Definition calculateHR `{MathLib} (armA armB : list record) : HR.t :=
  let eventsA := cnt (length (filter (fun d => (event d =? 1)%Z) armA)) in
  let eventsB := cnt (length (filter (fun d => (event d =? 1)%Z) armB)) in
  let totalA := cnt (length armA) in
  let totalB := cnt (length armB) in
  let rateA := (eventsA / totalA)%num in
  let rateB := (eventsB / totalB)%num in
  let hr := (rateA / rateB)%num in
  let se := Math_sqrt (Fin 1 / eventsA + Fin 1 / eventsB)%num in
  let ciLower := (hr * Math_exp (Fin (-1.96) * se))%num in
  let ciUpper := (hr * Math_exp (Fin 1.96 * se))%num in
  {| HR.hr := hr; HR.ciLower := ciLower; HR.ciUpper := ciUpper;
     HR.nA := Z.of_nat (length armA); HR.nB := Z.of_nat (length armB) |}.

(** ** Diagnostic accuracy (charts module) *)

Module Patient.
Record t : Type :=
  { disease_status : string; predicted_probability : Q }.
End Patient.
Import Patient.

Definition isPositive (p : Patient.t) : bool :=
  String.eqb (disease_status p) "Positive".

Definition isNegative (p : Patient.t) : bool :=
  String.eqb (disease_status p) "Negative".

(** [[...data].sort((a, b) => b.predicted_probability - a.predicted_probability)] *)
Definition sortDescending (data : list Patient.t) : list Patient.t :=
  sort_by (fun a b => predicted_probability b - predicted_probability a)
          data.

Module ROC.
Record point : Type := { fpr : num; tpr : num; threshold : num }.
Record result : Type :=
  { rocPoints : list point; auc : num; maxJ : num; optimalPoint : point }.
End ROC.

(** The sweep over [sorted] pushing one ROC point per patient. *)
Fixpoint roc_sweep (sorted : list Patient.t) (totalPos totalNeg : nat)
  (tp fp : nat) : list ROC.point :=
  match sorted with
  | [] => []
  | patient :: rest =>
      let tp := if isPositive patient then S tp else tp in
      let fp := if isPositive patient then fp else S fp in
      let tpr := (cnt tp / cnt totalPos)%num in
      let fpr := (cnt fp / cnt totalNeg)%num in
      {| ROC.fpr := fpr; ROC.tpr := tpr;
         ROC.threshold := Fin (predicted_probability patient) |}
      :: roc_sweep rest totalPos totalNeg tp fp
  end.

(** The trapezoidal loop [for (i = 1; i < rocPoints.length; i++)]:
    [prev] is [rocPoints[i-1]] and the list starts at [rocPoints[i]]. *)
Fixpoint auc_loop (prev : ROC.point) (points : list ROC.point) (auc : num)
  : num :=
  match points with
  | [] => auc
  | p :: rest =>
      let width := (ROC.fpr p - ROC.fpr prev)%num in
      let avgHeight := ((ROC.tpr p + ROC.tpr prev) / Fin 2)%num in
      auc_loop p rest (auc + width * avgHeight)%num
  end.

(** The search for the point of largest Youden's J. *)
Fixpoint youden_loop (points : list ROC.point) (maxJ : num)
  (optimalPoint : ROC.point) : num * ROC.point :=
  match points with
  | [] => (maxJ, optimalPoint)
  | point :: rest =>
      let j := (ROC.tpr point - ROC.fpr point)%num in
      if (j >? maxJ)%num then youden_loop rest j point
      else youden_loop rest maxJ optimalPoint
  end.

(** The computation of [createROCCurve] on an existing container: the
    ROC points, the AUC and the optimal point that it plots. *)
Definition createROCCurve (data : list Patient.t) : ROC.result :=
  let sorted := sortDescending data in
  let totalPos := length (filter isPositive sorted) in
  let totalNeg := length (filter isNegative sorted) in
  let first :=
    {| ROC.fpr := Fin 0; ROC.tpr := Fin 0; ROC.threshold := Fin 1 |} in
  let rocPoints := first :: roc_sweep sorted totalPos totalNeg 0 0 in
  let auc := auc_loop first (tl rocPoints) (Fin 0) in
  let '(maxJ, optimalPoint) := youden_loop rocPoints (Fin (-1)) first in
  {| ROC.rocPoints := rocPoints; ROC.auc := auc; ROC.maxJ := maxJ;
     ROC.optimalPoint := optimalPoint |}.

Module PR.
Record point : Type := { precision : num; recall : num; threshold : num }.
Record result : Type := { prPoints : list point; ap : num }.
End PR.

(** The sweep of [createPRCurve]; [prevRecall] and [ap] are threaded
    through and the final [ap] is returned with the points. *)
Fixpoint pr_loop (sorted : list Patient.t) (totalPos : nat) (tp fp : nat)
  (prevRecall ap : num) : list PR.point * num :=
  match sorted with
  | [] => ([], ap)
  | patient :: rest =>
      let tp := if isPositive patient then S tp else tp in
      let fp := if isPositive patient then fp else S fp in
      let precision := (cnt tp / (cnt tp + cnt fp))%num in
      let recall := (cnt tp / cnt totalPos)%num in
      let '(ap, prevRecall) :=
        if (recall >? prevRecall)%num then
          ((ap + precision * (recall - prevRecall))%num, recall)
        else (ap, prevRecall) in
      let '(points, ap) := pr_loop rest totalPos tp fp prevRecall ap in
      ({| PR.precision := precision; PR.recall := recall;
          PR.threshold := Fin (predicted_probability patient) |} :: points,
       ap)
  end.

Definition createPRCurve (data : list Patient.t) : PR.result :=
  let sorted := sortDescending data in
  let totalPos := length (filter isPositive sorted) in
  let '(points, ap) := pr_loop sorted totalPos 0 0 (Fin 0) (Fin 0) in
  {| PR.prPoints :=
       {| PR.precision := Fin 1; PR.recall := Fin 0;
          PR.threshold := Fin 1 |} :: points;
     PR.ap := ap |}.

(** The rectangle-rule loop of [createDiagnosticGauges]. *)
Fixpoint gauge_loop (sorted : list Patient.t) (posLength negLength : nat)
  (aucTp aucFp : nat) (auc prevFpr : num) : num :=
  match sorted with
  | [] => auc
  | patient :: rest =>
      let aucTp := if isPositive patient then S aucTp else aucTp in
      let aucFp := if isPositive patient then aucFp else S aucFp in
      let tpr := (cnt aucTp / cnt posLength)%num in
      let fpr := (cnt aucFp / cnt negLength)%num in
      gauge_loop rest posLength negLength aucTp aucFp
                 (auc + tpr * (fpr - prevFpr))%num fpr
  end.

Module Gauges.
Record t : Type :=
  { auc : num; sensitivity : num; specificity : num; youdenJ : num }.
End Gauges.

(** The four metric values of [createDiagnosticGauges]. *)
Definition createDiagnosticGauges (data : list Patient.t) (threshold : Q)
  : Gauges.t :=
  let pos := filter isPositive data in
  let neg := filter isNegative data in
  let above := fun p => Qle_bool threshold (predicted_probability p) in
  let below := fun p => Qlt_bool (predicted_probability p) threshold in
  let tp := cnt (length (filter above pos)) in
  let fn := cnt (length (filter below pos)) in
  let tn := cnt (length (filter below neg)) in
  let fp := cnt (length (filter above neg)) in
  let sensitivity := (tp / (tp + fn))%num in
  let specificity := (tn / (tn + fp))%num in
  let youdenJ := (sensitivity + specificity - Fin 1)%num in
  let sorted := sortDescending data in
  let auc := gauge_loop sorted (length pos) (length neg) 0 0 (Fin 0) (Fin 0) in
  {| Gauges.auc := auc; Gauges.sensitivity := sensitivity;
     Gauges.specificity := specificity; Gauges.youdenJ := youdenJ |}.

(** ** js/stats.js and js/data-loader.js: medians, differences, groups *)

(** The comparator [(a, b) => a - b] on array elements, as [sort] reads
    it: the sign of the difference, a [NaN] difference counting as 0. *)
Definition numeric_order (a b : value) : Q :=
  match (toNumber a - toNumber b)%num with
  | Fin q => q
  | PInf => 1
  | NInf => -1
  | NaN => 0
  end.

(** [arr[i]]; an index out of range gives [undefined]. *)
Definition at_index (arr : list value) (i : nat) : value :=
  nth i arr JUndefined.

(** [calculateMedian] of js/data-loader.js, on a pre-sorted array. *)
Definition calculateMedian (sortedArr : list value) : num :=
  if (length sortedArr =? 0)%nat then Fin 0
  else
    let mid := (length sortedArr / 2)%nat in
    if (length sortedArr mod 2 =? 0)%nat then
      ((toNumber (at_index sortedArr (mid - 1))
        + toNumber (at_index sortedArr mid)) / Fin 2)%num
    else toNumber (at_index sortedArr mid).

(** [median] of js/stats.js. *)
Definition median (arr : list value) : num :=
  let filtered := filter valid arr in
  if (length filtered =? 0)%nat then Fin 0
  else
    let sorted := sort_by numeric_order filtered in
    let mid := (length sorted / 2)%nat in
    if (length sorted mod 2 =? 0)%nat then
      ((toNumber (at_index sorted (mid - 1))
        + toNumber (at_index sorted mid)) / Fin 2)%num
    else toNumber (at_index sorted mid).

Module DiffCI.
Record t : Type := { meanDiff : num; lower : num; upper : num; se : num }.
End DiffCI.

Definition calculateDifferenceCI `{MathLib} (arr1 arr2 : list value)
  : DiffCI.t :=
  let filtered1 := filter valid arr1 in
  let filtered2 := filter valid arr2 in
  if (length filtered1 =? 0)%nat || (length filtered2 =? 0)%nat then
    {| DiffCI.meanDiff := Fin 0; DiffCI.lower := Fin 0;
       DiffCI.upper := Fin 0; DiffCI.se := Fin 0 |}
  else
    let mean1 := mean filtered1 in
    let mean2 := mean filtered2 in
    let sd1 := standardDeviation filtered1 in
    let sd2 := standardDeviation filtered2 in
    let n1 := cnt (length filtered1) in
    let n2 := cnt (length filtered2) in
    let meanDiff := (mean1 - mean2)%num in
    let se1 := (sd1 / Math_sqrt n1)%num in
    let se2 := (sd2 / Math_sqrt n2)%num in
    let pooledSE := Math_sqrt (se1 * se1 + se2 * se2)%num in
    let margin := (Fin 1.96 * pooledSE)%num in
    {| DiffCI.meanDiff := toFixed 2 meanDiff;
       DiffCI.lower := toFixed 2 (meanDiff - margin);
       DiffCI.upper := toFixed 2 (meanDiff + margin);
       DiffCI.se := toFixed 2 pooledSE |}.

(** A plain object read and written by key: its own properties, in the
    order of their creation.  The order in which [Object.entries]
    lists them is not modelled; objects are only read by key. *)
Definition object (V : Type) : Type := list (string * V).

Fixpoint own_get {V : Type} (o : object V) (k : string) : option V :=
  match o with
  | [] => None
  | (k', v) :: rest => if String.eqb k' k then Some v else own_get rest k
  end.

Fixpoint own_set {V : Type} (o : object V) (k : string) (v : V)
  : object V :=
  match o with
  | [] => [(k, v)]
  | (k', v') :: rest =>
      if String.eqb k' k then (k', v) :: rest
      else (k', v') :: own_set rest k v
  end.

(** [Math.min(...values)] and [Math.max(...values)]. *)
Definition Math_min (values : list value) : num :=
  fold_left (fun m v => min m (toNumber v)) values PInf.

Definition Math_max (values : list value) : num :=
  fold_left (fun m v => max m (toNumber v)) values NInf.

Module Summary.
Record t : Type :=
  { n : Z; mean : num; median : num; sd : num; se : num;
    ci_lower : num; ci_upper : num; min : num; max : num }.
End Summary.

Section Groups.
(** The items are objects.  [key item] is the property key that
    [item[key]] converts to and [valueOf item] is [item[valueKey]], a
    number, [null] or [undefined].  [inherited k] tells whether every
    object inherits a member named [k] from [Object.prototype]
    ([toString], [constructor], ...): such a member is an object
    without a [push] method. *)
Context {A : Type}.
Variable inherited : string -> bool.
Variable key : A -> string.
Variable valueOf : A -> value.

(** One step of the [reduce] of [groupBy]; [None] is the [TypeError]
    raised by [groups[groupKey].push] on an inherited member. *)
Definition groupBy_step (groups : option (object (list A))) (item : A)
  : option (object (list A)) :=
  match groups with
  | None => None
  | Some groups =>
      let groupKey := key item in
      match own_get groups groupKey with
      | Some items => Some (own_set groups groupKey (items ++ [item]))
      | None =>
          if inherited groupKey then None
          else Some (own_set groups groupKey [item])
      end
  end.

Definition groupBy (arr : list A) : option (object (list A)) :=
  fold_left groupBy_step arr (Some []).

(** The summary of one group in [summarizeByGroup]. *)
Definition summarize `{MathLib} (items : list A) : Summary.t :=
  let values := filter valid (map valueOf items) in
  let ci := confidenceInterval95 values in
  let sd := standardDeviation values in
  let med := median values in
  {| Summary.n := Z.of_nat (length items);
     Summary.mean := CI.mean ci;
     Summary.median := toFixed 2 med;
     Summary.sd := toFixed 2 sd;
     Summary.se := CI.se ci;
     Summary.ci_lower := CI.lower ci;
     Summary.ci_upper := CI.upper ci;
     Summary.min :=
       if (0 <? length values)%nat then toFixed 2 (Math_min values)
       else Fin 0;
     Summary.max :=
       if (0 <? length values)%nat then toFixed 2 (Math_max values)
       else Fin 0 |}.

Definition summarizeByGroup `{MathLib} (data : list A)
  : option (object Summary.t) :=
  match groupBy data with
  | None => None
  | Some grouped =>
      Some (fold_left
              (fun summary entry =>
                 own_set summary (fst entry) (summarize (snd entry)))
              grouped [])
  end.

End Groups.

(** ** Survival charts: landmarks, medians, cumulative events *)

(** [getSurvivalAtTime], local to [createKaplanMeierCurve]: the loop
    with its [break], then the function. *)
Fixpoint getSurvivalAtTime_loop (kmData : list KM.point)
  (targetTime survivalProb : num) : num :=
  match kmData with
  | [] => survivalProb
  | p :: rest =>
      if leb (KM.time p) targetTime then
        getSurvivalAtTime_loop rest targetTime (KM.survival p)
      else survivalProb
  end.

Definition getSurvivalAtTime (kmData : list KM.point) (targetTime : num)
  : num :=
  getSurvivalAtTime_loop kmData targetTime (Fin 1).

(** [findMedian], local to [createSurvivalSummaryChart].  [previous] is
    [km[i-1]], absent when [i] is 0; the loop gives [None] when it ends
    without [return]. *)
Fixpoint findMedian_loop (previous : option KM.point) (km : list KM.point)
  : option num :=
  match km with
  | [] => None
  | p :: rest =>
      if (KM.survival p <? Fin 0.5)%num then
        Some (match previous with
              | Some q => ((KM.time q + KM.time p) / Fin 2)%num
              | None => KM.time p
              end)
      else findMedian_loop (Some p) rest
  end.

(** [None] is the [TypeError] of [km[km.length - 1].time] on an empty
    array. *)
Definition findMedian (km : list KM.point) : option num :=
  match findMedian_loop None km with
  | Some m => Some m
  | None =>
      match nth_error km (length km - 1) with
      | Some p => Some (KM.time p)
      | None => None
      end
  end.

Module Cumulative.
Record t : Type :=
  { times : list num; counts : list Z; totalEvents : Z }.
End Cumulative.

(** The [forEach] of [calculateCumulativeEvents], pushing one time and
    one count per event. *)
Fixpoint cumulative_loop (events : list Q) (index : nat)
  (times : list num) (counts : list Z) : list num * list Z :=
  match events with
  | [] => (times, counts)
  | eventTime :: rest =>
      cumulative_loop rest (S index) (times ++ [Fin eventTime])
                      (counts ++ [(Z.of_nat index + 1)%Z])
  end.

(** [calculateCumulativeEvents], local to
    [createCumulativeEventsChart]. *)
Definition calculateCumulativeEvents (armData : list record)
  : Cumulative.t :=
  let events :=
    sort_by (fun a b => a - b)
            (map time_months
                 (filter (fun d => (event d =? 1)%Z) armData)) in
  let '(times, counts) := cumulative_loop events 0 [Fin 0] [0%Z] in
  {| Cumulative.times := times; Cumulative.counts := counts;
     Cumulative.totalEvents := Z.of_nat (length events) |}.

(** [countAtRisk], local to [createKaplanMeierCurve]. *)
Definition countAtRisk (arm : list record) (time : Q) : nat :=
  length (filter (fun d => Qle_bool time (time_months d)) arm).

(** ** Diagnostic accuracy: threshold explorer and confusion matrix *)

(** [x || 0] on a number: [0] and [NaN] are the falsy numbers. *)
Definition or_zero (x : num) : num :=
  match x with
  | Fin q => if Qeq_bool q 0 then Fin 0 else x
  | NaN => Fin 0
  | PInf | NInf => x
  end.

Module Explorer.
Record t : Type :=
  { tp : nat; fn : nat; tn : nat; fp : nat;
    sensitivity : num; specificity : num; ppv : num; npv : num;
    accuracy : num; f1 : num }.
End Explorer.

(** The cells and metric values that [updateThresholdExplorer] renders
    for the array [data]. *)
Definition updateThresholdExplorer (threshold : Q) (data : list Patient.t)
  : Explorer.t :=
  let pos := filter isPositive data in
  let neg := filter isNegative data in
  let above := fun p => Qle_bool threshold (predicted_probability p) in
  let below := fun p => Qlt_bool (predicted_probability p) threshold in
  let tp := length (filter above pos) in
  let fn := length (filter below pos) in
  let tn := length (filter below neg) in
  let fp := length (filter above neg) in
  let sensitivity := or_zero (cnt tp / (cnt tp + cnt fn))%num in
  let specificity := or_zero (cnt tn / (cnt tn + cnt fp))%num in
  let ppv := or_zero (cnt tp / (cnt tp + cnt fp))%num in
  let npv := or_zero (cnt tn / (cnt tn + cnt fn))%num in
  let accuracy := ((cnt tp + cnt tn) / cnt (length data))%num in
  let f1 :=
    or_zero (Fin 2 * (ppv * sensitivity) / (ppv + sensitivity))%num in
  {| Explorer.tp := tp; Explorer.fn := fn; Explorer.tn := tn;
     Explorer.fp := fp;
     Explorer.sensitivity := sensitivity;
     Explorer.specificity := specificity;
     Explorer.ppv := ppv; Explorer.npv := npv;
     Explorer.accuracy := accuracy; Explorer.f1 := f1 |}.

(** A row of the imaging study. *)
Module Imaging.
Record t : Type :=
  { disease_status : string; imaging_result : string }.
End Imaging.

(** [d.disease_status === actual && d.imaging_result === predicted] *)
Definition imaging_cell (actual predicted : string) (d : Imaging.t) : bool :=
  String.eqb (Imaging.disease_status d) actual
  && String.eqb (Imaging.imaging_result d) predicted.

(** The matrix [[TN, FP], [FN, TP]] of [createConfusionMatrix]. *)
Definition createConfusionMatrix (data : list Imaging.t) : list (list nat) :=
  let TP := length (filter (imaging_cell "Positive" "Positive") data) in
  let FN := length (filter (imaging_cell "Positive" "Negative") data) in
  let FP := length (filter (imaging_cell "Negative" "Positive") data) in
  let TN := length (filter (imaging_cell "Negative" "Negative") data) in
  [[TN; FP]; [FN; TP]].

Module Accuracy.
Record t : Type :=
  { sensitivity : num; specificity : num; ppv : num; npv : num;
    accuracy : num; sensCI : num; specCI : num }.
End Accuracy.

(** [calcCI], local to [createDiagnosticAccuracyChart]. *)
Definition calcCI `{MathLib} (p n : num) : num :=
  let z := Fin 1.96 in
  let phat := (p / Fin 100)%num in
  let se := Math_sqrt ((phat * (Fin 1 - phat)) / n)%num in
  let margin := (z * se * Fin 100)%num in
  margin.

(** The bar heights and error bars of [createDiagnosticAccuracyChart]. *)
Definition createDiagnosticAccuracyChart `{MathLib} (data : list Imaging.t)
  : Accuracy.t :=
  let TP := cnt (length (filter (imaging_cell "Positive" "Positive") data)) in
  let FN := cnt (length (filter (imaging_cell "Positive" "Negative") data)) in
  let FP := cnt (length (filter (imaging_cell "Negative" "Positive") data)) in
  let TN := cnt (length (filter (imaging_cell "Negative" "Negative") data)) in
  let sensitivity := ((TP / (TP + FN)) * Fin 100)%num in
  let specificity := ((TN / (TN + FP)) * Fin 100)%num in
  let ppv := ((TP / (TP + FP)) * Fin 100)%num in
  let npv := ((TN / (TN + FN)) * Fin 100)%num in
  let accuracy := (((TP + TN) / cnt (length data)) * Fin 100)%num in
  let sensCI := calcCI sensitivity (TP + FN)%num in
  let specCI := calcCI specificity (TN + FP)%num in
  {| Accuracy.sensitivity := sensitivity;
     Accuracy.specificity := specificity;
     Accuracy.ppv := ppv; Accuracy.npv := npv;
     Accuracy.accuracy := accuracy;
     Accuracy.sensCI := sensCI; Accuracy.specCI := specCI |}.

(** ** Calibration plot *)

Module Bin.
Record t : Type :=
  { lower : Q; upper : Q; predicted : list Q; observed : list Q }.
End Bin.

Module Calibration.
Record t : Type := { predicted : num; observed : num; count : nat }.
End Calibration.

(** [l[i] = f(l[i])] for an index [i] inside the array [l]. *)
Fixpoint update_at {A : Type} (i : nat) (f : A -> A) (l : list A) : list A :=
  match l, i with
  | [], _ => []
  | x :: l', O => f x :: l'
  | x :: l', S i' => x :: update_at i' f l'
  end.

(** The ten empty bins [{ lower: i/10, upper: (i+1)/10, ... }]. *)
Definition calibration_bins : list Bin.t :=
  map (fun i => {| Bin.lower := inject_Z (Z.of_nat i) / 10;
                   Bin.upper := (inject_Z (Z.of_nat i) + 1) / 10;
                   Bin.predicted := []; Bin.observed := [] |})
      (seq 0 10).

(** One turn of the loop that assigns the patients to the bins.  The
    index [Math.min(Math.floor(prob * 10), 9)] is an integer; when it
    is negative [bins[binIdx]] is [undefined] and reading its
    [predicted] throws a [TypeError], which is [None] here and ends the
    function. *)
Definition assign_bin (bins : option (list Bin.t)) (patient : Patient.t)
  : option (list Bin.t) :=
  match bins with
  | None => None
  | Some bins =>
      let prob := predicted_probability patient in
      let binIdx := Z.min (Qfloor (prob * 10)) 9 in
      if (binIdx <? 0)%Z then None
      else
        Some (update_at (Z.to_nat binIdx)
                (fun bin =>
                   {| Bin.lower := Bin.lower bin;
                      Bin.upper := Bin.upper bin;
                      Bin.predicted := Bin.predicted bin ++ [prob];
                      Bin.observed :=
                        Bin.observed bin
                        ++ [if isPositive patient then 1 else 0] |})
                bins)
  end.

(** The points of the calibration curve of [createCalibrationPlot]. *)
Definition createCalibrationPlot (data : list Patient.t)
  : option (list Calibration.t) :=
  match fold_left assign_bin data (Some calibration_bins) with
  | None => None
  | Some bins =>
      Some
        (map (fun bin =>
                let meanPredicted :=
                  (Fin (fold_left Qplus (Bin.predicted bin) 0)
                   / cnt (length (Bin.predicted bin)))%num in
                let meanObserved :=
                  (Fin (fold_left Qplus (Bin.observed bin) 0)
                   / cnt (length (Bin.observed bin)))%num in
                {| Calibration.predicted := meanPredicted;
                   Calibration.observed := meanObserved;
                   Calibration.count := length (Bin.predicted bin) |})
             (filter (fun bin => (0 <? length (Bin.predicted bin))%nat)
                     bins))
  end.

(** ** Responder analysis: number needed to treat *)

(** [Math.ceil]. *)
Definition Math_ceil (x : num) : num :=
  match x with
  | Fin q => Fin (inject_Z (Qceiling q))
  | _ => x
  end.

(** A row of the clinical-trial data. *)
Module Trial.
Record t : Type :=
  { treatment_group : string; pct_change_week12 : value }.
End Trial.

Module NNTCard.
Record t : Type := { ARR : num; NNT : num }.
End NNTCard.

(** The absolute risk reduction and the number needed to treat that
    [updateNNTCard] (js/main.js) shows. *)
Definition updateNNTCard (data : list Trial.t) : NNTCard.t :=
  let treatmentData :=
    filter (fun d => String.eqb (Trial.treatment_group d) "Treatment") data in
  let placeboData :=
    filter (fun d => String.eqb (Trial.treatment_group d) "Placebo") data in
  let treatmentResponders :=
    length (filter (fun d => leb (toNumber (Trial.pct_change_week12 d))
                                 (Fin (-20))) treatmentData) in
  let placeboResponders :=
    length (filter (fun d => leb (toNumber (Trial.pct_change_week12 d))
                                 (Fin (-20))) placeboData) in
  let treatmentRate :=
    (cnt treatmentResponders / cnt (length treatmentData))%num in
  let placeboRate :=
    (cnt placeboResponders / cnt (length placeboData))%num in
  let ARR := (treatmentRate - placeboRate)%num in
  let NNT := if (ARR >? Fin 0)%num then Math_ceil (Fin 1 / ARR)%num
             else PInf in
  {| NNTCard.ARR := ARR; NNTCard.NNT := NNT |}.

Module IconArray.
Record t : Type :=
  { NNT : num; highlightedIcons : num; iconData : list bool }.
End IconArray.

(** The number needed to treat of [createNNTIconArray], its local
    [highlightedIcons] and, for each of the ten icons, whether it is
    drawn highlighted ([isHighlighted] in both loops over the icons). *)
Definition createNNTIconArray (data : list Trial.t) : IconArray.t :=
  let RESPONDER_THRESHOLD := Fin (-20) in
  let treatmentData :=
    filter (fun d => String.eqb (Trial.treatment_group d) "Treatment") data in
  let placeboData :=
    filter (fun d => String.eqb (Trial.treatment_group d) "Placebo") data in
  let treatmentResponders :=
    length (filter (fun d => leb (toNumber (Trial.pct_change_week12 d))
                                 RESPONDER_THRESHOLD) treatmentData) in
  let placeboResponders :=
    length (filter (fun d => leb (toNumber (Trial.pct_change_week12 d))
                                 RESPONDER_THRESHOLD) placeboData) in
  let treatmentRate :=
    (cnt treatmentResponders / cnt (length treatmentData))%num in
  let placeboRate :=
    (cnt placeboResponders / cnt (length placeboData))%num in
  let ARR := (treatmentRate - placeboRate)%num in
  let NNT := if (ARR >? Fin 0)%num then Math_ceil (Fin 1 / ARR)%num
             else PInf in
  let totalIcons := 10%nat in
  let highlightedIcons := JS.min NNT (cnt totalIcons) in
  let iconData :=
    map (fun i => (cnt i <? highlightedIcons)%num && negb (NNT === PInf)%num)
        (seq 0 totalIcons) in
  {| IconArray.NNT := NNT; IconArray.highlightedIcons := highlightedIcons;
     IconArray.iconData := iconData |}.

(** ** The RMST card *)

(** A row of the survival study. *)
Module Subject.
Record t : Type :=
  { treatment_arm : string; time_months : Q; event : Z }.
End Subject.

(** The fields of a row that [calculateKM] reads. *)
Definition follow_up (d : Subject.t) : record :=
  {| time_months := Subject.time_months d; event := Subject.event d |}.

Module RMSTCard.
Record t : Type :=
  { rmstA : num; rmstB : num; difference : num; advantageA : bool }.
End RMSTCard.

(** The values that [updateRMSTCard] shows; [advantageA] is the test
    [difference >= 0] that chooses the sign and the colour. *)
Definition updateRMSTCard `{MathLib} (data : list Subject.t)
  (restrictionTime : Q) : RMSTCard.t :=
  let treatmentAData :=
    filter (fun d => String.eqb (Subject.treatment_arm d) "Treatment A")
           data in
  let treatmentBData :=
    filter (fun d => String.eqb (Subject.treatment_arm d) "Treatment B")
           data in
  let kmA := calculateKM (map follow_up treatmentAData) in
  let kmB := calculateKM (map follow_up treatmentBData) in
  let rmstA := calculateRMST kmA (Fin restrictionTime) in
  let rmstB := calculateRMST kmB (Fin restrictionTime) in
  let difference := (rmstA - rmstB)%num in
  {| RMSTCard.rmstA := rmstA; RMSTCard.rmstB := rmstB;
     RMSTCard.difference := difference;
     RMSTCard.advantageA := (difference >=? Fin 0)%num |}.

(** ** Vocabulary of the statements *)

(** A measurement: an array element that is missing ([null],
    [undefined], [NaN]) or a finite number. *)
Definition measurement (val : value) : Prop :=
  match val with
  | JNum PInf | JNum NInf => False
  | _ => True
  end.

Definition ofQ (q : Q) : value := JNum (Fin q).

(** A measurement of moderate magnitude: missing, or a finite number of
    absolute value at most 10^100.  The sums, squares and quotients
    that the routines form from such values stay far below the largest
    binary64 number, so that no intermediate result overflows. *)
Definition moderate (val : value) : Prop :=
  match val with
  | JNum (Fin q) => Qabs q <= pow10 100
  | JNum PInf | JNum NInf => False
  | _ => True
  end.

(** At a point of a KM curve: [0 <= lower <= survival <= upper <= 1]. *)
Definition ci_ordered (p : KM.point) : Prop :=
  le (Fin 0) (KM.lower p) /\ le (KM.lower p) (KM.survival p)
  /\ le (KM.survival p) (KM.upper p) /\ le (KM.upper p) (Fin 1).

Definition time_increasing (p q : KM.point) : Prop :=
  lt (KM.time p) (KM.time q).

Definition survival_decreasing (p q : KM.point) : Prop :=
  le (KM.survival q) (KM.survival p).


Definition positives (data : list Patient.t) : nat :=
  length (filter isPositive data).

Definition negatives (data : list Patient.t) : nat :=
  length (filter isNegative data).


(** Pairwise distinct predicted scores. *)
Definition distinct_scores (data : list Patient.t) : Prop :=
  StronglySorted
    (fun p q => ~ predicted_probability p == predicted_probability q) data.



(** The point (0, 0) that [createROCCurve] pushes first. *)
Definition roc_first : ROC.point :=
  {| ROC.fpr := Fin 0; ROC.tpr := Fin 0; ROC.threshold := Fin 1 |}.


(** The valid values of [arr] that are at most, or at least, [m]. *)
Definition count_at_most (arr : list value) (m : num) : nat :=
  length (filter (fun v => leb (toNumber v) m) (filter valid arr)).

Definition count_at_least (arr : list value) (m : num) : nat :=
  length (filter (fun v => leb m (toNumber v)) (filter valid arr)).

(** The comparator [(a, b) => a - b] on finite numbers. *)
Definition ascending (a b : Q) : Q := a - b.

(** What a group holds after one more item: [o] is the group so far
    (if any) and [l] the items that join it. *)
Definition joined {A : Type} (o : option (list A)) (l : list A)
  : option (list A) :=
  match o, l with
  | None, [] => None
  | None, _ => Some l
  | Some items, _ => Some (items ++ l)
  end.

(** The items of [arr] whose key is [k]. *)
Definition with_key {A : Type} (key : A -> string) (k : string)
  (arr : list A) : list A :=
  filter (fun item => String.eqb (key item) k) arr.

(** A row of the imaging study whose disease status and imaging result
    are both one of the labels ['Positive'] and ['Negative']. *)
Definition labelled (d : Imaging.t) : bool :=
  (String.eqb (Imaging.disease_status d) "Positive"
   || String.eqb (Imaging.disease_status d) "Negative")
  && (String.eqb (Imaging.imaging_result d) "Positive"
      || String.eqb (Imaging.imaging_result d) "Negative").

(** The patient falls into bin [i] of the calibration plot. *)
Definition in_bin (i : nat) (p : Patient.t) : bool :=
  (Z.to_nat (Z.min (Qfloor (predicted_probability p * 10)) 9) =? i)%nat.

(** Bin [i] of the calibration plot filled with the patients of
    [data]. *)
Definition bin_of (data : list Patient.t) (i : nat) : Bin.t :=
  {| Bin.lower := inject_Z (Z.of_nat i) / 10;
     Bin.upper := (inject_Z (Z.of_nat i) + 1) / 10;
     Bin.predicted := map predicted_probability (filter (in_bin i) data);
     Bin.observed :=
       map (fun p => if isPositive p then 1 else 0)
           (filter (in_bin i) data) |}.

(** Two points of a curve in the order of their times. *)
Definition time_ordered (p q : KM.point) : Prop := le (KM.time p) (KM.time q).

(** The times of the events of an arm, in ascending order. *)
Definition eventTimes (armData : list record) : list Q :=
  sort_by ascending
          (map time_months (filter (fun d => (event d =? 1)%Z) armData)).

(** ** Sample data

    Two samples with missing values, the three survival records of a
    small study (an event at 5 months, a censoring at 10, an event at
    12) and two small diagnostic data sets. *)

Definition sampleA : list value := [ofQ 10; ofQ 20; ofQ 30; JNull; JNum NaN].
Definition sampleB : list value := [JUndefined; ofQ 15; ofQ 25].
Definition sampleC : list value := [ofQ 1; ofQ 2; JNull; ofQ 3].

Definition scenario2 : list record :=
  [ {| time_months := 5; event := 1 |};
    {| time_months := 10; event := 0 |};
    {| time_months := 12; event := 1 |} ].

Definition patient (status : string) (score : Q) : Patient.t :=
  {| disease_status := status; predicted_probability := score |}.


Definition mixedData : list Patient.t :=
  [ patient "Positive" 0.9; patient "Negative" 0.8;
    patient "Positive" 0.3; patient "Negative" 0.1 ].

(** The property names that every object inherits from
    [Object.prototype]. *)
Definition objectPrototype (k : string) : bool :=
  existsb (String.eqb k)
    [ "constructor"; "hasOwnProperty"; "isPrototypeOf";
      "propertyIsEnumerable"; "toLocaleString"; "toString"; "valueOf";
      "__proto__"; "__defineGetter__"; "__defineSetter__";
      "__lookupGetter__"; "__lookupSetter__" ]%string.

Definition sampleSorted : list Q := [1; 2; 3; 4].

(** Rows [{ group, value }] as pairs. *)
Definition sampleRows : list (string * value) :=
  [ ("Treatment"%string, ofQ 10); ("Placebo"%string, ofQ 20);
    ("Treatment"%string, JNull); ("Treatment"%string, ofQ 30) ].

Definition imagingData : list Imaging.t :=
  [ {| Imaging.disease_status := "Positive";
       Imaging.imaging_result := "Positive" |};
    {| Imaging.disease_status := "Positive";
       Imaging.imaging_result := "Negative" |};
    {| Imaging.disease_status := "Negative";
       Imaging.imaging_result := "Negative" |};
    {| Imaging.disease_status := "Negative";
       Imaging.imaging_result := "Positive" |};
    {| Imaging.disease_status := "Positive";
       Imaging.imaging_result := "Positive" |} ].

Definition trialData : list Trial.t :=
  [ {| Trial.treatment_group := "Treatment";
       Trial.pct_change_week12 := ofQ (-35) |};
    {| Trial.treatment_group := "Treatment";
       Trial.pct_change_week12 := ofQ (-25) |};
    {| Trial.treatment_group := "Treatment";
       Trial.pct_change_week12 := ofQ (-5) |};
    {| Trial.treatment_group := "Placebo";
       Trial.pct_change_week12 := ofQ (-22) |};
    {| Trial.treatment_group := "Placebo";
       Trial.pct_change_week12 := JUndefined |};
    {| Trial.treatment_group := "Placebo";
       Trial.pct_change_week12 := ofQ 4 |} ].

(** A trial without a treatment group. *)
Definition placeboOnly : list Trial.t :=
  [ {| Trial.treatment_group := "Placebo";
       Trial.pct_change_week12 := ofQ (-22) |};
    {| Trial.treatment_group := "Placebo";
       Trial.pct_change_week12 := ofQ 4 |} ].

Definition survivalRows : list Subject.t :=
  [ {| Subject.treatment_arm := "Treatment A";
       Subject.time_months := 5; Subject.event := 1 |};
    {| Subject.treatment_arm := "Treatment A";
       Subject.time_months := 20; Subject.event := 0 |};
    {| Subject.treatment_arm := "Treatment B";
       Subject.time_months := 8; Subject.event := 1 |};
    {| Subject.treatment_arm := "Treatment B";
       Subject.time_months := 12; Subject.event := 1 |} ].

(** ** A computable instance of [MathLib]

    Square root truncated to a multiple of [2^-40] (and kept positive
    on positive arguments), exponential by a Taylor polynomial. *)

Definition sqrt_approx (q : Q) : Q :=
  if Qle_bool q 0 then 0
  else inject_Z (Z.max 1 (Z.sqrt (Qfloor (q * inject_Z (4 ^ 40)))))
       / inject_Z (2 ^ 40).

Fixpoint exp_horner (n : nat) (k : Z) (x : Q) : Q :=
  match n with
  | O => 1
  | S n' => 1 + (x / inject_Z k) * exp_horner n' (k + 1) x
  end.

Definition exp_approx (q : Q) : Q :=
  if Qle_bool 0 q then exp_horner 16 1 q else / exp_horner 16 1 (- q).

(** * Properties *)

(** ** Rational arithmetic *)

Lemma Qlt_bool_iff a b : Qlt_bool a b = true <-> a < b.
Proof.
  unfold Qlt_bool. rewrite negb_true_iff.
  split; intro H.
  - apply Qnot_le_lt. intro Hle. apply Qle_bool_iff in Hle. congruence.
  - destruct (Qle_bool b a) eqn:E; [|reflexivity].
    apply Qle_bool_iff in E. exfalso. apply (Qlt_not_le _ _ H E).
Qed.

Lemma Qlt_bool_false a b : Qlt_bool a b = false <-> b <= a.
Proof.
  unfold Qlt_bool. rewrite negb_false_iff. apply Qle_bool_iff.
Qed.

Lemma Qle_bool_false a b : Qle_bool a b = false <-> b < a.
Proof.
  rewrite <- Qlt_bool_iff. unfold Qlt_bool.
  destruct (Qle_bool a b); simpl; split; congruence.
Qed.

Lemma Qeq_bool_false a b : Qeq_bool a b = false <-> ~ a == b.
Proof.
  split.
  - apply Qeq_bool_neq.
  - intro H. destruct (Qeq_bool a b) eqn:E; [|reflexivity].
    apply Qeq_bool_iff in E. contradiction.
Qed.

(** Turn the boolean tests on rationals of the context into
    propositions. *)
Ltac qbool :=
  repeat match goal with
  | H : Qle_bool _ _ = true |- _ => apply Qle_bool_iff in H
  | H : Qle_bool _ _ = false |- _ => apply Qle_bool_false in H
  | H : Qlt_bool _ _ = true |- _ => apply Qlt_bool_iff in H
  | H : Qlt_bool _ _ = false |- _ => apply Qlt_bool_false in H
  | H : Qeq_bool _ _ = true |- _ => apply Qeq_bool_iff in H
  | H : Qeq_bool _ _ = false |- _ => apply Qeq_bool_false in H
  end.

Lemma cnt_nonneg (n : nat) : 0 <= inject_Z (Z.of_nat n).
Proof.
  change 0 with (inject_Z 0). rewrite <- Zle_Qle. lia.
Qed.

Lemma cnt_pos (n : nat) : (0 < n)%nat -> 0 < inject_Z (Z.of_nat n).
Proof.
  intro H. change 0 with (inject_Z 0). rewrite <- Zlt_Qlt. lia.
Qed.

Lemma cnt_S (n : nat) :
  inject_Z (Z.of_nat (S n)) == inject_Z (Z.of_nat n) + 1.
Proof.
  rewrite Nat2Z.inj_succ. unfold Z.succ. rewrite inject_Z_plus. reflexivity.
Qed.

Lemma cnt_le (m n : nat) :
  (m <= n)%nat -> inject_Z (Z.of_nat m) <= inject_Z (Z.of_nat n).
Proof.
  intro H. rewrite <- Zle_Qle. lia.
Qed.

Lemma div_fin (a b : Q) : ~ b == 0 -> (Fin a / Fin b)%num = Fin (a / b).
Proof.
  intro H. simpl. apply Qeq_bool_false in H. rewrite H. reflexivity.
Qed.

Lemma div_cnt (a : Q) (n : nat) :
  (0 < n)%nat -> (Fin a / cnt n)%num = Fin (a / inject_Z (Z.of_nat n)).
Proof.
  intro H. unfold cnt. apply div_fin.
  pose proof (cnt_pos n H). lra.
Qed.

Lemma Qsq_nonneg (x : Q) : 0 <= x * x.
Proof. nra. Qed.

Lemma Qdiv_nonneg (a b : Q) : 0 <= a -> 0 < b -> 0 <= a / b.
Proof.
  intros Ha Hb. apply Qle_shift_div_l; [assumption | lra].
Qed.

Lemma Qdiv_le_1 (a b : Q) : a <= b -> 0 < b -> a / b <= 1.
Proof.
  intros Ha Hb. apply Qle_shift_div_r; [assumption | lra].
Qed.

(** ** Rounding to a fixed number of decimals is monotone *)

Lemma pow10_pos (d : nat) : 0 < pow10 d.
Proof.
  unfold pow10. change 0 with (inject_Z 0). rewrite <- Zlt_Qlt.
  apply Z.pow_pos_nonneg; lia.
Qed.

Lemma nearest_mono (d : nat) (a b : Q) :
  a <= b -> nearest d a <= nearest d b.
Proof.
  intro Hab. unfold nearest.
  pose proof (pow10_pos d) as Hs.
  apply Qmult_le_compat_r.
  - rewrite <- Zle_Qle. apply Qfloor_resp_le.
    apply Qplus_le_l. apply Qmult_le_compat_r; lra.
  - apply Qlt_le_weak, Qinv_lt_0_compat, Hs.
Qed.

Lemma nearest_nonneg (d : nat) (q : Q) : 0 <= q -> 0 <= nearest d q.
Proof.
  intro Hq. apply Qle_trans with (nearest d 0).
  - unfold nearest. apply Qdiv_nonneg; [| apply pow10_pos].
    assert (H : (Qfloor 0 <= Qfloor (0 * pow10 d + (1 # 2)))%Z)
      by (apply Qfloor_resp_le; lra).
    rewrite Zle_Qle in H. exact H.
  - apply nearest_mono, Hq.
Qed.

Lemma nearest_below (d : nat) (q : Q) :
  q < pow10 21 -> nearest d q <= pow10 21.
Proof.
  intro Hq. unfold nearest.
  pose proof (pow10_pos d) as Hs.
  apply Qle_shift_div_r; [assumption|].
  unfold pow10 in *. rewrite <- inject_Z_mult. rewrite <- Zle_Qle.
  set (K := (10 ^ Z.of_nat 21 * 10 ^ Z.of_nat d)%Z).
  set (x := q * inject_Z (10 ^ Z.of_nat d) + (1 # 2)).
  destruct (Z.le_gt_cases (Qfloor x) K) as [Hle | Hgt]; [assumption|].
  exfalso.
  assert (H1 : inject_Z (K + 1) <= inject_Z (Qfloor x))
    by (rewrite <- Zle_Qle; lia).
  pose proof (Qfloor_le x) as H2.
  assert (H3 : x < inject_Z K + (1 # 2)).
  { unfold x, K. rewrite inject_Z_mult.
    apply Qplus_lt_l. apply Qmult_lt_compat_r; assumption. }
  rewrite inject_Z_plus in H1. change (inject_Z 1) with 1 in H1. lra.
Qed.

Lemma toFixedQ_mono (d : nat) (a b : Q) :
  a <= b -> toFixedQ d a <= toFixedQ d b.
Proof.
  intro Hab. unfold toFixedQ.
  pose proof (pow10_pos 21) as HM.
  destruct (Qle_bool (pow10 21) (Qabs a)) eqn:Ea;
    destruct (Qle_bool (pow10 21) (Qabs b)) eqn:Eb;
    destruct (Qle_bool 0 a) eqn:Sa; destruct (Qle_bool 0 b) eqn:Sb;
    qbool;
    try (rewrite (Qabs_pos a) in Ea by lra);
    try (rewrite (Qabs_neg a) in Ea by lra);
    try (rewrite (Qabs_pos b) in Eb by lra);
    try (rewrite (Qabs_neg b) in Eb by lra);
    try lra.
  - pose proof (nearest_nonneg d b Sb). lra.
  - assert (Hb : - b < pow10 21) by lra.
    pose proof (nearest_below d (- b) Hb). lra.
  - pose proof (nearest_below d a Ea). lra.
  - assert (Ha' : 0 <= - a) by lra.
    pose proof (nearest_nonneg d (- a) Ha'). lra.
  - apply nearest_mono, Hab.
  - assert (Ha' : 0 <= - a) by lra.
    pose proof (nearest_nonneg d (- a) Ha').
    pose proof (nearest_nonneg d b Sb). lra.
  - assert (Hba : - b <= - a) by lra.
    pose proof (nearest_mono d _ _ Hba). lra.
Qed.

(** ** The computable instance satisfies the interface *)

Lemma sqrt_approx_nonneg (x : Q) : 0 <= x -> 0 <= sqrt_approx x.
Proof.
  intros _. unfold sqrt_approx.
  destruct (Qle_bool x 0); [lra|].
  apply Qdiv_nonneg; [| reflexivity].
  change 0 with (inject_Z 0). rewrite <- Zle_Qle. lia.
Qed.

Lemma sqrt_approx_pos (x : Q) : 0 < x -> 0 < sqrt_approx x.
Proof.
  intro Hx. unfold sqrt_approx.
  destruct (Qle_bool x 0) eqn:E; qbool; [lra|].
  apply Qlt_shift_div_l; [reflexivity|].
  rewrite Qmult_0_l. change 0 with (inject_Z 0). rewrite <- Zlt_Qlt. lia.
Qed.

Lemma exp_horner_ge_1 (n : nat) :
  forall (k : Z) (x : Q), (0 < k)%Z -> 0 <= x -> 1 <= exp_horner n k x.
Proof.
  induction n as [|n IH]; intros k x Hk Hx; simpl; [lra|].
  assert (Hk' : 0 < inject_Z k)
    by (change 0 with (inject_Z 0); rewrite <- Zlt_Qlt; exact Hk).
  assert (H1 : 1 <= exp_horner n (k + 1) x) by (apply IH; [lia | exact Hx]).
  assert (H2 : 0 <= x / inject_Z k) by (apply Qdiv_nonneg; assumption).
  nra.
Qed.

Lemma exp_approx_pos (x : Q) : 0 < exp_approx x.
Proof.
  unfold exp_approx.
  destruct (Qle_bool 0 x) eqn:E; qbool.
  - pose proof (exp_horner_ge_1 16 1 x ltac:(lia) E). lra.
  - assert (Hx : 0 <= - x) by lra.
    pose proof (exp_horner_ge_1 16 1 (- x) ltac:(lia) Hx).
    apply Qinv_lt_0_compat. lra.
Qed.

Definition approxMath : MathLib :=
  {| sqrtQ := sqrt_approx; expQ := exp_approx;
     sqrtQ_nonneg := sqrt_approx_nonneg; sqrtQ_pos := sqrt_approx_pos;
     expQ_pos := exp_approx_pos |}.

(** ** Descriptive statistics on finite samples *)

Lemma filter_valid_measurements (arr : list value) :
  Forall measurement arr -> exists qs, filter valid arr = map ofQ qs.
Proof.
  induction 1 as [|v arr Hv _ [qs IH]]; [exists []; reflexivity|].
  destruct v as [| | [q| | |]]; simpl in *; try contradiction;
    try (exists qs; exact IH).
  exists (q :: qs). rewrite IH. reflexivity.
Qed.

Lemma moderate_measurement (arr : list value) :
  Forall moderate arr -> Forall measurement arr.
Proof.
  apply Forall_impl. intros [| | [q| | |]] H; simpl in *; auto.
Qed.

Lemma filter_valid_ofQ (qs : list Q) : filter valid (map ofQ qs) = map ofQ qs.
Proof.
  induction qs as [|q qs IH]; simpl; [reflexivity | now rewrite IH].
Qed.

Lemma sum_ofQ (qs : list Q) :
  forall a : Q,
    fold_left (fun sum val => (sum + toNumber val)%num) (map ofQ qs) (Fin a)
    = Fin (fold_left Qplus qs a).
Proof.
  induction qs as [|q qs IH]; intro a; simpl; [reflexivity | apply IH].
Qed.

Lemma mean_ofQ (qs : list Q) : exists m : Q, mean (map ofQ qs) = Fin m.
Proof.
  unfold mean. rewrite filter_valid_ofQ.
  destruct (length (map ofQ qs) =? 0)%nat eqn:E; [eexists; reflexivity|].
  apply Nat.eqb_neq in E.
  rewrite sum_ofQ, div_cnt by lia. eexists; reflexivity.
Qed.

Lemma sum_squaredDiffs (avg : Q) (qs : list Q) :
  forall a : Q,
    exists v : Q,
      fold_left (fun sum val => (sum + val)%num)
        (map (fun val => sq (toNumber val - Fin avg)) (map ofQ qs)) (Fin a)
      = Fin v /\ a <= v.
Proof.
  induction qs as [|q qs IH]; intro a; simpl.
  - exists a. split; [reflexivity | lra].
  - destruct (IH (a + (q + - avg) * (q + - avg))) as [v [Hv Hle]].
    exists v. split; [exact Hv|].
    pose proof (Qsq_nonneg (q + - avg)). lra.
Qed.

Section Stats.
Context {M : MathLib}.

Lemma Math_sqrt_fin (v : Q) : 0 <= v -> Math_sqrt (Fin v) = Fin (sqrtQ v).
Proof.
  intro Hv. simpl.
  destruct (Qlt_bool v 0) eqn:E; qbool; [lra | reflexivity].
Qed.

Lemma standardDeviation_ofQ (qs : list Q) :
  exists s : Q, standardDeviation (map ofQ qs) = Fin s /\ 0 <= s.
Proof.
  unfold standardDeviation. rewrite filter_valid_ofQ.
  destruct (length (map ofQ qs) <=? 1)%nat eqn:E.
  - exists 0. split; [reflexivity | lra].
  - apply Nat.leb_gt in E.
    destruct (mean_ofQ qs) as [avg Havg]. rewrite Havg.
    destruct (sum_squaredDiffs avg qs 0) as [v [Hv Hle]]. rewrite Hv.
    set (n := length (map ofQ qs)) in *.
    assert (Hn : 1 < inject_Z (Z.of_nat n))
      by (change 1 with (inject_Z 1); rewrite <- Zlt_Qlt; lia).
    unfold cnt, sub. cbn [neg add].
    rewrite div_fin by lra.
    assert (Hvar : 0 <= v / (inject_Z (Z.of_nat n) + - 1))
      by (apply Qdiv_nonneg; lra).
    rewrite Math_sqrt_fin by exact Hvar.
    eexists. split; [reflexivity | apply sqrtQ_nonneg, Hvar].
Qed.

Lemma sqrt_cnt (n : nat) :
  (0 < n)%nat ->
  Math_sqrt (cnt n) = Fin (sqrtQ (inject_Z (Z.of_nat n)))
  /\ 0 < sqrtQ (inject_Z (Z.of_nat n)).
Proof.
  intro Hn. pose proof (cnt_pos n Hn) as Hp.
  unfold cnt. rewrite Math_sqrt_fin by lra.
  split; [reflexivity | apply sqrtQ_pos, Hp].
Qed.

Lemma toFixed_le (d : nat) (a b : Q) :
  a <= b -> le (toFixed d (Fin a)) (toFixed d (Fin b)).
Proof.
  intro H. unfold le. simpl. apply Qle_bool_iff, toFixedQ_mono, H.
Qed.

Lemma confidenceInterval95_ofQ (qs : list Q) :
  qs <> [] ->
  let r := confidenceInterval95 (map ofQ qs) in
  le (CI.lower r) (CI.mean r) /\ le (CI.mean r) (CI.upper r).
Proof.
  intros Hne. unfold confidenceInterval95. rewrite filter_valid_ofQ.
  destruct (length (map ofQ qs) =? 0)%nat eqn:E.
  { apply Nat.eqb_eq in E. destruct qs; [contradiction | discriminate]. }
  apply Nat.eqb_neq in E.
  destruct (mean_ofQ qs) as [avg Havg].
  destruct (standardDeviation_ofQ qs) as [sd [Hsd Hsd0]].
  destruct (sqrt_cnt (length (map ofQ qs))) as [Hrt Hrt0]; [lia|].
  cbv zeta. rewrite Havg, Hsd, Hrt.
  rewrite div_fin by lra.
  set (rt := sqrtQ _) in *.
  assert (Hse : 0 <= sd / rt) by (apply Qdiv_nonneg; assumption).
  cbn [mul sub add neg CI.lower CI.mean CI.upper].
  split; apply toFixed_le; nra.
Qed.

Lemma filter_valid_idem (arr : list value) :
  filter valid (filter valid arr) = filter valid arr.
Proof.
  induction arr as [|v arr IH]; simpl; [reflexivity|].
  destruct (valid v) eqn:E; simpl; [rewrite E, IH; reflexivity | exact IH].
Qed.

Lemma confidenceInterval95_filtered (arr : list value) :
  confidenceInterval95 arr = confidenceInterval95 (filter valid arr).
Proof.
  unfold confidenceInterval95. rewrite filter_valid_idem. reflexivity.
Qed.

(** C5 (amended).  For every sample of measurements of moderate
    magnitude that is non-empty after the filter, the rounded fields of
    [confidenceInterval95] satisfy [lower <= mean <= upper]; when
    nothing is left after the filter the result is exactly
    [{mean: 0, lower: 0, upper: 0, se: 0}], whatever the sample. *)
Theorem confidenceInterval95_bounds (arr : list value) :
  (Forall moderate arr -> filter valid arr <> [] ->
   le (CI.lower (confidenceInterval95 arr)) (CI.mean (confidenceInterval95 arr))
   /\ le (CI.mean (confidenceInterval95 arr))
         (CI.upper (confidenceInterval95 arr)))
  /\ (filter valid arr = [] ->
      confidenceInterval95 arr
      = {| CI.mean := Fin 0; CI.lower := Fin 0; CI.upper := Fin 0;
           CI.se := Fin 0 |}).
Proof.
  split.
  - intros Hm Hne. apply moderate_measurement in Hm.
    rewrite confidenceInterval95_filtered.
    destruct (filter_valid_measurements arr Hm) as [qs Hqs].
    rewrite Hqs in *. apply confidenceInterval95_ofQ.
    intro E. subst qs. apply Hne. reflexivity.
  - intro He. unfold confidenceInterval95. rewrite He. reflexivity.
Qed.

(** *** The two-sample test *)

Lemma tTest_pooledSE_ofQ (qs1 qs2 : list Q) :
  qs1 <> [] -> qs2 <> [] ->
  exists p : Q,
    tTest_pooledSE (map ofQ qs1) (map ofQ qs2) = Fin p /\ 0 <= p.
Proof.
  intros H1 H2. unfold tTest_pooledSE.
  destruct (standardDeviation_ofQ qs1) as [s1 [Hs1 Hs1']].
  destruct (standardDeviation_ofQ qs2) as [s2 [Hs2 Hs2']].
  rewrite Hs1, Hs2. cbv zeta. cbn [mul].
  assert (Hn1 : (0 < length (map ofQ qs1))%nat)
    by (destruct qs1; [contradiction | simpl; lia]).
  assert (Hn2 : (0 < length (map ofQ qs2))%nat)
    by (destruct qs2; [contradiction | simpl; lia]).
  rewrite !div_cnt by assumption. cbn [add].
  pose proof (cnt_pos _ Hn1). pose proof (cnt_pos _ Hn2).
  assert (Hv : 0 <= s1 * s1 / inject_Z (Z.of_nat (length (map ofQ qs1)))
                    + s2 * s2 / inject_Z (Z.of_nat (length (map ofQ qs2)))).
  { assert (0 <= s1 * s1 / inject_Z (Z.of_nat (length (map ofQ qs1))))
      by (apply Qdiv_nonneg; [apply Qsq_nonneg | assumption]).
    assert (0 <= s2 * s2 / inject_Z (Z.of_nat (length (map ofQ qs2))))
      by (apply Qdiv_nonneg; [apply Qsq_nonneg | assumption]).
    lra. }
  rewrite Math_sqrt_fin by exact Hv.
  eexists. split; [reflexivity | apply sqrtQ_nonneg, Hv].
Qed.

Lemma tTest_tStatistic_ofQ (qs1 qs2 : list Q) :
  qs1 <> [] -> qs2 <> [] ->
  exists t : Q, tTest_tStatistic (map ofQ qs1) (map ofQ qs2) = Fin t.
Proof.
  intros H1 H2. unfold tTest_tStatistic, tTest_meanDiff.
  destruct (tTest_pooledSE_ofQ qs1 qs2 H1 H2) as [p [Hp Hp0]].
  destruct (mean_ofQ qs1) as [m1 Hm1]. destruct (mean_ofQ qs2) as [m2 Hm2].
  rewrite Hp, Hm1, Hm2. cbv zeta. cbn [eqb].
  destruct (Qeq_bool p 0) eqn:E; [eexists; reflexivity|].
  qbool. unfold sub. cbn [neg add]. rewrite div_fin by exact E.
  eexists; reflexivity.
Qed.

(** On one sample taken twice the statistic is zero. *)
Lemma tTest_tStatistic_same (qs : list Q) :
  qs <> [] ->
  exists t : Q,
    tTest_tStatistic (map ofQ qs) (map ofQ qs) = Fin t /\ t == 0.
Proof.
  intros H1. unfold tTest_tStatistic, tTest_meanDiff.
  destruct (tTest_pooledSE_ofQ qs qs H1 H1) as [p [Hp Hp0]].
  destruct (mean_ofQ qs) as [m Hm].
  rewrite Hp, Hm. cbv zeta. cbn [eqb].
  destruct (Qeq_bool p 0) eqn:E.
  - exists 0. split; reflexivity.
  - qbool. unfold sub. cbn [neg add]. rewrite div_fin by exact E.
    eexists. split; [reflexivity|]. field. exact E.
Qed.

Lemma tTest_nonempty (arr1 arr2 : list value) :
  filter valid arr1 <> [] -> filter valid arr2 <> [] ->
  tTest arr1 arr2
  = let filtered1 := filter valid arr1 in
    let filtered2 := filter valid arr2 in
    let absT := abs (tTest_tStatistic filtered1 filtered2) in
    {| TTest.tStatistic := toFixed 3 (tTest_tStatistic filtered1 filtered2);
       TTest.pValue :=
         PString (if (absT <? Fin 1.96)%num then ">0.05"%string
                  else if (absT <? Fin 2.58)%num then "<0.05"%string
                  else "<0.01"%string);
       TTest.meanDiff := toFixed 2 (tTest_meanDiff filtered1 filtered2);
       TTest.df := Some (tTest_df filtered1 filtered2) |}.
Proof.
  intros H1 H2. unfold tTest.
  destruct (filter valid arr1) as [|v1 l1]; [contradiction|].
  destruct (filter valid arr2) as [|v2 l2]; [contradiction|].
  reflexivity.
Qed.

(** The bucket chosen for a finite statistic. *)
Lemma pValue_buckets (t : Q) :
  let absT := abs (Fin t) in
  let pValue :=
    (if (absT <? Fin 1.96)%num then ">0.05"%string
     else if (absT <? Fin 2.58)%num then "<0.05"%string
     else "<0.01"%string) in
  (pValue = ">0.05"%string <-> Qabs t < 1.96)
  /\ (pValue = "<0.05"%string <-> 1.96 <= Qabs t < 2.58)
  /\ (pValue = "<0.01"%string <-> 2.58 <= Qabs t).
Proof.
  cbv zeta. cbn [abs ltb].
  destruct (Qlt_bool (Qabs t) 1.96) eqn:E1;
    [| destruct (Qlt_bool (Qabs t) 2.58) eqn:E2]; qbool;
    repeat split; intros; try discriminate; try reflexivity; try lra.
Qed.

Lemma toFixedQ_3_zero (t : Q) : t == 0 -> toFixedQ 3 t == 0.
Proof.
  intro Ht.
  assert (H0 : toFixedQ 3 0 == 0) by (vm_compute; reflexivity).
  assert (H1 : toFixedQ 3 t <= toFixedQ 3 0) by (apply toFixedQ_mono; lra).
  assert (H2 : toFixedQ 3 0 <= toFixedQ 3 t) by (apply toFixedQ_mono; lra).
  lra.
Qed.

Lemma PString_inj_iff (a b : string) (P : Prop) :
  (a = b <-> P) -> (PString a = PString b <-> P).
Proof.
  intros [H1 H2]. split.
  - intro E. injection E as E. auto.
  - intro HP. f_equal. auto.
Qed.

(** C3 (amended).  On samples of measurements of moderate magnitude
    that are non-empty after the filter, the Welch statistic [t] computed by [tTest] is finite and
    [pValue] is [">0.05"] exactly when [|t| < 1.96], ["<0.05"] exactly
    when [1.96 <= |t| < 2.58] and ["<0.01"] exactly when [|t| >= 2.58];
    on identical samples [tStatistic] is 0 and [pValue] is [">0.05"]. *)
Theorem tTest_three_buckets (arr1 arr2 : list value) :
  Forall moderate arr1 -> Forall moderate arr2 ->
  filter valid arr1 <> [] -> filter valid arr2 <> [] ->
  (exists t : Q,
     tTest_tStatistic (filter valid arr1) (filter valid arr2) = Fin t
     /\ TTest.tStatistic (tTest arr1 arr2) = toFixed 3 (Fin t)
     /\ (TTest.pValue (tTest arr1 arr2) = PString ">0.05"
         <-> Qabs t < 1.96)
     /\ (TTest.pValue (tTest arr1 arr2) = PString "<0.05"
         <-> 1.96 <= Qabs t < 2.58)
     /\ (TTest.pValue (tTest arr1 arr2) = PString "<0.01"
         <-> 2.58 <= Qabs t))
  /\ (arr1 = arr2 ->
      same (TTest.tStatistic (tTest arr1 arr2)) (Fin 0)
      /\ TTest.pValue (tTest arr1 arr2) = PString ">0.05").
Proof.
  intros Hm1 Hm2 Hne1 Hne2.
  apply moderate_measurement in Hm1. apply moderate_measurement in Hm2.
  rewrite (tTest_nonempty arr1 arr2 Hne1 Hne2). cbv zeta.
  cbn [TTest.tStatistic TTest.pValue].
  destruct (filter_valid_measurements arr1 Hm1) as [qs1 Hqs1].
  destruct (filter_valid_measurements arr2 Hm2) as [qs2 Hqs2].
  assert (Hq1 : qs1 <> []) by (intro E; subst qs1; apply Hne1; exact Hqs1).
  assert (Hq2 : qs2 <> []) by (intro E; subst qs2; apply Hne2; exact Hqs2).
  split.
  - rewrite Hqs1, Hqs2.
    destruct (tTest_tStatistic_ofQ qs1 qs2 Hq1 Hq2) as [t Ht].
    exists t. rewrite Ht.
    destruct (pValue_buckets t) as [B1 [B2 B3]].
    repeat split; try reflexivity;
      try (apply PString_inj_iff; assumption);
      try (apply (proj1 (PString_inj_iff _ _ _ B1)); assumption);
      try (apply (proj1 (PString_inj_iff _ _ _ B2)); assumption);
      try (apply (proj2 (PString_inj_iff _ _ _ B1)); assumption);
      try (apply (proj2 (PString_inj_iff _ _ _ B2)); assumption).
  - intro E. subst arr2. rewrite Hqs1.
    destruct (tTest_tStatistic_same qs1 Hq1) as [t [Ht Ht0]].
    rewrite Ht. split.
    + simpl. apply toFixedQ_3_zero, Ht0.
    + destruct (pValue_buckets t) as [B1 _].
      apply (PString_inj_iff _ _ _ B1).
      rewrite Ht0. reflexivity.
Qed.

(** C9.  When either array is empty after the filter, [tTest] returns
    exactly [{tStatistic: 0, pValue: 1, meanDiff: 0}]: [pValue] is the
    number 1 and there is no [df]; on every pair of arrays that are
    both non-empty after the filter, [pValue] is one of the three
    strings. *)
Theorem tTest_empty_input (arr1 arr2 : list value) :
  (filter valid arr1 = [] \/ filter valid arr2 = [] ->
   tTest arr1 arr2
   = {| TTest.tStatistic := Fin 0; TTest.pValue := PNumber (Fin 1);
        TTest.meanDiff := Fin 0; TTest.df := None |})
  /\ (filter valid arr1 <> [] -> filter valid arr2 <> [] ->
      TTest.pValue (tTest arr1 arr2) = PString ">0.05"
      \/ TTest.pValue (tTest arr1 arr2) = PString "<0.05"
      \/ TTest.pValue (tTest arr1 arr2) = PString "<0.01").
Proof.
  split.
  - intros [H | H]; unfold tTest; rewrite H; simpl;
      [| rewrite orb_true_r]; reflexivity.
  - intros H1 H2. rewrite (tTest_nonempty arr1 arr2 H1 H2). cbv zeta.
    cbn [TTest.pValue].
    destruct (_ <? Fin 1.96)%num; [| destruct (_ <? Fin 2.58)%num]; auto.
Qed.

End Stats.

(** ** Sorting and distinct elements *)

Section Sorting.
Context {A : Type} (cmp : A -> A -> Q).

Lemma insert_by_In (x y : A) (l : list A) :
  In y (insert_by cmp x l) <-> y = x \/ In y l.
Proof.
  induction l as [|z l IH]; simpl.
  - intuition.
  - destruct (Qle_bool (cmp x z) 0); simpl; [intuition|].
    rewrite IH. intuition.
Qed.

Lemma sort_by_In (y : A) (l : list A) : In y (sort_by cmp l) <-> In y l.
Proof.
  induction l as [|x l IH]; simpl; [tauto|].
  rewrite insert_by_In, IH. intuition.
Qed.

Lemma insert_by_count (f : A -> bool) (x : A) (l : list A) :
  length (filter f (insert_by cmp x l)) = length (filter f (x :: l)).
Proof.
  induction l as [|z l IH]; simpl; [reflexivity|].
  destruct (Qle_bool (cmp x z) 0); simpl; [reflexivity|].
  simpl in IH.
  destruct (f z), (f x); simpl in *; lia.
Qed.

Lemma sort_by_count (f : A -> bool) (l : list A) :
  length (filter f (sort_by cmp l)) = length (filter f l).
Proof.
  induction l as [|x l IH]; simpl; [reflexivity|].
  rewrite insert_by_count. simpl.
  destruct (f x); simpl; lia.
Qed.

Lemma sort_by_length (l : list A) : length (sort_by cmp l) = length l.
Proof.
  induction l as [|x l IH]; simpl; [reflexivity|].
  rewrite <- IH. clear IH.
  induction (sort_by cmp l) as [|z s IHs]; simpl; [reflexivity|].
  destruct (Qle_bool (cmp x z) 0); simpl; [reflexivity | now rewrite IHs].
Qed.

End Sorting.

Lemma StronglySorted_filter {A : Type} (R : A -> A -> Prop) (f : A -> bool)
  (l : list A) :
  StronglySorted R l -> StronglySorted R (filter f l).
Proof.
  induction 1 as [|x l Hs IH Hx]; simpl; [constructor|].
  destruct (f x); [|exact IH].
  constructor; [exact IH|].
  rewrite Forall_forall in *. intros y Hy.
  apply filter_In in Hy. apply Hx, Hy.
Qed.

Lemma set_of_In (x : Q) (l : list Q) : In x (set_of l) -> In x l.
Proof.
  induction l as [|a l IH]; simpl; [tauto|].
  intros [E | H]; [left; exact E|].
  right. apply IH. apply filter_In in H. apply H.
Qed.

Lemma set_of_covers (x : Q) (l : list Q) :
  In x l -> exists y, In y (set_of l) /\ y == x.
Proof.
  induction l as [|a l IH]; simpl; [tauto|].
  intros [E | H].
  - exists a. split; [left; reflexivity | subst; reflexivity].
  - destruct (IH H) as [y [Hy Hyx]].
    destruct (Qeq_bool a y) eqn:E.
    + exists a. split; [left; reflexivity|]. qbool. rewrite E. exact Hyx.
    + exists y. split; [|exact Hyx]. right.
      apply filter_In. split; [exact Hy | now rewrite E].
Qed.

Lemma set_of_distinct (l : list Q) :
  StronglySorted (fun a b => ~ a == b) (set_of l).
Proof.
  induction l as [|a l IH]; simpl; constructor.
  - apply StronglySorted_filter, IH.
  - apply Forall_forall. intros y Hy. apply filter_In in Hy.
    destruct Hy as [_ Hy]. apply negb_true_iff in Hy. qbool. exact Hy.
Qed.

Lemma insert_strict (x : Q) (l : list Q) :
  StronglySorted Qlt l -> Forall (fun y => ~ x == y) l ->
  StronglySorted Qlt (insert_by (fun a b => a - b) x l).
Proof.
  induction 1 as [|y l Hs IH Hy]; intro Hx; simpl.
  - constructor; constructor.
  - inversion Hx as [|? ? Hxy Hxl]; subst.
    destruct (Qle_bool (x - y) 0) eqn:E; qbool.
    + assert (Hlt : x < y).
      { destruct (Qlt_le_dec x y) as [Hl | Hl]; [exact Hl|].
        exfalso. apply Hxy. lra. }
      constructor; [constructor; assumption|].
      constructor; [exact Hlt|].
      rewrite Forall_forall in *. intros z Hz. specialize (Hy z Hz). lra.
    + constructor; [apply IH, Hxl|].
      apply Forall_forall. intros z Hz. apply insert_by_In in Hz.
      destruct Hz as [Hz | Hz]; [subst; lra|].
      rewrite Forall_forall in Hy. apply Hy, Hz.
Qed.

Lemma sort_strict (l : list Q) :
  StronglySorted (fun a b => ~ a == b) l ->
  StronglySorted Qlt (sort_by (fun a b => a - b) l).
Proof.
  induction 1 as [|x l Hs IH Hx]; simpl; [constructor|].
  apply insert_strict; [exact IH|].
  rewrite Forall_forall in *. intros y Hy. apply Hx.
  apply sort_by_In in Hy. exact Hy.
Qed.

(** ** The distinct times of a survival data set *)

Lemma uniqueTimes_sorted (l : list record) :
  StronglySorted Qlt (uniqueTimes l).
Proof.
  unfold uniqueTimes. apply sort_strict, set_of_distinct.
Qed.

Lemma uniqueTimes_In (l : list record) (t : Q) :
  In t (uniqueTimes l) -> exists d, In d l /\ time_months d = t.
Proof.
  unfold uniqueTimes. intro H.
  apply sort_by_In, set_of_In, in_map_iff in H.
  destruct H as [d [E Hd]]. exists d. split; assumption.
Qed.

Lemma uniqueTimes_covers (l : list record) (d : record) :
  In d l -> exists t, In t (uniqueTimes l) /\ t == time_months d.
Proof.
  intro Hd. unfold uniqueTimes.
  destruct (set_of_covers (time_months d) (map time_months l)) as [t [Ht E]].
  - apply in_map, Hd.
  - exists t. split; [apply sort_by_In, Ht | exact E].
Qed.

(** ** Counting events and subjects at risk *)

Lemma count_le {A : Type} (f g : A -> bool) (l : list A) :
  (forall x, g x = true -> f x = true) ->
  (length (filter g l) <= length (filter f l))%nat.
Proof.
  intro Hgf. induction l as [|x l IH]; simpl; [lia|].
  destruct (g x) eqn:G.
  - rewrite (Hgf x G). simpl. lia.
  - destruct (f x); simpl; lia.
Qed.

Lemma count_lt {A : Type} (f g : A -> bool) (l : list A) (x : A) :
  (forall x, g x = true -> f x = true) ->
  In x l -> f x = true -> g x = false ->
  (length (filter g l) < length (filter f l))%nat.
Proof.
  intros Hgf Hin Hf Hg. induction l as [|y l IH]; simpl; [contradiction|].
  destruct Hin as [E | Hin].
  - subst y. rewrite Hf, Hg. simpl.
    pose proof (count_le f g l Hgf). lia.
  - specialize (IH Hin). destruct (g y) eqn:G.
    + rewrite (Hgf y G). simpl. lia.
    + destruct (f y); simpl; lia.
Qed.

Lemma event_implies_atRisk (t : Q) (d : record) :
  Qeq_bool (time_months d) t && (event d =? 1)%Z = true ->
  Qle_bool t (time_months d) = true.
Proof.
  intro H. apply andb_true_iff in H. destruct H as [H _].
  qbool. apply Qle_bool_iff. lra.
Qed.

Lemma eventsAt_le_atRiskAt (l : list record) (t : Q) :
  (eventsAt l t <= atRiskAt l t)%nat.
Proof.
  unfold eventsAt, atRiskAt. apply count_le.
  intro d. apply event_implies_atRisk.
Qed.

(** While a later time is still to come, somebody remains at risk
    after the events at [t]. *)
Lemma eventsAt_lt_atRiskAt (l : list record) (t : Q) (d : record) :
  In d l -> t < time_months d -> (eventsAt l t < atRiskAt l t)%nat.
Proof.
  intros Hd Ht. unfold eventsAt, atRiskAt.
  apply count_lt with (x := d).
  - intro x. apply event_implies_atRisk.
  - exact Hd.
  - apply Qle_bool_iff. lra.
  - apply andb_false_iff. left. apply Qeq_bool_false. lra.
Qed.

Lemma atRiskAt_pos (l : list record) (d : record) :
  In d l -> (0 < atRiskAt l (time_months d))%nat.
Proof.
  intro Hd. unfold atRiskAt.
  assert (H : In d (filter (fun d0 => Qle_bool (time_months d) (time_months d0)) l)).
  { apply filter_In. split; [exact Hd|]. apply Qle_bool_iff. lra. }
  destruct (filter _ l); [contradiction | simpl; lia].
Qed.

Lemma atRiskAt_sorted (cmp : record -> record -> Q) (l : list record)
  (t : Q) : atRiskAt (sort_by cmp l) t = atRiskAt l t.
Proof. apply sort_by_count. Qed.

Lemma eventsAt_sorted (cmp : record -> record -> Q) (l : list record)
  (t : Q) : eventsAt (sort_by cmp l) t = eventsAt l t.
Proof. apply sort_by_count. Qed.

Lemma atRiskAt_proper (l : list record) (t t' : Q) :
  t == t' -> atRiskAt l t = atRiskAt l t'.
Proof.
  intro E. unfold atRiskAt. f_equal. apply filter_ext. intro d.
  destruct (Qle_bool t (time_months d)) eqn:E1;
    destruct (Qle_bool t' (time_months d)) eqn:E2; qbool;
    try reflexivity; exfalso; lra.
Qed.

Lemma eventsAt_proper (l : list record) (t t' : Q) :
  t == t' -> eventsAt l t = eventsAt l t'.
Proof.
  intro E. unfold eventsAt. f_equal. apply filter_ext. intro d.
  f_equal.
  destruct (Qeq_bool (time_months d) t) eqn:E1;
    destruct (Qeq_bool (time_months d) t') eqn:E2; qbool;
    try reflexivity; exfalso.
  - apply E2. lra.
  - apply E1. lra.
Qed.

(** ** The Kaplan-Meier loop *)

Section KaplanMeier.
Context {M : MathLib}.

Lemma surv_step (sq : Q) (e a : nat) :
  0 <= sq <= 1 -> (e <= a)%nat -> (0 < a)%nat ->
  exists sq' : Q,
    (Fin sq * (Fin 1 - cnt e / cnt a))%num = Fin sq' /\ 0 <= sq' <= sq.
Proof.
  intros Hs Hea Ha.
  pose proof (cnt_pos a Ha) as Hpa. pose proof (cnt_nonneg e) as Hpe.
  pose proof (cnt_le e a Hea) as Hle.
  unfold cnt. rewrite div_fin by lra.
  unfold sub. cbn [neg add mul].
  eexists. split; [reflexivity|].
  set (x := inject_Z (Z.of_nat e) / inject_Z (Z.of_nat a)).
  assert (Hx0 : 0 <= x) by (apply Qdiv_nonneg; assumption).
  assert (Hx1 : x <= 1) by (apply Qdiv_le_1; assumption).
  nra.
Qed.

Lemma gv_step (gq : Q) (e a : nat) :
  0 <= gq -> (e < a)%nat ->
  exists gq' : Q,
    (Fin gq + cnt e / (cnt a * (cnt a - cnt e)))%num = Fin gq' /\ 0 <= gq'.
Proof.
  intros Hg Hea. unfold cnt, sub. cbn [neg add mul].
  pose proof (cnt_nonneg e) as Hpe.
  assert (Hd : inject_Z (Z.of_nat e) < inject_Z (Z.of_nat a))
    by (rewrite <- Zlt_Qlt; lia).
  set (qa := inject_Z (Z.of_nat a)) in *.
  set (qe := inject_Z (Z.of_nat e)) in *.
  assert (Hden : 0 < qa * (qa + - qe)) by nra.
  rewrite div_fin by lra. cbn [add].
  eexists. split; [reflexivity|].
  assert (0 <= qe / (qa * (qa + - qe))) by (apply Qdiv_nonneg; assumption).
  lra.
Qed.

(** With a finite variance the clamped interval brackets the survival
    probability. *)
Lemma ci_bounds (sq gq : Q) :
  0 <= sq <= 1 -> 0 <= gq ->
  let se := (Fin sq * Math_sqrt (Fin gq))%num in
  exists l u : Q,
    max (Fin 0) (Fin sq - Fin 1.96 * se) = Fin l
    /\ min (Fin 1) (Fin sq + Fin 1.96 * se) = Fin u
    /\ 0 <= l <= sq /\ sq <= u <= 1.
Proof.
  intros Hs Hg. cbv zeta. rewrite Math_sqrt_fin by exact Hg.
  pose proof (sqrtQ_nonneg gq Hg) as Hrt.
  unfold sub. cbn [neg add mul max min leb].
  set (se := sq * sqrtQ gq).
  assert (Hse : 0 <= se) by (unfold se; nra).
  destruct (Qle_bool 0 (sq + - (1.96 * se))) eqn:E1;
    destruct (Qle_bool 1 (sq + 1.96 * se)) eqn:E2; qbool;
    do 2 eexists; (split; [reflexivity|]); (split; [reflexivity|]); lra.
Qed.

Lemma km_loop_survival (sorted : list record) (ts : list Q) :
  forall (sq : Q) (g : num),
    0 <= sq <= 1 ->
    Forall (fun p => within 0 sq (KM.survival p))
           (km_loop sorted ts (Fin sq) g)
    /\ StronglySorted survival_decreasing (km_loop sorted ts (Fin sq) g).
Proof.
  induction ts as [|t rest IH]; intros sq g Hs.
  - split; constructor.
  - cbn [km_loop].
    pose proof (eventsAt_le_atRiskAt sorted t) as Hea.
    destruct ((0 <? eventsAt sorted t)%nat && (0 <? atRiskAt sorted t)%nat)
      eqn:C.
    + apply andb_true_iff in C. destruct C as [_ Ca].
      apply Nat.ltb_lt in Ca.
      destruct (surv_step sq _ _ Hs Hea Ca) as [sq' [E Hs']].
      rewrite E.
      destruct (IH sq' (g + cnt (eventsAt sorted t)
                           / (cnt (atRiskAt sorted t)
                              * (cnt (atRiskAt sorted t)
                                 - cnt (eventsAt sorted t))))%num)
        as [IH1 IH2]; [lra|].
      split.
      * constructor; [simpl; lra|].
        eapply Forall_impl; [|exact IH1].
        intros p Hp. unfold within in *.
        destruct (KM.survival p); try contradiction. lra.
      * constructor; [exact IH2|].
        eapply Forall_impl; [|exact IH1].
        intros p Hp. unfold survival_decreasing, le, within in *.
        cbn [KM.survival].
        destruct (KM.survival p); try contradiction.
        simpl. apply Qle_bool_iff. lra.
    + destruct (IH sq g Hs) as [IH1 IH2].
      split.
      * constructor; [simpl; lra | exact IH1].
      * constructor; [exact IH2|].
        eapply Forall_impl; [|exact IH1].
        intros p Hp. unfold survival_decreasing, le, within in *.
        cbn [KM.survival].
        destruct (KM.survival p); try contradiction.
        simpl. apply Qle_bool_iff. lra.
Qed.

Lemma km_loop_ci (sorted : list record) (ts : list Q) :
  forall sq gq : Q,
    0 <= sq <= 1 -> 0 <= gq ->
    StronglySorted Qlt ts ->
    (forall t, In t ts -> exists d, In d sorted /\ time_months d = t) ->
    Forall (fun p => (0 < KM.atRisk p)%Z -> ci_ordered p)
           (km_loop sorted ts (Fin sq) (Fin gq)).
Proof.
  induction ts as [|t rest IH]; intros sq gq Hs Hg Hts Hin; [constructor|].
  apply StronglySorted_inv in Hts. destruct Hts as [Hrest Ht].
  assert (Hin' : forall t', In t' rest ->
                   exists d, In d sorted /\ time_months d = t')
    by (intros t' Ht'; apply Hin; right; exact Ht').
  assert (Hgood : forall sq' gq' lo up a e,
             0 <= sq' <= 1 -> 0 <= gq' ->
             lo = max (Fin 0)
                      (Fin sq' - Fin 1.96 * (Fin sq' * Math_sqrt (Fin gq')))%num ->
             up = min (Fin 1)
                      (Fin sq' + Fin 1.96 * (Fin sq' * Math_sqrt (Fin gq')))%num ->
             ci_ordered {| KM.time := Fin t; KM.survival := Fin sq';
                           KM.lower := lo; KM.upper := up;
                           KM.atRisk := a; KM.events := e |}).
  { intros sq' gq' lo up a e Hs' Hg' Elo Eup.
    destruct (ci_bounds sq' gq' Hs' Hg') as [l [u [El [Eu [Hl Hu]]]]].
    cbv zeta in El, Eu. rewrite El in Elo. rewrite Eu in Eup. subst lo up.
    unfold ci_ordered, le. simpl.
    repeat split; apply Qle_bool_iff; lra. }
  cbn [km_loop].
  pose proof (eventsAt_le_atRiskAt sorted t) as Hea.
  destruct ((0 <? eventsAt sorted t)%nat && (0 <? atRiskAt sorted t)%nat)
    eqn:C.
  - apply andb_true_iff in C. destruct C as [_ Ca].
    apply Nat.ltb_lt in Ca.
    destruct (surv_step sq _ _ Hs Hea Ca) as [sq' [E Hs']].
    rewrite E.
    destruct (Nat.lt_ge_cases (eventsAt sorted t) (atRiskAt sorted t))
      as [Hlt | Hge].
    + destruct (gv_step gq _ _ Hg Hlt) as [gq' [Eg Hg']].
      rewrite Eg. constructor.
      * intros _. eapply Hgood; try reflexivity; lra.
      * apply IH; try assumption. lra.
    + destruct rest as [|t' rest'].
      * constructor; [|constructor].
        cbn [KM.atRisk]. intro Hpos. exfalso. lia.
      * exfalso.
        destruct (Hin' t' (or_introl eq_refl)) as [d [Hd Hdt]].
        inversion Ht as [|? ? Htt' _]; subst.
        pose proof (eventsAt_lt_atRiskAt sorted t d Hd Htt'). lia.
  - constructor.
    + intros _. eapply Hgood; try reflexivity; lra.
    + apply IH; assumption.
Qed.

Lemma km_loop_point (sorted : list record) (ts : list Q) :
  forall (s g : num) (p : KM.point),
    In p (km_loop sorted ts s g) ->
    exists t,
      In t ts /\ KM.time p = Fin t
      /\ KM.atRisk p
         = (Z.of_nat (atRiskAt sorted t) - Z.of_nat (eventsAt sorted t))%Z
      /\ KM.events p = Z.of_nat (eventsAt sorted t).
Proof.
  induction ts as [|t rest IH]; intros s g p Hp; [contradiction|].
  cbn [km_loop] in Hp.
  destruct ((0 <? eventsAt sorted t)%nat && (0 <? atRiskAt sorted t)%nat);
    (destruct Hp as [Hp | Hp];
     [ exists t; subst p; simpl; auto
     | destruct (IH _ _ _ Hp) as [t' [Ht' Hf]];
       exists t'; split; [right; exact Ht' | exact Hf] ]).
Qed.

Lemma km_loop_has_point (sorted : list record) (ts : list Q) :
  forall (s g : num) (t : Q),
    In t ts ->
    exists p, In p (km_loop sorted ts s g) /\ KM.time p = Fin t.
Proof.
  induction ts as [|t0 rest IH]; intros s g t Ht; [contradiction|].
  cbn [km_loop].
  destruct ((0 <? eventsAt sorted t0)%nat && (0 <? atRiskAt sorted t0)%nat);
    (destruct Ht as [Ht | Ht];
     [ subst t0; eexists; split; [left; reflexivity | reflexivity]
     | edestruct IH as [p [Hp Hpt]]; [exact Ht|];
       exists p; split; [right; exact Hp | exact Hpt] ]).
Qed.

Lemma km_loop_times (sorted : list record) (ts : list Q) :
  forall s g : num, map KM.time (km_loop sorted ts s g) = map Fin ts.
Proof.
  induction ts as [|t rest IH]; intros s g; [reflexivity|].
  cbn [km_loop].
  destruct ((0 <? eventsAt sorted t)%nat && (0 <? atRiskAt sorted t)%nat);
    cbn [map KM.time]; rewrite IH; reflexivity.
Qed.

(** A list of points is ordered by time as its list of times is. *)
Lemma time_increasing_of_times (pts : list KM.point) (ts : list Q) :
  map KM.time pts = map Fin ts ->
  StronglySorted Qlt ts -> StronglySorted time_increasing pts.
Proof.
  revert ts. induction pts as [|p pts IH]; intros ts E Hs; [constructor|].
  destruct ts as [|t ts]; [discriminate|].
  simpl in E. injection E as Ep Epts.
  apply StronglySorted_inv in Hs. destruct Hs as [Hs Ht].
  constructor; [apply (IH ts); assumption|].
  apply Forall_forall. intros q Hq.
  assert (Hq' : In (KM.time q) (map Fin ts))
    by (rewrite <- Epts; apply in_map, Hq).
  apply in_map_iff in Hq'. destruct Hq' as [t' [Et' Ht']].
  rewrite Forall_forall in Ht. specialize (Ht t' Ht').
  unfold time_increasing, lt. rewrite Ep, <- Et'. simpl.
  apply Qlt_bool_iff. exact Ht.
Qed.

Lemma calculateKM_tl (data : list record) :
  tl (calculateKM data)
  = let sorted := sort_by (fun a b => time_months a - time_months b) data in
    km_loop sorted (uniqueTimes sorted) (Fin 1) (Fin 0).
Proof. reflexivity. Qed.

Lemma calculateKM_times_in_data (data : list record) (p : KM.point) :
  In p (tl (calculateKM data)) ->
  exists d, In d data /\ KM.time p = Fin (time_months d).
Proof.
  rewrite calculateKM_tl. cbv zeta. intro Hp.
  destruct (km_loop_point _ _ _ _ _ Hp) as [t [Ht [Et _]]].
  destruct (uniqueTimes_In _ _ Ht) as [d [Hd Edt]].
  exists d. split; [apply sort_by_In in Hd; exact Hd | congruence].
Qed.

(** C1 (amended).  For survival records with non-negative times,
    [calculateKM] returns a sequence that starts with the point
    (time 0, survival 1, lower 1, upper 1); the times after that first
    point are non-negative and strictly increasing, so the whole
    sequence is non-decreasing in time, and strictly increasing when
    every record has a positive time; the survival values lie in
    [0, 1] and are non-increasing along the sequence; and
    [0 <= lower <= survival <= upper <= 1] holds at every point whose
    [atRisk] field is positive. *)
Theorem calculateKM_curve (data : list record) :
  Forall (fun d => 0 <= time_months d) data ->
  exists rest : list KM.point,
    calculateKM data
    = {| KM.time := Fin 0; KM.survival := Fin 1; KM.lower := Fin 1;
         KM.upper := Fin 1; KM.atRisk := Z.of_nat (length data);
         KM.events := 0%Z |} :: rest
    /\ StronglySorted time_increasing rest
    /\ Forall (fun p => le (Fin 0) (KM.time p)) rest
    /\ (Forall (fun d => 0 < time_months d) data ->
        StronglySorted time_increasing (calculateKM data))
    /\ StronglySorted survival_decreasing (calculateKM data)
    /\ Forall (fun p => within 0 1 (KM.survival p)) (calculateKM data)
    /\ Forall (fun p => (0 < KM.atRisk p)%Z -> ci_ordered p)
              (calculateKM data).
Proof.
  intro Hnonneg.
  set (sorted := sort_by (fun a b => time_months a - time_months b) data).
  exists (km_loop sorted (uniqueTimes sorted) (Fin 1) (Fin 0)).
  assert (Hrest : tl (calculateKM data)
                  = km_loop sorted (uniqueTimes sorted) (Fin 1) (Fin 0))
    by reflexivity.
  assert (Htimes : StronglySorted time_increasing
                     (km_loop sorted (uniqueTimes sorted) (Fin 1) (Fin 0))).
  { apply time_increasing_of_times with (ts := uniqueTimes sorted).
    - apply km_loop_times.
    - apply uniqueTimes_sorted. }
  assert (Hone : 0 <= 1 <= 1) by lra.
  destruct (km_loop_survival sorted (uniqueTimes sorted) 1 (Fin 0) Hone)
    as [Hsurv Hdecr].
  unfold calculateKM. fold sorted.
  rewrite (sort_by_length _ data : length sorted = length data).
  split; [reflexivity|].
  split; [exact Htimes|].
  split.
  { apply Forall_forall. intros p Hp. rewrite <- Hrest in Hp.
    destruct (calculateKM_times_in_data data p Hp) as [d [Hd Et]].
    rewrite Et. unfold le. simpl. apply Qle_bool_iff.
    rewrite Forall_forall in Hnonneg. apply Hnonneg, Hd. }
  split.
  { intro Hpos. constructor; [exact Htimes|].
    apply Forall_forall. intros p Hp. rewrite <- Hrest in Hp.
    destruct (calculateKM_times_in_data data p Hp) as [d [Hd Et]].
    unfold time_increasing, lt. rewrite Et. simpl. apply Qlt_bool_iff.
    rewrite Forall_forall in Hpos. apply Hpos, Hd. }
  split.
  { constructor; [exact Hdecr|].
    eapply Forall_impl; [|exact Hsurv].
    intros p Hp. unfold survival_decreasing, le, within in *.
    cbn [KM.survival]. destruct (KM.survival p); try contradiction.
    simpl. apply Qle_bool_iff. lra. }
  split.
  { constructor; [simpl; lra | exact Hsurv]. }
  constructor.
  - intros _. unfold ci_ordered, le. simpl. auto.
  - apply km_loop_ci; try lra.
    + apply uniqueTimes_sorted.
    + apply uniqueTimes_In.
Qed.

(** C4 (amended).  For every record time [t] of the data, the loop of
    [calculateKM] pushes a point at time [t]; its [events] field is the
    number of records with time [t] and the event flag set, and its
    [atRisk] field is the number of records with time at least [t]
    minus that number of events (the subjects at risk after the events
    at [t]). *)
Theorem calculateKM_counts (data : list record) (d : record) :
  In d data ->
  (exists p, In p (tl (calculateKM data))
             /\ same (KM.time p) (Fin (time_months d)))
  /\ (forall p, In p (tl (calculateKM data)) ->
        same (KM.time p) (Fin (time_months d)) ->
        KM.atRisk p
        = (Z.of_nat (atRiskAt data (time_months d))
           - Z.of_nat (eventsAt data (time_months d)))%Z
        /\ KM.events p = Z.of_nat (eventsAt data (time_months d))).
Proof.
  intro Hd. rewrite calculateKM_tl. cbv zeta.
  set (sorted := sort_by (fun a b => time_months a - time_months b) data).
  split.
  - assert (Hd' : In d sorted) by (apply sort_by_In; exact Hd).
    destruct (uniqueTimes_covers sorted d Hd') as [t [Ht Et]].
    destruct (km_loop_has_point sorted _ (Fin 1) (Fin 0) t Ht)
      as [p [Hp Hpt]].
    exists p. split; [exact Hp|]. rewrite Hpt. simpl. exact Et.
  - intros p Hp Hsame.
    destruct (km_loop_point _ _ _ _ _ Hp) as [t [Ht [Et [Ea Ee]]]].
    rewrite Et in Hsame. simpl in Hsame.
    rewrite Ea, Ee. unfold sorted.
    rewrite atRiskAt_sorted, eventsAt_sorted.
    rewrite (atRiskAt_proper data _ _ Hsame).
    rewrite (eventsAt_proper data _ _ Hsame).
    split; reflexivity.
Qed.

End KaplanMeier.

(** ** Restricted mean survival time *)

Lemma calculateRMST_zero {M : MathLib} (data : list record) :
  same (calculateRMST (calculateKM data) (Fin 0)) (Fin 0).
Proof.
  unfold calculateKM, calculateRMST. cbn [rmst_loop KM.time KM.survival].
  vm_compute. reflexivity.
Qed.

(** C6.  The restriction time is reached inside the loop, which is
    left by [break] before [prevTime] is updated; the final rectangle
    is then added on top of the clipped trapezoid.  On the curve of two
    events at 10 and 20 months the result at restriction time 10 is
    17.5 and the result at restriction time 11 is 8.25: the value
    decreases as the restriction time grows. *)
Theorem calculateRMST_decreases :
  let curve :=
    @calculateKM approxMath
      [ {| time_months := 10; event := 1 |};
        {| time_months := 20; event := 1 |} ] in
  same (calculateRMST curve (Fin 10)) (Fin 17.5)
  /\ same (calculateRMST curve (Fin 11)) (Fin 8.25)
  /\ lt (calculateRMST curve (Fin 11)) (calculateRMST curve (Fin 10)).
Proof.
  vm_compute. repeat split.
Qed.

(** ** Hazard ratio *)

Section HazardRatio.
Context {M : MathLib}.

Lemma one_over_zero_plus (y : num) :
  y = PInf \/ (exists q, y = Fin q) ->
  (Fin 1 / cnt 0 + y)%num = PInf /\ (y + Fin 1 / cnt 0)%num = PInf.
Proof.
  intros [E | [q E]]; subst y; split; reflexivity.
Qed.

Lemma one_over_cnt (n : nat) :
  (Fin 1 / cnt n)%num = PInf \/ exists q, (Fin 1 / cnt n)%num = Fin q.
Proof.
  destruct n as [|n]; [left; reflexivity|].
  right. rewrite div_cnt by lia. eexists; reflexivity.
Qed.

Lemma rate_cases (e n : nat) :
  (e <= n)%nat ->
  (cnt e / cnt n)%num = NaN
  \/ exists q, (cnt e / cnt n)%num = Fin q
               /\ 0 <= q /\ ((0 < e)%nat -> 0 < q) /\ (e = 0%nat -> q == 0).
Proof.
  intro Hle. destruct n as [|n].
  - left. assert (e = 0%nat) by lia. subst e. reflexivity.
  - right. unfold cnt at 1. rewrite div_cnt by lia.
    eexists. split; [reflexivity|].
    pose proof (cnt_pos (S n) ltac:(lia)) as Hn.
    pose proof (cnt_nonneg e) as He.
    split; [apply Qdiv_nonneg; assumption|].
    split.
    + intro Hpos. pose proof (cnt_pos e Hpos).
      apply Qlt_shift_div_l; lra.
    + intro E. subst e. simpl. unfold Qdiv. ring.
Qed.

(** The hazard ratio when arm B has no event: infinite or undefined. *)
Lemma hr_zero_eventsB (rateA : num) (n : nat) :
  (exists q, rateA = Fin q /\ 0 <= q) \/ rateA = NaN ->
  (rateA / (cnt 0 / cnt n))%num = PInf \/ (rateA / (cnt 0 / cnt n))%num = NaN.
Proof.
  intro HA.
  destruct (rate_cases 0 n ltac:(lia)) as [E | [q [E [_ [_ Hq]]]]];
    rewrite E.
  - right. destruct rateA; reflexivity.
  - specialize (Hq eq_refl).
    destruct HA as [[a [Ea Ha]] | Ea]; subst rateA; [|right; reflexivity].
    simpl. apply Qeq_bool_iff in Hq. rewrite Hq.
    unfold sgn. destruct (Qeq_bool a 0) eqn:Z; [right; reflexivity|].
    apply Qle_bool_iff in Ha. rewrite Ha. left. reflexivity.
Qed.

(** The hazard ratio when arm A has no event: zero or undefined. *)
Lemma hr_zero_eventsA (rateB : num) (n : nat) :
  (exists q, rateB = Fin q /\ 0 <= q) \/ rateB = NaN ->
  (exists h, (cnt 0 / cnt n / rateB)%num = Fin h /\ h == 0)
  \/ (cnt 0 / cnt n / rateB)%num = NaN.
Proof.
  intro HB.
  destruct (rate_cases 0 n ltac:(lia)) as [E | [q [E [_ [_ Hq]]]]];
    rewrite E; [right; reflexivity|].
  specialize (Hq eq_refl).
  destruct HB as [[b [Eb Hb]] | Eb]; subst rateB; [|right; reflexivity].
  simpl. destruct (Qeq_bool b 0) eqn:Z.
  - right. unfold sgn. apply Qeq_bool_iff in Hq. rewrite Hq. reflexivity.
  - left. eexists. split; [reflexivity|]. qbool. rewrite Hq. field. exact Z.
Qed.

Lemma rate_shape (e n : nat) :
  (e <= n)%nat ->
  (exists q, (cnt e / cnt n)%num = Fin q /\ 0 <= q)
  \/ (cnt e / cnt n)%num = NaN.
Proof.
  intro H. destruct (rate_cases e n H) as [E | [q [E [Hq _]]]];
    [right; exact E | left; exists q; split; assumption].
Qed.

Lemma events_le_total (arm : list record) :
  (length (filter (fun d => (event d =? 1)%Z) arm) <= length arm)%nat.
Proof. apply filter_length_le. Qed.

(** C2 (amended).  [calculateHR] has no check for an arm without
    events and returns its usual record.  When arm A has no event,
    [ciUpper] is [NaN] and [hr] is 0 or [NaN]; when arm B has no event,
    [ciLower] is [NaN] and [hr] is [Infinity] or [NaN]. *)
Theorem calculateHR_zero_events (armA armB : list record) :
  (length (filter (fun d => (event d =? 1)%Z) armA) = 0%nat ->
   HR.ciUpper (calculateHR armA armB) = NaN
   /\ (HR.hr (calculateHR armA armB) = NaN
       \/ same (HR.hr (calculateHR armA armB)) (Fin 0)))
  /\ (length (filter (fun d => (event d =? 1)%Z) armB) = 0%nat ->
      HR.ciLower (calculateHR armA armB) = NaN
      /\ (HR.hr (calculateHR armA armB) = NaN
          \/ HR.hr (calculateHR armA armB) = PInf)).
Proof.
  unfold calculateHR. cbv zeta. cbn [HR.ciUpper HR.ciLower HR.hr].
  pose proof (events_le_total armA) as HleA.
  pose proof (events_le_total armB) as HleB.
  set (eA := length (filter _ armA)) in *.
  set (eB := length (filter _ armB)) in *.
  set (nA := length armA) in *. set (nB := length armB) in *.
  split; intro E; rewrite E in *.
  - destruct (one_over_zero_plus (Fin 1 / cnt eB)%num (one_over_cnt eB))
      as [Hse _].
    rewrite Hse. cbn [Math_sqrt].
    replace (Fin 1.96 * PInf)%num with PInf by reflexivity.
    cbn [Math_exp].
    destruct (hr_zero_eventsA (cnt eB / cnt nB)%num nA (rate_shape eB nB HleB))
      as [[h [Eh Hh]] | Eh]; rewrite Eh.
    + split; [| right; exact Hh].
      simpl. unfold sgn. apply Qeq_bool_iff in Hh. rewrite Hh. reflexivity.
    + split; [reflexivity | left; reflexivity].
  - destruct (one_over_zero_plus (Fin 1 / cnt eA)%num (one_over_cnt eA))
      as [_ Hse].
    rewrite Hse. cbn [Math_sqrt].
    replace (Fin (-1.96) * PInf)%num with NInf by reflexivity.
    cbn [Math_exp].
    destruct (hr_zero_eventsB (cnt eA / cnt nA)%num nB (rate_shape eA nA HleA))
      as [Eh | Eh]; rewrite Eh.
    + split; [reflexivity | right; reflexivity].
    + split; [reflexivity | left; reflexivity].
Qed.

End HazardRatio.

(** ** The ROC sweep *)

Lemma positives_cons (p : Patient.t) (l : list Patient.t) :
  positives (p :: l)
  = if isPositive p then S (positives l) else positives l.
Proof. unfold positives. simpl. destruct (isPositive p); reflexivity. Qed.





Lemma sortDescending_positives (data : list Patient.t) :
  positives (sortDescending data) = positives data.
Proof. apply sort_by_count. Qed.

Lemma sortDescending_negatives (data : list Patient.t) :
  negatives (sortDescending data) = negatives data.
Proof. apply sort_by_count. Qed.


Section Sweep.
Variables totalPos totalNeg : nat.
Hypothesis totalPos_pos : (0 < totalPos)%nat.
Hypothesis totalNeg_pos : (0 < totalNeg)%nat.

Let P : Q := inject_Z (Z.of_nat totalPos).
Let N : Q := inject_Z (Z.of_nat totalNeg).



Lemma tpr_fin (tp : nat) :
  (cnt tp / cnt totalPos)%num = Fin (inject_Z (Z.of_nat tp) / P).
Proof. unfold cnt at 1. apply div_cnt, totalPos_pos. Qed.

Lemma fpr_fin (fp : nat) :
  (cnt fp / cnt totalNeg)%num = Fin (inject_Z (Z.of_nat fp) / N).
Proof. unfold cnt at 1. apply div_cnt, totalNeg_pos. Qed.

Lemma rate_bounds (k n : nat) :
  (0 < n)%nat -> (k <= n)%nat ->
  0 <= inject_Z (Z.of_nat k) / inject_Z (Z.of_nat n) <= 1.
Proof.
  intros Hn Hk. pose proof (cnt_pos n Hn). pose proof (cnt_nonneg k).
  pose proof (cnt_le k n Hk).
  split; [apply Qdiv_nonneg | apply Qdiv_le_1]; assumption.
Qed.

Lemma rate_S (k n : nat) :
  (0 < n)%nat ->
  inject_Z (Z.of_nat (S k)) / inject_Z (Z.of_nat n)
  == inject_Z (Z.of_nat k) / inject_Z (Z.of_nat n)
     + 1 / inject_Z (Z.of_nat n).
Proof.
  intro Hn. pose proof (cnt_pos n Hn). rewrite cnt_S. field. lra.
Qed.



End Sweep.

(** ** Order on numbers *)

Ltac num_order :=
  unfold le, lt;
  repeat match goal with x : num |- _ => destruct x end;
  simpl; intros; try discriminate; try reflexivity;
  qbool; try apply Qle_bool_iff; try apply Qlt_bool_iff; lra.




Lemma num_lt_le (x y : num) : lt x y -> le x y.
Proof. num_order. Qed.


(** ** The point of largest Youden's J *)


(** ** A perfectly discriminating classifier *)


Lemma StronglySorted_weaken {A : Type} (R R' : A -> A -> Prop)
  (l : list A) :
  (forall a b, In a l -> In b l -> R a b -> R' a b) ->
  StronglySorted R l -> StronglySorted R' l.
Proof.
  intros HR Hs. induction Hs as [|x l Hs IH Hx]; [constructor|].
  constructor.
  - apply IH. intros a b Ha Hb. apply HR; right; assumption.
  - rewrite Forall_forall in *. intros y Hy.
    apply HR; [left; reflexivity | right; exact Hy | apply Hx, Hy].
Qed.




Section PerfectSweep.
Variables totalPos totalNeg : nat.
Hypothesis totalPos_pos : (0 < totalPos)%nat.
Hypothesis totalNeg_pos : (0 < totalNeg)%nat.

Let P : Q := inject_Z (Z.of_nat totalPos).
Let N : Q := inject_Z (Z.of_nat totalNeg).



End PerfectSweep.

(** ** [createROCCurve] *)

Lemma createROCCurve_fields (data : list Patient.t) :
  let sorted := sortDescending data in
  let sweep := roc_sweep sorted (positives sorted) (negatives sorted) 0 0 in
  let r := createROCCurve data in
  ROC.rocPoints r = roc_first :: sweep
  /\ ROC.auc r = auc_loop roc_first sweep (Fin 0)
  /\ ROC.maxJ r = fst (youden_loop (roc_first :: sweep) (Fin (-1)) roc_first)
  /\ ROC.optimalPoint r
     = snd (youden_loop (roc_first :: sweep) (Fin (-1)) roc_first).
Proof.
  cbv zeta. unfold createROCCurve, positives, negatives. cbv zeta.
  fold roc_first.
  destruct (youden_loop _ (Fin (-1)) roc_first) as [maxJ opt].
  repeat split.
Qed.



(** ** [createPRCurve] *)

Lemma pr_loop_ap_bounds (totalPos : nat) (l : list Patient.t) :
  (0 < totalPos)%nat ->
  forall (tp fp : nat) (r x : Q),
    (tp + positives l <= totalPos)%nat ->
    r == inject_Z (Z.of_nat tp) / inject_Z (Z.of_nat totalPos) ->
    exists y : Q,
      snd (pr_loop l totalPos tp fp (Fin r) (Fin x)) = Fin y
      /\ x <= y
         <= x + inject_Z (Z.of_nat (positives l))
                / inject_Z (Z.of_nat totalPos).
Proof.
  intro HPn. pose proof (cnt_pos totalPos HPn) as HP.
  set (P := inject_Z (Z.of_nat totalPos)) in *.
  induction l as [|p l IH]; intros tp fp r x Hinv Hr.
  - exists x. split; [reflexivity|].
    change (positives []) with 0%nat. simpl.
    unfold Qdiv. rewrite Qmult_0_l. lra.
  - cbn [pr_loop]. rewrite positives_cons in *.
    rewrite (tpr_fin totalPos HPn). fold P.
    destruct (isPositive p) eqn:Epos.
    + pose proof (rate_S tp totalPos HPn) as HS. fold P in HS.
      pose proof (rate_S (positives l) totalPos HPn) as HS'. fold P in HS'.
      assert (HP' : 0 < 1 / P) by (apply Qlt_shift_div_l; lra).
      unfold gtb. cbn [ltb].
      assert (C : Qlt_bool r (inject_Z (Z.of_nat (S tp)) / P) = true)
        by (apply Qlt_bool_iff; lra).
      rewrite C.
      unfold cnt. cbn [add].
      assert (Hden : 0 < inject_Z (Z.of_nat (S tp)) + inject_Z (Z.of_nat fp)).
      { pose proof (cnt_pos (S tp) ltac:(lia)). pose proof (cnt_nonneg fp).
        lra. }
      rewrite div_fin by lra.
      unfold sub. cbn [neg add mul].
      set (prec := inject_Z (Z.of_nat (S tp))
                   / (inject_Z (Z.of_nat (S tp)) + inject_Z (Z.of_nat fp))).
      assert (Hprec : 0 <= prec <= 1).
      { pose proof (cnt_nonneg (S tp)). pose proof (cnt_nonneg fp).
        unfold prec. split; [apply Qdiv_nonneg | apply Qdiv_le_1]; lra. }
      destruct (IH (S tp) fp (inject_Z (Z.of_nat (S tp)) / P)
                   (x + prec * (inject_Z (Z.of_nat (S tp)) / P + - r))
                   ltac:(lia) ltac:(reflexivity)) as [y [Ey Hy]].
      destruct (pr_loop l totalPos (S tp) fp _ _) as [pts ap'].
      cbn [snd] in *. exists y. split; [exact Ey|].
      set (d := inject_Z (Z.of_nat (S tp)) / P + - r) in *.
      assert (Hd : d == 1 / P) by (unfold d; lra).
      assert (Hpd : 0 <= prec * d <= 1 / P) by (rewrite Hd; nra).
      lra.
    + unfold gtb. cbn [ltb].
      assert (C : Qlt_bool r (inject_Z (Z.of_nat tp) / P) = false)
        by (apply Qlt_bool_false; lra).
      rewrite C.
      destruct (IH tp (S fp) r x ltac:(lia) Hr) as [y [Ey Hy]].
      destruct (pr_loop l totalPos tp (S fp) _ _) as [pts ap'].
      cbn [snd] in *. exists y. split; [exact Ey | lra].
Qed.

Lemma ltb_NaN_r (x : num) : (x <? NaN)%num = false.
Proof. destruct x; reflexivity. Qed.

(** Without positives the recall of every point is 0/0 and the
    accumulated [ap] is never changed. *)
Lemma pr_loop_no_positive (l : list Patient.t) :
  forall (fp : nat) (prevRecall ap : num),
    positives l = 0%nat ->
    snd (pr_loop l 0 0 fp prevRecall ap) = ap
    /\ length (fst (pr_loop l 0 0 fp prevRecall ap)) = length l
    /\ Forall (fun p => PR.recall p = NaN)
              (fst (pr_loop l 0 0 fp prevRecall ap)).
Proof.
  induction l as [|p l IH]; intros fp prev ap Hnone.
  - repeat split. constructor.
  - rewrite positives_cons in Hnone.
    destruct (isPositive p) eqn:Epos; [discriminate|].
    cbn [pr_loop]. rewrite Epos.
    change (cnt 0 / cnt 0)%num with NaN.
    unfold gtb. rewrite ltb_NaN_r.
    destruct (IH (S fp) prev ap Hnone) as [H1 [H2 H3]].
    destruct (pr_loop l 0 0 (S fp) prev ap) as [pts ap'].
    cbn [snd fst length] in *. repeat split; [exact H1 | now rewrite H2 |].
    constructor; [reflexivity | exact H3].
Qed.

Lemma createPRCurve_fields (data : list Patient.t) :
  let sorted := sortDescending data in
  let res := pr_loop sorted (positives sorted) 0 0 (Fin 0) (Fin 0) in
  PR.ap (createPRCurve data) = snd res
  /\ tl (PR.prPoints (createPRCurve data)) = fst res.
Proof.
  cbv zeta. unfold createPRCurve, positives. cbv zeta.
  destruct (pr_loop _ _ 0 0 (Fin 0) (Fin 0)) as [pts ap].
  split; reflexivity.
Qed.

(** C8 (amended).  With at least one positive patient the Average
    Precision accumulated by [createPRCurve] lies in [0, 1].  Without
    positives the division [tp / totalPos] is 0/0 and is not guarded:
    the recall of every point of the sweep is [NaN]; the test
    [recall > prevRecall] then never holds and the Average Precision
    is 0. *)
Theorem createPRCurve_ap (data : list Patient.t) :
  ((0 < positives data)%nat -> within 0 1 (PR.ap (createPRCurve data)))
  /\ (positives data = 0%nat ->
      PR.ap (createPRCurve data) = Fin 0
      /\ length (tl (PR.prPoints (createPRCurve data))) = length data
      /\ Forall (fun p => PR.recall p = NaN)
                (tl (PR.prPoints (createPRCurve data)))).
Proof.
  destruct (createPRCurve_fields data) as [Eap Epts]. cbv zeta in *.
  rewrite Eap, Epts. rewrite sortDescending_positives.
  split.
  - intro Hpos.
    destruct (pr_loop_ap_bounds (positives data) (sortDescending data) Hpos
                0 0 0 0) as [y [Ey Hy]].
    + rewrite sortDescending_positives. lia.
    + simpl. pose proof (cnt_pos _ Hpos). field. lra.
    + rewrite Ey. rewrite sortDescending_positives in Hy.
      assert (Hone : inject_Z (Z.of_nat (positives data))
                     / inject_Z (Z.of_nat (positives data)) == 1)
        by (pose proof (cnt_pos _ Hpos); field; lra).
      rewrite Hone in Hy. simpl. lra.
  - intro Hnone. rewrite Hnone.
    destruct (pr_loop_no_positive (sortDescending data) 0 (Fin 0) (Fin 0))
      as [H1 [H2 H3]].
    + rewrite sortDescending_positives. exact Hnone.
    + rewrite H1, H2.
      split; [reflexivity|]. split; [apply sort_by_length | exact H3].
Qed.

(** ** Trapezoids against rectangles *)

(** Each patient moves the sweep up or to the right, never both: on a
    step up the width is zero, on a step to the right both heights
    agree.  The two sums therefore agree step by step. *)
Lemma auc_loop_gauge_loop (totalPos totalNeg : nat) (l : list Patient.t) :
  (0 < totalPos)%nat -> (0 < totalNeg)%nat ->
  forall (tp fp : nat) (prev : ROC.point) (a a' b x x' : Q),
    ROC.fpr prev = Fin a ->
    a == inject_Z (Z.of_nat fp) / inject_Z (Z.of_nat totalNeg) ->
    a' == a ->
    ROC.tpr prev = Fin b ->
    b == inject_Z (Z.of_nat tp) / inject_Z (Z.of_nat totalPos) ->
    x == x' ->
    exists y y' : Q,
      auc_loop prev (roc_sweep l totalPos totalNeg tp fp) (Fin x) = Fin y
      /\ gauge_loop l totalPos totalNeg tp fp (Fin x') (Fin a') = Fin y'
      /\ y == y'.
Proof.
  intros HPn HNn.
  pose proof (cnt_pos totalPos HPn) as HP.
  pose proof (cnt_pos totalNeg HNn) as HN.
  set (P := inject_Z (Z.of_nat totalPos)) in *.
  set (N := inject_Z (Z.of_nat totalNeg)) in *.
  induction l as [|p l IH]; intros tp fp prev a a' b x x' Ea Ha Ha' Eb Hb Hx.
  - exists x, x'. repeat split. exact Hx.
  - cbn [roc_sweep auc_loop gauge_loop].
    rewrite (tpr_fin totalPos HPn), (fpr_fin totalNeg HNn). fold P N.
    cbn [ROC.fpr ROC.tpr]. rewrite Ea, Eb.
    unfold sub. cbn [neg add]. rewrite div_fin by lra. cbn [mul add].
    destruct (isPositive p) eqn:Epos.
    + match goal with
      | |- context [auc_loop ?pt _ (Fin ?z)] =>
        match goal with
        | |- context [gauge_loop _ _ _ _ _ (Fin ?z') (Fin ?c)] =>
            assert (Hz : z == z');
            [ | destruct (IH (S tp) fp pt (inject_Z (Z.of_nat fp) / N) c
                         (inject_Z (Z.of_nat (S tp)) / P) z z'
                         eq_refl ltac:(reflexivity) ltac:(reflexivity)
                         eq_refl ltac:(reflexivity) Hz)
                as [y [y' [Ey [Ey' Hy]]]] ]
        end
      end.
      { set (w := inject_Z (Z.of_nat fp) / N + - a).
        set (w' := inject_Z (Z.of_nat fp) / N + - a').
        assert (Hw : w == 0) by (unfold w; lra).
        assert (Hw' : w' == 0) by (unfold w'; lra).
        set (h := (inject_Z (Z.of_nat (S tp)) / P + b) / 2).
        set (k := inject_Z (Z.of_nat (S tp)) / P).
        assert (H1 : w * h == 0) by (rewrite Hw; ring).
        assert (H2 : k * w' == 0) by (rewrite Hw'; ring).
        lra. }
      exists y, y'. auto.
    + match goal with
      | |- context [auc_loop ?pt _ (Fin ?z)] =>
        match goal with
        | |- context [gauge_loop _ _ _ _ _ (Fin ?z') (Fin ?c)] =>
            assert (Hz : z == z');
            [ | destruct (IH tp (S fp) pt (inject_Z (Z.of_nat (S fp)) / N) c
                         (inject_Z (Z.of_nat tp) / P) z z'
                         eq_refl ltac:(reflexivity) ltac:(reflexivity)
                         eq_refl ltac:(reflexivity) Hz)
                as [y [y' [Ey [Ey' Hy]]]] ]
        end
      end.
      { set (k := inject_Z (Z.of_nat tp) / P) in *.
        set (f := inject_Z (Z.of_nat (S fp)) / N).
        assert (H1 : (f + - a) * ((k + b) / 2) == k * (f + - a'))
          by (rewrite Hb, Ha'; field).
        lra. }
      exists y, y'. auto.
Qed.

Lemma createDiagnosticGauges_auc (data : list Patient.t) (threshold : Q) :
  Gauges.auc (createDiagnosticGauges data threshold)
  = gauge_loop (sortDescending data) (positives data) (negatives data)
               0 0 (Fin 0) (Fin 0).
Proof. reflexivity. Qed.

(** The two AUC computations agree whenever both classes are present. *)
Lemma roc_auc_eq_gauge_auc (data : list Patient.t) (threshold : Q) :
  (0 < positives data)%nat -> (0 < negatives data)%nat ->
  exists y y' : Q,
    ROC.auc (createROCCurve data) = Fin y
    /\ Gauges.auc (createDiagnosticGauges data threshold) = Fin y'
    /\ y == y'.
Proof.
  intros Hpos Hneg.
  destruct (createROCCurve_fields data) as [_ [Eauc _]]. cbv zeta in Eauc.
  rewrite Eauc, createDiagnosticGauges_auc.
  rewrite sortDescending_positives, sortDescending_negatives.
  apply auc_loop_gauge_loop with (a := 0) (b := 0);
    try assumption; reflexivity.
Qed.

(** C10.  On a data set with at least one positive and one negative
    patient and pairwise distinct predicted scores, the trapezoidal AUC
    of [createROCCurve] and the rectangle-rule AUC of
    [createDiagnosticGauges] are the same finite number.  (The proof
    does not use the distinctness of the scores.) *)
Theorem roc_auc_agrees_with_gauge_auc (data : list Patient.t)
  (threshold : Q) :
  (0 < positives data)%nat -> (0 < negatives data)%nat ->
  distinct_scores data ->
  finite (ROC.auc (createROCCurve data))
  /\ same (ROC.auc (createROCCurve data))
          (Gauges.auc (createDiagnosticGauges data threshold)).
Proof.
  intros Hpos Hneg _.
  destruct (roc_auc_eq_gauge_auc data threshold Hpos Hneg)
    as [y [y' [Ey [Ey' Hy]]]].
  rewrite Ey, Ey'. split; [exact I | exact Hy].
Qed.

(** * Concrete instances *)

(** ** js/stats.js *)

Lemma sampleA_moderate : Forall moderate sampleA.
Proof. repeat constructor; vm_compute; discriminate. Defined.

Lemma sampleB_moderate : Forall moderate sampleB.
Proof. repeat constructor; vm_compute; discriminate. Defined.

Lemma sampleC_moderate : Forall moderate sampleC.
Proof. repeat constructor; vm_compute; discriminate. Defined.

Lemma confidenceInterval95_bounds_witness :
  Forall moderate sampleA /\ filter valid sampleA <> []
  /\ le (CI.lower (@confidenceInterval95 approxMath sampleA))
        (CI.mean (@confidenceInterval95 approxMath sampleA))
  /\ le (CI.mean (@confidenceInterval95 approxMath sampleA))
        (CI.upper (@confidenceInterval95 approxMath sampleA)).
Proof.
  assert (Hne : filter valid sampleA <> []) by (simpl; discriminate).
  split; [exact sampleA_moderate|]. split; [exact Hne|].
  exact (proj1 (@confidenceInterval95_bounds approxMath sampleA)
               sampleA_moderate Hne).
Defined.

(** C5 (as stated) fails.  The filter keeps [Infinity]: on
    [[Infinity, 1]] the mean is [Infinity], the deviation from it is
    [Infinity - Infinity], and the standard error and both bounds are
    [NaN]. *)
Lemma confidenceInterval95_claim_fails :
  filter valid [JNum PInf; ofQ 1] = [JNum PInf; ofQ 1]
  /\ @confidenceInterval95 approxMath [JNum PInf; ofQ 1]
     = {| CI.mean := PInf; CI.lower := NaN; CI.upper := NaN;
          CI.se := NaN |}.
Proof. split; vm_compute; reflexivity. Qed.

Lemma tTest_three_buckets_witness :
  Forall moderate sampleA /\ Forall moderate sampleC
  /\ filter valid sampleA <> [] /\ filter valid sampleC <> []
  /\ exists t : Q,
       @tTest_tStatistic approxMath (filter valid sampleA)
                                   (filter valid sampleC) = Fin t
       /\ TTest.tStatistic (@tTest approxMath sampleA sampleC)
          = toFixed 3 (Fin t)
       /\ TTest.pValue (@tTest approxMath sampleA sampleC) = PString "<0.01"
       /\ 2.58 <= Qabs t.
Proof.
  assert (HneA : filter valid sampleA <> []) by (simpl; discriminate).
  assert (HneC : filter valid sampleC <> []) by (simpl; discriminate).
  split; [exact sampleA_moderate|]. split; [exact sampleC_moderate|].
  split; [exact HneA|]. split; [exact HneC|].
  destruct (proj1 (@tTest_three_buckets approxMath sampleA sampleC
                     sampleA_moderate sampleC_moderate HneA HneC))
    as [t [Et [Er [_ [_ H3]]]]].
  assert (Ep : TTest.pValue (@tTest approxMath sampleA sampleC)
               = PString "<0.01") by (vm_compute; reflexivity).
  exists t. split; [exact Et|]. split; [exact Er|].
  split; [exact Ep | exact (proj1 H3 Ep)].
Defined.

(** C3 (as stated) fails.  The filter keeps [Infinity]: on the
    identical samples [[Infinity, 1]] the difference of the means is
    [Infinity - Infinity], the statistic is [NaN], every comparison
    with it is false and [pValue] is ["<0.01"]. *)
Lemma tTest_claim_fails :
  filter valid [JNum PInf; ofQ 1] = [JNum PInf; ofQ 1]
  /\ TTest.tStatistic
       (@tTest approxMath [JNum PInf; ofQ 1] [JNum PInf; ofQ 1]) = NaN
  /\ TTest.pValue
       (@tTest approxMath [JNum PInf; ofQ 1] [JNum PInf; ofQ 1])
     = PString "<0.01".
Proof. repeat split; vm_compute; reflexivity. Qed.

Lemma tTest_empty_input_witness :
  filter valid [JNull; JNum NaN] = []
  /\ @tTest approxMath [JNull; JNum NaN] sampleB
     = {| TTest.tStatistic := Fin 0; TTest.pValue := PNumber (Fin 1);
          TTest.meanDiff := Fin 0; TTest.df := None |}.
Proof.
  assert (He : filter valid [JNull; JNum NaN] = []) by reflexivity.
  split; [exact He|].
  exact (proj1 (@tTest_empty_input approxMath [JNull; JNum NaN] sampleB)
               (or_introl He)).
Defined.

(** ** Survival *)

Lemma calculateKM_curve_witness :
  Forall (fun d => 0 <= time_months d) scenario2
  /\ exists rest : list KM.point,
       @calculateKM approxMath scenario2
       = {| KM.time := Fin 0; KM.survival := Fin 1; KM.lower := Fin 1;
            KM.upper := Fin 1; KM.atRisk := 3%Z; KM.events := 0%Z |} :: rest
       /\ StronglySorted time_increasing rest
       /\ StronglySorted survival_decreasing (@calculateKM approxMath scenario2)
       /\ Forall (fun p => (0 < KM.atRisk p)%Z -> ci_ordered p)
                 (@calculateKM approxMath scenario2).
Proof.
  assert (H : Forall (fun d => 0 <= time_months d) scenario2)
    by (repeat constructor; simpl; lra).
  split; [exact H|].
  destruct (@calculateKM_curve approxMath scenario2 H)
    as [rest [E [H1 [_ [_ [H2 [_ H3]]]]]]].
  exists rest. repeat split; assumption.
Defined.

(** C1 (as stated) fails.  A record at time 0 repeats the time of the
    first point, and at the last time, where every subject still at
    risk has the event, [lower] and [upper] are [NaN]. *)
Lemma calculateKM_claim_fails :
  let curve :=
    @calculateKM approxMath
      [ {| time_months := 0; event := 0 |};
        {| time_months := 5; event := 1 |} ] in
  ~ StronglySorted time_increasing curve
  /\ ~ Forall ci_ordered curve
  /\ map KM.time curve = [Fin 0; Fin 0; Fin 5]
  /\ map KM.lower (tl (tl curve)) = [NaN]
  /\ map KM.upper (tl (tl curve)) = [NaN].
Proof.
  cbv zeta. split; [|split].
  - intro H. apply StronglySorted_inv in H. destruct H as [_ H].
    vm_compute in H. inversion H as [|? ? Hlt _]. discriminate Hlt.
  - intro H. vm_compute in H.
    inversion H as [|? ? _ Htl1]. inversion Htl1 as [|? ? _ Htl2].
    inversion Htl2 as [|? ? [Hlow _] _]. discriminate Hlow.
  - vm_compute. repeat split.
Qed.

Lemma calculateKM_counts_witness :
  In {| time_months := 5; event := 1 |} scenario2
  /\ forall p,
       In p (tl (@calculateKM approxMath scenario2)) ->
       same (KM.time p) (Fin 5) ->
       KM.atRisk p = 2%Z /\ KM.events p = 1%Z.
Proof.
  assert (H : In {| time_months := 5; event := 1 |} scenario2)
    by (left; reflexivity).
  split; [exact H|].
  exact (proj2 (@calculateKM_counts approxMath scenario2 _ H)).
Defined.

(** C4 (as stated) fails: three records have a time of at least 5, but
    the point at time 5 reports 2 at risk. *)
Lemma calculateKM_atRisk_claim_fails :
  ~ (forall p,
       In p (@calculateKM approxMath scenario2) ->
       same (KM.time p) (Fin 5) ->
       KM.atRisk p = Z.of_nat (atRiskAt scenario2 5)
       /\ KM.events p = Z.of_nat (eventsAt scenario2 5)).
Proof.
  intro H.
  specialize (H (nth 1 (@calculateKM approxMath scenario2)
                     {| KM.time := NaN; KM.survival := NaN; KM.lower := NaN;
                        KM.upper := NaN; KM.atRisk := 0; KM.events := 0 |})).
  vm_compute in H.
  destruct (H (or_intror (or_introl eq_refl)) eq_refl) as [H1 _].
  discriminate H1.
Qed.

(** ** Hazard ratio *)

Lemma calculateHR_zero_events_witness :
  length (filter (fun d => (event d =? 1)%Z)
                 [ {| time_months := 7; event := 0 |} ]) = 0%nat
  /\ HR.ciLower (@calculateHR approxMath
                   [ {| time_months := 12; event := 1 |} ]
                   [ {| time_months := 7; event := 0 |} ]) = NaN.
Proof.
  assert (H : length (filter (fun d => (event d =? 1)%Z)
                             [ {| time_months := 7; event := 0 |} ]) = 0%nat)
    by reflexivity.
  split; [exact H|].
  exact (proj1 (proj2 (@calculateHR_zero_events approxMath
                         [ {| time_months := 12; event := 1 |} ]
                         [ {| time_months := 7; event := 0 |} ]) H)).
Defined.

(** C2 (as stated) fails: with no event in arm B the record holds
    [Infinity] as hazard ratio and as upper bound and [NaN] as lower
    bound, and nothing else. *)
Lemma calculateHR_claim_fails :
  @calculateHR approxMath
    [ {| time_months := 12; event := 1 |} ]
    [ {| time_months := 7; event := 0 |} ]
  = {| HR.hr := PInf; HR.ciLower := NaN; HR.ciUpper := PInf;
       HR.nA := 1; HR.nB := 1 |}.
Proof. vm_compute. reflexivity. Qed.

(** ** Diagnostic accuracy *)


Lemma createPRCurve_ap_witness :
  (0 < positives mixedData)%nat
  /\ within 0 1 (PR.ap (createPRCurve mixedData)).
Proof.
  assert (Hp : (0 < positives mixedData)%nat) by (vm_compute; lia).
  split; [exact Hp|].
  exact (proj1 (createPRCurve_ap mixedData) Hp).
Defined.

(** C8 (as stated) fails: without positives the division
    [tp / totalPos] is 0/0, nothing guards it, and the recall of the
    point pushed for the patient is [NaN]. *)
Lemma createPRCurve_claim_fails :
  positives [patient "Negative" 0.8] = 0%nat
  /\ createPRCurve [patient "Negative" 0.8]
     = {| PR.prPoints :=
            [ {| PR.precision := Fin 1; PR.recall := Fin 0;
                 PR.threshold := Fin 1 |};
              {| PR.precision := Fin 0; PR.recall := NaN;
                 PR.threshold := Fin 0.8 |} ];
          PR.ap := Fin 0 |}
  /\ (cnt 0 / cnt (positives [patient "Negative" 0.8]))%num = NaN.
Proof. vm_compute. repeat split. Qed.

Lemma roc_auc_agrees_with_gauge_auc_witness :
  (0 < positives mixedData)%nat /\ (0 < negatives mixedData)%nat
  /\ distinct_scores mixedData
  /\ same (ROC.auc (createROCCurve mixedData))
          (Gauges.auc (createDiagnosticGauges mixedData 0.5)).
Proof.
  assert (Hp : (0 < positives mixedData)%nat) by (vm_compute; lia).
  assert (Hn : (0 < negatives mixedData)%nat) by (vm_compute; lia).
  assert (Hd : distinct_scores mixedData).
  { unfold distinct_scores, mixedData.
    repeat (constructor; [| repeat constructor; simpl; lra]).
    constructor. }
  repeat (split; [assumption|]).
  exact (proj2 (roc_auc_agrees_with_gauge_auc mixedData 0.5 Hp Hn Hd)).
Defined.

(** * Further properties *)

(** ** Means and standard deviations (js/stats.js) *)

Lemma sum_between (lo hi : Q) (qs : list Q) :
  (forall q, In q qs -> lo <= q <= hi) ->
  forall a : Q,
    a + inject_Z (Z.of_nat (length qs)) * lo <= fold_left Qplus qs a
    /\ fold_left Qplus qs a <= a + inject_Z (Z.of_nat (length qs)) * hi.
Proof.
  induction qs as [|q qs IH]; intros Hall a.
  - cbn [fold_left length]. change (inject_Z (Z.of_nat 0)) with 0.
    split; lra.
  - assert (Hq : lo <= q <= hi) by (apply Hall; left; reflexivity).
    assert (Hall' : forall q', In q' qs -> lo <= q' <= hi)
      by (intros q' Hq'; apply Hall; right; exact Hq').
    destruct (IH Hall' (a + q)) as [H1 H2].
    cbn [fold_left length]. rewrite cnt_S.
    set (n := inject_Z (Z.of_nat (length qs))) in *.
    assert (El : (n + 1) * lo == n * lo + lo) by ring.
    assert (Eh : (n + 1) * hi == n * hi + hi) by ring.
    rewrite El, Eh. split; lra.
Qed.

Lemma ofQ_In_filter (arr : list value) (qs : list Q) (q : Q) :
  filter valid arr = map ofQ qs -> In q qs -> In (ofQ q) arr.
Proof.
  intros E Hq.
  assert (H : In (ofQ q) (filter valid arr))
    by (rewrite E; apply in_map, Hq).
  apply filter_In in H. apply H.
Qed.

Lemma moderate_In (arr : list value) (q : Q) :
  Forall moderate arr -> In (ofQ q) arr -> - pow10 100 <= q <= pow10 100.
Proof.
  intros Hm Hq. rewrite Forall_forall in Hm. specialize (Hm _ Hq).
  simpl in Hm. apply Qabs_Qle_condition in Hm. exact Hm.
Qed.

(** The exact mean lies between any two bounds of the valid values. *)
Lemma mean_between (arr : list value) (lo hi : Q) :
  Forall measurement arr ->
  filter valid arr <> [] ->
  (forall q, In (ofQ q) arr -> lo <= q <= hi) ->
  within lo hi (mean arr).
Proof.
  intros Hm Hne Hall.
  destruct (filter_valid_measurements arr Hm) as [qs Hqs].
  unfold mean. rewrite Hqs.
  destruct (length (map ofQ qs) =? 0)%nat eqn:E.
  { apply Nat.eqb_eq in E. rewrite Hqs in Hne.
    destruct qs; [contradiction | discriminate]. }
  apply Nat.eqb_neq in E.
  rewrite sum_ofQ, div_cnt by lia.
  rewrite length_map in *.
  pose proof (cnt_pos (length qs) ltac:(lia)) as Hn.
  destruct (sum_between lo hi qs) with (a := 0) as [H1 H2].
  { intros q Hq. apply Hall. eapply ofQ_In_filter; eassumption. }
  simpl. split.
  + apply Qle_shift_div_l; [exact Hn | lra].
  + apply Qle_shift_div_r; [exact Hn | lra].
Qed.

(** X1.  With no valid value the mean is 0.  On a sample of measurements
    of moderate magnitude with a valid value the mean is a finite
    number; it is not negative when no value is negative and not
    positive when no value is positive. *)
Theorem mean_sign (arr : list value) :
  (filter valid arr = [] -> mean arr = Fin 0)
  /\ (Forall moderate arr -> filter valid arr <> [] ->
      finite (mean arr)
      /\ ((forall q, In (ofQ q) arr -> 0 <= q) -> le (Fin 0) (mean arr))
      /\ ((forall q, In (ofQ q) arr -> q <= 0) -> le (mean arr) (Fin 0))).
Proof.
  split.
  - intro E. unfold mean. rewrite E. reflexivity.
  - intros Hmod Hne.
    pose proof (moderate_measurement arr Hmod) as Hm.
    pose proof (mean_between arr (- pow10 100) (pow10 100) Hm Hne
                  (fun q Hq => moderate_In arr q Hmod Hq)) as Hfin.
    split; [destruct (mean arr); [exact I | contradiction..]|].
    split; intro Hsign.
    + assert (H : within 0 (pow10 100) (mean arr)).
      { apply (mean_between arr 0 (pow10 100) Hm Hne). intros q Hq.
        split; [apply Hsign, Hq | apply (moderate_In arr q Hmod Hq)]. }
      destruct (mean arr); try contradiction.
      unfold le. simpl in *. apply Qle_bool_iff. apply H.
    + assert (H : within (- pow10 100) 0 (mean arr)).
      { apply (mean_between arr (- pow10 100) 0 Hm Hne). intros q Hq.
        split; [apply (moderate_In arr q Hmod Hq) | apply Hsign, Hq]. }
      destruct (mean arr); try contradiction.
      unfold le. simpl in *. apply Qle_bool_iff. apply H.
Qed.

Lemma standardDeviation_filtered {M : MathLib} (arr : list value) :
  standardDeviation arr = standardDeviation (filter valid arr).
Proof.
  unfold standardDeviation. rewrite filter_valid_idem. reflexivity.
Qed.

(** X2.  On a sample of measurements of moderate magnitude the
    standard deviation is a finite, non-negative number; on every
    sample it is exactly 0 when at most one valid value is left. *)
Theorem standardDeviation_nonneg {M : MathLib} (arr : list value) :
  (Forall moderate arr ->
   exists s : Q, standardDeviation arr = Fin s /\ 0 <= s)
  /\ ((length (filter valid arr) <= 1)%nat ->
      standardDeviation arr = Fin 0).
Proof.
  split.
  - intro Hm. apply moderate_measurement in Hm.
    destruct (filter_valid_measurements arr Hm) as [qs Hqs].
    rewrite standardDeviation_filtered, Hqs.
    apply standardDeviation_ofQ.
  - intro Hle. unfold standardDeviation.
    apply Nat.leb_le in Hle. rewrite Hle. reflexivity.
Qed.

(** ** Medians (js/stats.js, js/data-loader.js) *)

Lemma sort_by_sorted {A : Type} (cmp : A -> A -> Q) (l : list A) :
  (forall a b, cmp a b <= 0 \/ cmp b a <= 0) ->
  (forall a b c, cmp a b <= 0 -> cmp b c <= 0 -> cmp a c <= 0) ->
  StronglySorted (fun a b => cmp a b <= 0) (sort_by cmp l).
Proof.
  intros Htotal Htrans. unfold sort_by.
  induction l as [|x l IH]; simpl; [constructor|].
  induction IH as [|y s Hs IHs Hy]; simpl.
  - constructor; constructor.
  - destruct (Qle_bool (cmp x y) 0) eqn:E.
    + apply Qle_bool_iff in E.
      constructor; [constructor; assumption|].
      constructor; [exact E|].
      rewrite Forall_forall in *. intros z Hz.
      apply Htrans with y; [exact E | apply Hy, Hz].
    + apply Qle_bool_false in E.
      constructor; [exact IHs|].
      apply Forall_forall. intros z Hz. apply insert_by_In in Hz.
      destruct Hz as [Hz | Hz].
      * subst z. destruct (Htotal x y) as [H | H]; [lra | exact H].
      * rewrite Forall_forall in Hy. apply Hy, Hz.
Qed.

Lemma sort_by_map {A B : Type} (f : A -> B) (cmpA : A -> A -> Q)
  (cmpB : B -> B -> Q) (l : list A) :
  (forall a b, cmpB (f a) (f b) = cmpA a b) ->
  sort_by cmpB (map f l) = map f (sort_by cmpA l).
Proof.
  intro Hcmp. unfold sort_by.
  induction l as [|x l IH]; simpl; [reflexivity|].
  rewrite IH. clear IH.
  induction (fold_right (insert_by cmpA) [] l) as [|y s IHs]; simpl;
    [reflexivity|].
  rewrite Hcmp. destruct (Qle_bool (cmpA x y) 0); simpl;
    [reflexivity | now rewrite IHs].
Qed.

Lemma numeric_order_ofQ (a b : Q) :
  numeric_order (ofQ a) (ofQ b) = ascending a b.
Proof. reflexivity. Qed.

Lemma sort_ascending_sorted (qs : list Q) :
  StronglySorted Qle (sort_by ascending qs).
Proof.
  apply StronglySorted_weaken
    with (R := fun a b => ascending a b <= 0).
  - intros a b _ _ H. unfold ascending in H. lra.
  - apply sort_by_sorted; unfold ascending; intros; lra.
Qed.

Lemma at_index_ofQ (s : list Q) (i : nat) :
  (i < length s)%nat ->
  toNumber (at_index (map ofQ s) i) = Fin (nth i s 0).
Proof.
  intro Hi. unfold at_index.
  rewrite (nth_indep (map ofQ s) JUndefined (ofQ 0))
    by (rewrite length_map; exact Hi).
  rewrite map_nth. reflexivity.
Qed.

Lemma sorted_nth_le (s : list Q) :
  StronglySorted Qle s ->
  forall i j, (i <= j)%nat -> (j < length s)%nat ->
    nth i s 0 <= nth j s 0.
Proof.
  induction 1 as [|x s Hs IH Hx]; intros i j Hij Hj; [simpl in Hj; lia|].
  destruct j as [|j].
  - assert (i = 0%nat) by lia. subst i. simpl. lra.
  - destruct i as [|i]; simpl in *.
    + rewrite Forall_forall in Hx. apply Hx, nth_In. lia.
    + apply IH; lia.
Qed.

(** In an ascending list, the entry at index [i] has at least [i + 1]
    entries that do not exceed it and at least [length - i] entries
    that it does not exceed. *)
Lemma sorted_count_at_most (s : list Q) :
  StronglySorted Qle s ->
  forall (i : nat) (m : Q),
    (i < length s)%nat -> nth i s 0 <= m ->
    (i + 1 <= length (filter (fun q => Qle_bool q m) s))%nat.
Proof.
  induction 1 as [|x s Hs IH Hx]; intros i m Hi Hm; [simpl in Hi; lia|].
  destruct i as [|i]; simpl in *.
  - apply Qle_bool_iff in Hm. rewrite Hm. simpl. lia.
  - assert (Hxm : x <= m).
    { rewrite Forall_forall in Hx.
      apply Qle_trans with (nth i s 0); [apply Hx, nth_In; lia | exact Hm]. }
    apply Qle_bool_iff in Hxm. rewrite Hxm. simpl.
    specialize (IH i m ltac:(lia) Hm). lia.
Qed.

Lemma sorted_count_at_least (s : list Q) :
  StronglySorted Qle s ->
  forall (i : nat) (m : Q),
    (i < length s)%nat -> m <= nth i s 0 ->
    (length s - i <= length (filter (fun q => Qle_bool m q) s))%nat.
Proof.
  induction 1 as [|x s Hs IH Hx]; intros i m Hi Hm; [simpl in Hi; lia|].
  destruct i as [|i]; simpl in *.
  - apply Qle_bool_iff in Hm. rewrite Hm. simpl.
    assert (Hall : length (filter (fun q => Qle_bool m q) s) = length s).
    { clear IH Hs Hi. induction s as [|y s IHs]; [reflexivity|].
      inversion Hx as [|? ? Hy Hrest]; subst. simpl.
      assert (Hmy : Qle_bool m y = true) by (apply Qle_bool_iff; qbool; lra).
      rewrite Hmy. simpl. now rewrite IHs. }
    lia.
  - specialize (IH i m ltac:(lia) Hm).
    destruct (Qle_bool m x); simpl; lia.
Qed.

(** The value [calculateMedian] returns on an ascending array of
    finite numbers. *)
Lemma calculateMedian_sorted (s : list Q) :
  StronglySorted Qle s -> s <> [] ->
  exists m : Q,
    calculateMedian (map ofQ s) = Fin m
    /\ (length s <= 2 * length (filter (fun q => Qle_bool q m) s))%nat
    /\ (length s <= 2 * length (filter (fun q => Qle_bool m q) s))%nat
    /\ nth 0 s 0 <= m <= nth (length s - 1) s 0.
Proof.
  intros Hs Hne. unfold calculateMedian. rewrite length_map.
  assert (Hn : (0 < length s)%nat) by (destruct s; [contradiction | simpl; lia]).
  destruct (length s =? 0)%nat eqn:E0; [apply Nat.eqb_eq in E0; lia|].
  clear E0. cbv zeta.
  pose proof (Nat.div_mod_eq (length s) 2) as Hdm.
  pose proof (Nat.mod_upper_bound (length s) 2 ltac:(lia)) as Hmod.
  set (mid := (length s / 2)%nat) in *.
  destruct (length s mod 2 =? 0)%nat eqn:Ev.
  - apply Nat.eqb_eq in Ev.
    assert (Hmid : (1 <= mid)%nat) by lia.
    rewrite !at_index_ofQ by lia.
    cbn [add]. rewrite div_fin by lra.
    set (a := nth (mid - 1) s 0). set (b := nth mid s 0).
    assert (Hab : a <= b) by (apply sorted_nth_le; [exact Hs | lia | lia]).
    assert (Hlo : nth 0 s 0 <= a) by (apply sorted_nth_le; [exact Hs | lia | lia]).
    assert (Hhi : b <= nth (length s - 1) s 0)
      by (apply sorted_nth_le; [exact Hs | lia | lia]).
    assert (Hm : a <= (a + b) / 2 <= b).
    { split; [apply Qle_shift_div_l | apply Qle_shift_div_r]; lra. }
    exists ((a + b) / 2). split; [reflexivity|].
    pose proof (sorted_count_at_most s Hs (mid - 1) ((a + b) / 2)
                  ltac:(lia) (proj1 Hm)).
    pose proof (sorted_count_at_least s Hs mid ((a + b) / 2)
                  ltac:(lia) (proj2 Hm)).
    repeat split; try lia; lra.
  - apply Nat.eqb_neq in Ev.
    rewrite at_index_ofQ by lia.
    set (m := nth mid s 0).
    assert (Hlo : nth 0 s 0 <= m) by (apply sorted_nth_le; [exact Hs | lia | lia]).
    assert (Hhi : m <= nth (length s - 1) s 0)
      by (apply sorted_nth_le; [exact Hs | lia | lia]).
    exists m. split; [reflexivity|].
    pose proof (sorted_count_at_most s Hs mid m ltac:(lia) ltac:(unfold m; lra)).
    pose proof (sorted_count_at_least s Hs mid m ltac:(lia) ltac:(unfold m; lra)).
    repeat split; try lia; lra.
Qed.

Lemma count_at_most_ofQ (qs : list Q) (m : Q) :
  count_at_most (map ofQ qs) (Fin m)
  = length (filter (fun q => Qle_bool q m) qs).
Proof.
  unfold count_at_most. rewrite filter_valid_ofQ.
  induction qs as [|q qs IH]; simpl; [reflexivity|].
  destruct (Qle_bool q m); simpl; now rewrite IH.
Qed.

Lemma count_at_least_ofQ (qs : list Q) (m : Q) :
  count_at_least (map ofQ qs) (Fin m)
  = length (filter (fun q => Qle_bool m q) qs).
Proof.
  unfold count_at_least. rewrite filter_valid_ofQ.
  induction qs as [|q qs IH]; [reflexivity|].
  cbn [map filter].
  change (leb (Fin m) (toNumber (ofQ q))) with (Qle_bool m q).
  destruct (Qle_bool m q); cbn [length]; now rewrite IH.
Qed.

Lemma count_at_most_filtered (arr : list value) (m : num) :
  count_at_most arr m = count_at_most (filter valid arr) m.
Proof. unfold count_at_most. now rewrite filter_valid_idem. Qed.

Lemma count_at_least_filtered (arr : list value) (m : num) :
  count_at_least arr m = count_at_least (filter valid arr) m.
Proof. unfold count_at_least. now rewrite filter_valid_idem. Qed.

(** X3.  On an ascending array of finite numbers of magnitude at most
    10^100, [calculateMedian] returns a number of at most that magnitude
    that splits the array: at least half of the entries are at most
    that number and at least half are at least that number.  On the
    empty array it returns 0. *)
Theorem calculateMedian_splits (s : list Q) :
  StronglySorted Qle s ->
  Forall (fun q => Qabs q <= pow10 100) s ->
  (s = [] -> calculateMedian (map ofQ s) = Fin 0)
  /\ (s <> [] ->
      within (- pow10 100) (pow10 100) (calculateMedian (map ofQ s))
      /\ (length s
          <= 2 * count_at_most (map ofQ s) (calculateMedian (map ofQ s)))%nat
      /\ (length s
          <= 2 * count_at_least (map ofQ s) (calculateMedian (map ofQ s)))%nat).
Proof.
  intros Hs Hmod. split.
  - intro E. subst s. reflexivity.
  - intro Hne.
    destruct (calculateMedian_sorted s Hs Hne) as [m [Em [H1 [H2 Hm]]]].
    rewrite Em, count_at_most_ofQ, count_at_least_ofQ.
    split; [|split; assumption].
    assert (Hn : (0 < length s)%nat)
      by (destruct s; [contradiction | simpl; lia]).
    rewrite Forall_forall in Hmod.
    pose proof (Hmod _ (nth_In s 0 Hn)) as Hlo.
    pose proof (Hmod _ (nth_In s 0 (Nat.sub_lt _ 1 Hn Nat.lt_0_1))) as Hhi.
    apply Qabs_Qle_condition in Hlo. apply Qabs_Qle_condition in Hhi.
    simpl. lra.
Qed.

Lemma median_calculateMedian (arr : list value) :
  median arr = calculateMedian (sort_by numeric_order (filter valid arr)).
Proof.
  unfold median, calculateMedian. rewrite sort_by_length. reflexivity.
Qed.

Lemma median_ofQ (arr : list value) (qs : list Q) :
  filter valid arr = map ofQ qs -> qs <> [] ->
  exists m : Q,
    median arr = Fin m
    /\ (length qs <= 2 * length (filter (fun q => Qle_bool q m) qs))%nat
    /\ (length qs <= 2 * length (filter (fun q => Qle_bool m q) qs))%nat
    /\ (exists a b, In a qs /\ In b qs /\ a <= m <= b).
Proof.
  intros Hqs Hne.
  rewrite median_calculateMedian, Hqs.
  rewrite (sort_by_map ofQ ascending numeric_order qs numeric_order_ofQ).
  set (s := sort_by ascending qs).
  assert (Hlen : length s = length qs) by apply sort_by_length.
  assert (Hs : s <> []).
  { intro E. rewrite E in Hlen. destruct qs; [contradiction | discriminate]. }
  destruct (calculateMedian_sorted s (sort_ascending_sorted qs) Hs)
    as [m [Em [H1 [H2 [H3 H4]]]]].
  exists m. split; [exact Em|].
  unfold s in H1, H2. rewrite !sort_by_count in H1, H2.
  rewrite sort_by_length in H1, H2.
  split; [exact H1|]. split; [exact H2|].
  assert (Hpos : (0 < length s)%nat) by (destruct s; [contradiction | simpl; lia]).
  assert (Hin : forall i, (i < length s)%nat -> In (nth i s 0) qs).
  { intros i Hi. apply (proj1 (sort_by_In ascending _ qs)).
    apply nth_In. exact Hi. }
  exists (nth 0 s 0), (nth (length s - 1) s 0).
  split; [apply Hin; lia|].
  split; [apply Hin; lia|].
  split; assumption.
Qed.

(** X4.  [median] sorts the valid values and reads the middle as
    [calculateMedian] does; with no valid value the median is 0.  On a
    sample of measurements of moderate magnitude the result is of at
    most that magnitude and splits the valid values: at least half of
    them are at most the median and at least half are at least the
    median. *)
Theorem median_splits_sample (arr : list value) :
  median arr = calculateMedian (sort_by numeric_order (filter valid arr))
  /\ (filter valid arr = [] -> median arr = Fin 0)
  /\ (Forall moderate arr -> filter valid arr <> [] ->
      within (- pow10 100) (pow10 100) (median arr)
      /\ (length (filter valid arr)
          <= 2 * count_at_most arr (median arr))%nat
      /\ (length (filter valid arr)
          <= 2 * count_at_least arr (median arr))%nat).
Proof.
  split; [apply median_calculateMedian|]. split.
  - intro E. unfold median. rewrite E. reflexivity.
  - intros Hmod Hne.
    pose proof (moderate_measurement arr Hmod) as Hm.
    destruct (filter_valid_measurements arr Hm) as [qs Hqs].
    assert (Hq : qs <> [])
      by (intro E; subst qs; apply Hne; exact Hqs).
    destruct (median_ofQ arr qs Hqs Hq)
      as [m [Em [H1 [H2 [a [b [Ha [Hb Hab]]]]]]]].
    rewrite Em, count_at_most_filtered, count_at_least_filtered, Hqs.
    rewrite count_at_most_ofQ, count_at_least_ofQ, length_map.
    split; [|split; assumption].
    pose proof (moderate_In arr a Hmod (ofQ_In_filter arr qs a Hqs Ha)).
    pose proof (moderate_In arr b Hmod (ofQ_In_filter arr qs b Hqs Hb)).
    simpl. lra.
Qed.

(** ** Difference of two means (js/stats.js) *)

Lemma toFixedQ_proper (d : nat) (a b : Q) :
  a == b -> toFixedQ d a == toFixedQ d b.
Proof.
  intro E.
  assert (H1 : toFixedQ d a <= toFixedQ d b) by (apply toFixedQ_mono; lra).
  assert (H2 : toFixedQ d b <= toFixedQ d a) by (apply toFixedQ_mono; lra).
  lra.
Qed.

Lemma nearest_proper (d : nat) (a b : Q) :
  a == b -> nearest d a == nearest d b.
Proof.
  intro E.
  assert (H1 : nearest d a <= nearest d b) by (apply nearest_mono; lra).
  assert (H2 : nearest d b <= nearest d a) by (apply nearest_mono; lra).
  lra.
Qed.

Lemma nearest_zero (d : nat) : nearest d 0 == 0.
Proof.
  pose proof (nearest_nonneg d 0 ltac:(lra)) as Hge.
  assert (Hle : nearest d 0 <= 0).
  { unfold nearest. pose proof (pow10_pos d) as Hs.
    apply Qle_shift_div_r; [exact Hs|].
    setoid_replace (0 * pow10 d) with 0 at 2 by ring.
    set (x := 0 * pow10 d + (1 # 2)).
    pose proof (Qfloor_le x) as Hf.
    assert (Hx : x == 1 # 2) by (unfold x; ring).
    destruct (Z.le_gt_cases (Qfloor x) 0) as [H | H].
    - rewrite Zle_Qle in H. exact H.
    - exfalso.
      assert (H1 : inject_Z 1 <= inject_Z (Qfloor x))
        by (rewrite <- Zle_Qle; lia).
      change (inject_Z 1) with 1 in H1. lra. }
  lra.
Qed.

(** Rounding to [d] decimals commutes with the change of sign. *)
Lemma toFixedQ_opp (d : nat) (q : Q) : toFixedQ d (- q) == - toFixedQ d q.
Proof.
  unfold toFixedQ.
  pose proof (Qabs_opp q) as Habs.
  destruct (Qle_bool (pow10 21) (Qabs (- q))) eqn:E1;
    destruct (Qle_bool (pow10 21) (Qabs q)) eqn:E2; qbool;
    try (exfalso; lra); [reflexivity|].
  destruct (Qle_bool 0 (- q)) eqn:S1; destruct (Qle_bool 0 q) eqn:S2; qbool.
  - assert (Hq : q == 0) by lra.
    rewrite (nearest_proper d (- q) 0) by lra.
    rewrite (nearest_proper d q 0) by lra.
    rewrite nearest_zero. reflexivity.
  - ring.
  - rewrite (nearest_proper d (- - q) q) by ring. reflexivity.
  - exfalso. lra.
Qed.

Section Difference.
Context {M : MathLib}.

Lemma calculateDifferenceCI_nonempty (arr1 arr2 : list value) :
  filter valid arr1 <> [] -> filter valid arr2 <> [] ->
  calculateDifferenceCI arr1 arr2
  = let filtered1 := filter valid arr1 in
    let filtered2 := filter valid arr2 in
    let meanDiff := (mean filtered1 - mean filtered2)%num in
    let se1 := (standardDeviation filtered1
                / Math_sqrt (cnt (length filtered1)))%num in
    let se2 := (standardDeviation filtered2
                / Math_sqrt (cnt (length filtered2)))%num in
    let pooledSE := Math_sqrt (se1 * se1 + se2 * se2)%num in
    let margin := (Fin 1.96 * pooledSE)%num in
    {| DiffCI.meanDiff := toFixed 2 meanDiff;
       DiffCI.lower := toFixed 2 (meanDiff - margin);
       DiffCI.upper := toFixed 2 (meanDiff + margin);
       DiffCI.se := toFixed 2 pooledSE |}.
Proof.
  intros H1 H2. unfold calculateDifferenceCI.
  destruct (filter valid arr1) as [|v1 l1]; [contradiction|].
  destruct (filter valid arr2) as [|v2 l2]; [contradiction|].
  reflexivity.
Qed.

Lemma standard_error_ofQ (qs : list Q) :
  qs <> [] ->
  exists e : Q,
    (standardDeviation (map ofQ qs)
     / Math_sqrt (cnt (length (map ofQ qs))))%num = Fin e
    /\ 0 <= e.
Proof.
  intro Hne.
  destruct (standardDeviation_ofQ qs) as [sd [Hsd Hsd0]].
  destruct (sqrt_cnt (length (map ofQ qs))) as [Hrt Hrt0].
  { destruct qs; [contradiction | simpl; lia]. }
  rewrite Hsd, Hrt. rewrite div_fin by lra.
  eexists. split; [reflexivity | apply Qdiv_nonneg; assumption].
Qed.

(** X5.  On two samples of measurements of moderate magnitude that are
    both non-empty after the filter, the rounded fields of
    [calculateDifferenceCI] satisfy [lower <= meanDiff <= upper]; when
    either sample has no valid value the result is
    [{meanDiff: 0, lower: 0, upper: 0, se: 0}], whatever the samples. *)
Theorem calculateDifferenceCI_bounds (arr1 arr2 : list value) :
  (Forall moderate arr1 -> Forall moderate arr2 ->
   filter valid arr1 <> [] -> filter valid arr2 <> [] ->
   le (DiffCI.lower (calculateDifferenceCI arr1 arr2))
      (DiffCI.meanDiff (calculateDifferenceCI arr1 arr2))
   /\ le (DiffCI.meanDiff (calculateDifferenceCI arr1 arr2))
         (DiffCI.upper (calculateDifferenceCI arr1 arr2)))
  /\ (filter valid arr1 = [] \/ filter valid arr2 = [] ->
      calculateDifferenceCI arr1 arr2
      = {| DiffCI.meanDiff := Fin 0; DiffCI.lower := Fin 0;
           DiffCI.upper := Fin 0; DiffCI.se := Fin 0 |}).
Proof.
  split.
  - intros Hm1 Hm2 Hne1 Hne2.
    apply moderate_measurement in Hm1. apply moderate_measurement in Hm2.
    rewrite (calculateDifferenceCI_nonempty arr1 arr2 Hne1 Hne2). cbv zeta.
    destruct (filter_valid_measurements arr1 Hm1) as [qs1 Hqs1].
    destruct (filter_valid_measurements arr2 Hm2) as [qs2 Hqs2].
    rewrite Hqs1, Hqs2 in *.
    assert (Hq1 : qs1 <> []) by (intro E; subst qs1; apply Hne1; reflexivity).
    assert (Hq2 : qs2 <> []) by (intro E; subst qs2; apply Hne2; reflexivity).
    destruct (mean_ofQ qs1) as [m1 E1]. destruct (mean_ofQ qs2) as [m2 E2].
    destruct (standard_error_ofQ qs1 Hq1) as [e1 [Ee1 He1]].
    destruct (standard_error_ofQ qs2 Hq2) as [e2 [Ee2 He2]].
    rewrite E1, E2, Ee1, Ee2. cbn [mul add].
    assert (Hv : 0 <= e1 * e1 + e2 * e2).
    { pose proof (Qsq_nonneg e1). pose proof (Qsq_nonneg e2). lra. }
    rewrite Math_sqrt_fin by exact Hv.
    pose proof (sqrtQ_nonneg _ Hv) as Hp.
    set (p := sqrtQ (e1 * e1 + e2 * e2)) in *.
    unfold sub.
    cbn [mul add neg DiffCI.lower DiffCI.meanDiff DiffCI.upper].
    split; apply toFixed_le; lra.
  - intros [E | E]; unfold calculateDifferenceCI; rewrite E; simpl;
      [| rewrite orb_true_r]; reflexivity.
Qed.

(** X6.  The difference of means that [calculateDifferenceCI] reports is
    the one that [tTest] reports on the same two arrays, whatever the
    arrays hold. *)
Theorem calculateDifferenceCI_meanDiff_tTest (arr1 arr2 : list value) :
  DiffCI.meanDiff (calculateDifferenceCI arr1 arr2)
  = TTest.meanDiff (tTest arr1 arr2).
Proof.
  unfold calculateDifferenceCI, tTest, tTest_meanDiff.
  destruct ((length (filter valid arr1) =? 0)%nat
            || (length (filter valid arr2) =? 0)%nat); reflexivity.
Qed.

(** X7.  Exchanging the two samples changes the sign of the reported
    difference of means. *)
Theorem calculateDifferenceCI_swap (arr1 arr2 : list value) :
  Forall measurement arr1 -> Forall measurement arr2 ->
  same (DiffCI.meanDiff (calculateDifferenceCI arr2 arr1))
       (neg (DiffCI.meanDiff (calculateDifferenceCI arr1 arr2))).
Proof.
  intros Hm1 Hm2.
  destruct (filter_valid_measurements arr1 Hm1) as [qs1 Hqs1].
  destruct (filter_valid_measurements arr2 Hm2) as [qs2 Hqs2].
  unfold calculateDifferenceCI. rewrite Hqs1, Hqs2.
  destruct (length (map ofQ qs1) =? 0)%nat;
    destruct (length (map ofQ qs2) =? 0)%nat; cbn [orb DiffCI.meanDiff];
    try (simpl; reflexivity).
  destruct (mean_ofQ qs1) as [m1 E1]. destruct (mean_ofQ qs2) as [m2 E2].
  rewrite E1, E2. unfold sub. cbn [neg add toFixed same].
  rewrite <- toFixedQ_opp. apply toFixedQ_proper. ring.
Qed.

End Difference.

(** ** Objects read by key *)

Lemma own_get_set_same {V : Type} (o : object V) (k : string) (v : V) :
  own_get (own_set o k v) k = Some v.
Proof.
  induction o as [|[k' v'] o IH]; simpl.
  - now rewrite String.eqb_refl.
  - destruct (String.eqb k' k) eqn:E; simpl; rewrite E; [reflexivity | exact IH].
Qed.

Lemma own_get_set_other {V : Type} (o : object V) (k k' : string) (v : V) :
  k <> k' -> own_get (own_set o k v) k' = own_get o k'.
Proof.
  intro Hne. induction o as [|[k0 v0] o IH]; simpl.
  - destruct (String.eqb k k') eqn:E; [|reflexivity].
    apply String.eqb_eq in E. contradiction.
  - destruct (String.eqb k0 k) eqn:E; simpl.
    + apply String.eqb_eq in E. subst k0.
      destruct (String.eqb k k') eqn:E'; [|reflexivity].
      apply String.eqb_eq in E'. contradiction.
    + destruct (String.eqb k0 k'); [reflexivity | exact IH].
Qed.

Lemma own_get_absent {V : Type} (o : object V) (k : string) :
  ~ In k (map fst o) -> own_get o k = None.
Proof.
  induction o as [|[k' v'] o IH]; simpl; [reflexivity|].
  intro H. destruct (String.eqb k' k) eqn:E.
  - apply String.eqb_eq in E. exfalso. apply H. left. exact E.
  - apply IH. intro Hin. apply H. right. exact Hin.
Qed.

Lemma own_get_present {V : Type} (o : object V) (k : string) (v : V) :
  own_get o k = Some v -> In k (map fst o).
Proof.
  induction o as [|[k' v'] o IH]; simpl; [discriminate|].
  destruct (String.eqb k' k) eqn:E.
  - intros _. left. apply String.eqb_eq. exact E.
  - intro H. right. apply IH, H.
Qed.

Lemma own_set_keys {V : Type} (o : object V) (k : string) (v : V) :
  map fst (own_set o k v)
  = if in_dec string_dec k (map fst o) then map fst o else map fst o ++ [k].
Proof.
  induction o as [|[k' v'] o IH]; simpl; [reflexivity|].
  destruct (String.eqb k' k) eqn:E; simpl.
  - apply String.eqb_eq in E. subst k'.
    destruct (string_dec k k); [reflexivity | contradiction].
  - apply String.eqb_neq in E.
    destruct (string_dec k' k); [contradiction|].
    rewrite IH. destruct (in_dec string_dec k (map fst o)); reflexivity.
Qed.

Lemma own_set_NoDup {V : Type} (o : object V) (k : string) (v : V) :
  NoDup (map fst o) -> NoDup (map fst (own_set o k v)).
Proof.
  intro Hnd. rewrite own_set_keys.
  destruct (in_dec string_dec k (map fst o)) as [Hin | Hout]; [exact Hnd|].
  apply NoDup_app; [exact Hnd | repeat constructor; intros [] | ].
  intros x Hx [Hk | []]. subst x. contradiction.
Qed.

(** Writing one property per entry of an object with distinct keys. *)
Lemma own_get_rebuilt {V W : Type} (f : V -> W) (o : object V) :
  NoDup (map fst o) ->
  forall (start : object W) (k : string),
    own_get (fold_left (fun acc entry => own_set acc (fst entry) (f (snd entry)))
                       o start) k
    = match own_get o k with
      | Some v => Some (f v)
      | None => own_get start k
      end.
Proof.
  induction o as [|[k1 v1] o IH]; intros Hnd start k; [reflexivity|].
  simpl in Hnd. inversion Hnd as [|? ? Hout Hnd']; subst.
  cbn [fold_left fst snd own_get]. rewrite (IH Hnd').
  destruct (String.eqb k1 k) eqn:E.
  - apply String.eqb_eq in E. subst k1.
    rewrite (own_get_absent o k Hout). apply own_get_set_same.
  - apply String.eqb_neq in E.
    destruct (own_get o k); [reflexivity|].
    apply own_get_set_other, E.
Qed.

(** ** [groupBy] and [summarizeByGroup] (js/stats.js) *)

Section GroupProperties.
Context {A : Type}.
Variable inherited : string -> bool.
Variable key : A -> string.

Lemma joined_assoc (o : option (list A)) (l1 l2 : list A) :
  joined (joined o l1) l2 = joined o (l1 ++ l2).
Proof.
  destruct o as [items|]; destruct l1 as [|x l1]; destruct l2 as [|y l2];
    simpl; try reflexivity;
    try (now rewrite app_nil_r); try (now rewrite <- app_assoc).
Qed.

Lemma groupBy_step_get (groups : object (list A)) (item : A) :
  inherited (key item) = false ->
  exists groups',
    groupBy_step inherited key (Some groups) item = Some groups'
    /\ (NoDup (map fst groups) -> NoDup (map fst groups'))
    /\ forall k,
         own_get groups' k
         = joined (own_get groups k) (with_key key k [item]).
Proof.
  intro Hk. unfold groupBy_step, with_key. cbn [filter].
  destruct (own_get groups (key item)) as [items|] eqn:G.
  - eexists. split; [reflexivity|]. split; [apply own_set_NoDup|].
    intro k. destruct (String.eqb (key item) k) eqn:E.
    + apply String.eqb_eq in E. subst k.
      rewrite own_get_set_same, G. reflexivity.
    + apply String.eqb_neq in E. rewrite own_get_set_other by exact E.
      destruct (own_get groups k); simpl; [now rewrite app_nil_r | reflexivity].
  - rewrite Hk. eexists. split; [reflexivity|].
    split; [apply own_set_NoDup|].
    intro k. destruct (String.eqb (key item) k) eqn:E.
    + apply String.eqb_eq in E. subst k.
      rewrite own_get_set_same, G. reflexivity.
    + apply String.eqb_neq in E. rewrite own_get_set_other by exact E.
      destruct (own_get groups k); simpl; [now rewrite app_nil_r | reflexivity].
Qed.

Lemma groupBy_fold (arr : list A) :
  Forall (fun item => inherited (key item) = false) arr ->
  forall groups : object (list A),
    exists groups',
      fold_left (groupBy_step inherited key) arr (Some groups) = Some groups'
      /\ (NoDup (map fst groups) -> NoDup (map fst groups'))
      /\ forall k,
           own_get groups' k = joined (own_get groups k) (with_key key k arr).
Proof.
  induction 1 as [|item arr Hitem _ IH]; intro groups.
  - exists groups. split; [reflexivity|]. split; [auto|].
    intro k. destruct (own_get groups k); simpl;
      [now rewrite app_nil_r | reflexivity].
  - destruct (groupBy_step_get groups item Hitem) as [g1 [E1 [N1 G1]]].
    destruct (IH g1) as [g2 [E2 [N2 G2]]].
    exists g2. cbn [fold_left]. rewrite E1.
    split; [exact E2|]. split; [auto|].
    intro k. rewrite G2, G1, joined_assoc. f_equal.
    unfold with_key. cbn [filter].
    destruct (String.eqb (key item) k); reflexivity.
Qed.

Lemma groupBy_fold_thrown (arr : list A) :
  fold_left (groupBy_step inherited key) arr None = None.
Proof. induction arr as [|x arr IH]; [reflexivity | exact IH]. Qed.

Lemma groupBy_fold_throws (arr : list A) :
  Exists (fun item => inherited (key item) = true) arr ->
  forall groups : object (list A),
    (forall k, In k (map fst groups) -> inherited k = false) ->
    fold_left (groupBy_step inherited key) arr (Some groups) = None.
Proof.
  induction arr as [|item arr IH]; intros Hex groups Hkeys.
  - inversion Hex.
  - cbn [fold_left].
    destruct (inherited (key item)) eqn:Hk.
    + unfold groupBy_step.
      destruct (own_get groups (key item)) as [items|] eqn:G.
      * apply own_get_present in G. rewrite (Hkeys _ G) in Hk. discriminate.
      * rewrite Hk. apply groupBy_fold_thrown.
    + destruct (groupBy_step_get groups item Hk) as [g1 [E1 [_ G1]]].
      rewrite E1. apply IH.
      * inversion Hex as [? ? H | ? ? H]; subst; [congruence | exact H].
      * intros k Hin.
        destruct (in_dec string_dec k (map fst groups)) as [Hold | Hnew];
          [apply Hkeys, Hold|].
        assert (Hget : own_get g1 k <> None).
        { clear - Hin. induction g1 as [|[k' v'] g1 IHg]; [contradiction|].
          simpl in *. destruct (String.eqb k' k) eqn:E; [discriminate|].
          destruct Hin as [Hin | Hin];
            [apply String.eqb_neq in E; contradiction | apply IHg, Hin]. }
        rewrite G1, (own_get_absent groups k Hnew) in Hget.
        unfold with_key in Hget. cbn [filter] in Hget.
        destruct (String.eqb (key item) k) eqn:E;
          [| simpl in Hget; contradiction].
        apply String.eqb_eq in E. subst k. exact Hk.
Qed.

(** X8.  When no item has a key that objects inherit, [groupBy] returns an
    object whose property [k] is the array of the items with key [k],
    in their order in [arr], and which has no property for a key that
    no item has.  When some item has such a key, [groupBy] throws. *)
Theorem groupBy_groups (arr : list A) :
  (Forall (fun item => inherited (key item) = false) arr ->
   exists groups,
     groupBy inherited key arr = Some groups
     /\ forall k,
          own_get groups k
          = match with_key key k arr with
            | [] => None
            | items => Some items
            end)
  /\ (Exists (fun item => inherited (key item) = true) arr ->
      groupBy inherited key arr = None).
Proof.
  split.
  - intro Hall. destruct (groupBy_fold arr Hall []) as [g [E [_ G]]].
    exists g. split; [exact E|]. intro k. rewrite G. simpl.
    destruct (with_key key k arr); reflexivity.
  - intro Hex. apply groupBy_fold_throws; [exact Hex|].
    intros k [].
Qed.

End GroupProperties.

Lemma Math_min_fold (qs : list Q) :
  forall a : Q,
    exists r : Q,
      fold_left (fun m v => min m (toNumber v)) (map ofQ qs) (Fin a) = Fin r
      /\ r <= a /\ forall q, In q qs -> r <= q.
Proof.
  induction qs as [|q qs IH]; intro a.
  - exists a. split; [reflexivity|]. split; [lra | intros q []].
  - cbn [map fold_left toNumber ofQ min leb].
    destruct (Qle_bool a q) eqn:E; qbool.
    + destruct (IH a) as [r [Er [Ha Hall]]]. exists r.
      split; [exact Er|]. split; [exact Ha|].
      intros q' [Hq | Hq]; [subst; lra | apply Hall, Hq].
    + destruct (IH q) as [r [Er [Ha Hall]]]. exists r.
      split; [exact Er|]. split; [lra|].
      intros q' [Hq | Hq]; [subst; lra | apply Hall, Hq].
Qed.

Lemma Math_max_fold (qs : list Q) :
  forall a : Q,
    exists r : Q,
      fold_left (fun m v => max m (toNumber v)) (map ofQ qs) (Fin a) = Fin r
      /\ a <= r /\ forall q, In q qs -> q <= r.
Proof.
  induction qs as [|q qs IH]; intro a.
  - exists a. split; [reflexivity|]. split; [lra | intros q []].
  - cbn [map fold_left toNumber ofQ max leb].
    destruct (Qle_bool a q) eqn:E; qbool.
    + destruct (IH q) as [r [Er [Ha Hall]]]. exists r.
      split; [exact Er|]. split; [lra|].
      intros q' [Hq | Hq]; [subst; lra | apply Hall, Hq].
    + destruct (IH a) as [r [Er [Ha Hall]]]. exists r.
      split; [exact Er|]. split; [exact Ha|].
      intros q' [Hq | Hq]; [subst; lra | apply Hall, Hq].
Qed.

Lemma Math_min_ofQ (qs : list Q) :
  qs <> [] ->
  exists r : Q, Math_min (map ofQ qs) = Fin r /\ forall q, In q qs -> r <= q.
Proof.
  destruct qs as [|q0 qs]; [contradiction|]. intros _.
  unfold Math_min. cbn [map fold_left toNumber ofQ min leb].
  destruct (Math_min_fold qs q0) as [r [Er [Ha Hall]]].
  exists r. split; [exact Er|].
  intros q [Hq | Hq]; [subst; exact Ha | apply Hall, Hq].
Qed.

Lemma Math_max_ofQ (qs : list Q) :
  qs <> [] ->
  exists r : Q, Math_max (map ofQ qs) = Fin r /\ forall q, In q qs -> q <= r.
Proof.
  destruct qs as [|q0 qs]; [contradiction|]. intros _.
  unfold Math_max. cbn [map fold_left toNumber ofQ max leb].
  destruct (Math_max_fold qs q0) as [r [Er [Ha Hall]]].
  exists r. split; [exact Er|].
  intros q [Hq | Hq]; [subst; exact Ha | apply Hall, Hq].
Qed.

Section SummaryProperties.
Context {A : Type} {M : MathLib}.
Variable inherited : string -> bool.
Variable key : A -> string.
Variable valueOf : A -> value.

Lemma summarize_ordered (items : list A) :
  Forall (fun item => measurement (valueOf item)) items ->
  Summary.n (summarize valueOf items) = Z.of_nat (length items)
  /\ (filter valid (map valueOf items) <> [] ->
      le (Summary.ci_lower (summarize valueOf items))
         (Summary.mean (summarize valueOf items))
      /\ le (Summary.mean (summarize valueOf items))
            (Summary.ci_upper (summarize valueOf items))
      /\ le (Summary.min (summarize valueOf items))
            (Summary.median (summarize valueOf items))
      /\ le (Summary.median (summarize valueOf items))
            (Summary.max (summarize valueOf items)))
  /\ (filter valid (map valueOf items) = [] ->
      Summary.mean (summarize valueOf items) = Fin 0
      /\ Summary.ci_lower (summarize valueOf items) = Fin 0
      /\ Summary.ci_upper (summarize valueOf items) = Fin 0
      /\ Summary.min (summarize valueOf items) = Fin 0
      /\ Summary.max (summarize valueOf items) = Fin 0
      /\ same (Summary.median (summarize valueOf items)) (Fin 0)).
Proof.
  intro Hm. split; [reflexivity|].
  assert (Hm' : Forall measurement (map valueOf items))
    by (apply Forall_map; exact Hm).
  destruct (filter_valid_measurements _ Hm') as [qs Hqs].
  unfold summarize. cbv zeta. rewrite Hqs.
  cbn [Summary.ci_lower Summary.mean Summary.ci_upper Summary.min
       Summary.median Summary.max].
  split.
  - intro Hne.
    assert (Hq : qs <> []) by (intro E; subst qs; apply Hne; reflexivity).
    destruct (confidenceInterval95_ofQ qs Hq) as [H1 H2].
    split; [exact H1|]. split; [exact H2|].
    assert (Hlen : (0 <? length (map ofQ qs))%nat = true).
    { apply Nat.ltb_lt. destruct qs; [contradiction | simpl; lia]. }
    rewrite Hlen.
    destruct (median_ofQ (map ofQ qs) qs (filter_valid_ofQ qs) Hq)
      as [m [Em [_ [_ [a [b [Ha [Hb Hab]]]]]]]].
    destruct (Math_min_ofQ qs Hq) as [mn [Emn Hmn]].
    destruct (Math_max_ofQ qs Hq) as [mx [Emx Hmx]].
    rewrite Em, Emn, Emx.
    specialize (Hmn a Ha). specialize (Hmx b Hb).
    split; apply toFixed_le; lra.
  - intro E. destruct qs; [|discriminate].
    cbn [map length Nat.ltb Nat.leb].
    repeat split.
Qed.

Lemma with_key_measurement (data : list A) (k : string) :
  Forall (fun item => measurement (valueOf item)) data ->
  Forall (fun item => measurement (valueOf item)) (with_key key k data).
Proof.
  intro H. unfold with_key. rewrite Forall_forall in *.
  intros x Hx. apply filter_In in Hx. apply H, Hx.
Qed.

(** X9.  On at most 10000 items, none with a key that objects inherit
    and every value a measurement of moderate magnitude,
    [summarizeByGroup] returns an object with one summary per key that
    occurs.  (The values of a group are handed to [Math.min] and
    [Math.max] as arguments, whose number an engine limits; the model
    has no such limit.)  In the summary of key [k], [n] is the number
    of items with that key; when the group has a valid value,
    [ci_lower <= mean <= ci_upper] and [min <= median <= max]; when it
    has none, [mean], the interval, [min], [max] and [median] are 0. *)
Theorem summarizeByGroup_groups (data : list A) :
  (Z.of_nat (length data) <= 10000)%Z ->
  Forall (fun item => inherited (key item) = false) data ->
  Forall (fun item => moderate (valueOf item)) data ->
  exists summary,
    summarizeByGroup inherited key valueOf data = Some summary
    /\ (forall k, own_get summary k = None <-> with_key key k data = [])
    /\ forall k r,
         own_get summary k = Some r ->
         Summary.n r = Z.of_nat (length (with_key key k data))
         /\ (0 < Summary.n r)%Z
         /\ (filter valid (map valueOf (with_key key k data)) <> [] ->
             le (Summary.ci_lower r) (Summary.mean r)
             /\ le (Summary.mean r) (Summary.ci_upper r)
             /\ le (Summary.min r) (Summary.median r)
             /\ le (Summary.median r) (Summary.max r))
         /\ (filter valid (map valueOf (with_key key k data)) = [] ->
             Summary.mean r = Fin 0
             /\ Summary.ci_lower r = Fin 0
             /\ Summary.ci_upper r = Fin 0
             /\ Summary.min r = Fin 0
             /\ Summary.max r = Fin 0
             /\ same (Summary.median r) (Fin 0)).
Proof.
  intros _ Hkeys Hmod.
  assert (Hm : Forall (fun item => measurement (valueOf item)) data).
  { eapply Forall_impl; [|exact Hmod].
    cbv beta. intros item H.
    destruct (valueOf item) as [| | [q| | |]]; try exact I; exact H. }
  destruct (groupBy_fold inherited key data Hkeys []) as [g [Eg [Nd G]]].
  assert (Eg' : groupBy inherited key data = Some g) by exact Eg.
  unfold summarizeByGroup. rewrite Eg'.
  eexists. split; [reflexivity|].
  assert (Hget : forall k,
             own_get (fold_left
                        (fun summary entry =>
                           own_set summary (fst entry)
                                   (summarize valueOf (snd entry))) g []) k
             = match with_key key k data with
               | [] => None
               | items => Some (summarize valueOf items)
               end).
  { intro k. rewrite (own_get_rebuilt (summarize valueOf) g (Nd (NoDup_nil _))).
    rewrite G. simpl. destruct (with_key key k data); reflexivity. }
  split.
  - intro k. rewrite Hget.
    destruct (with_key key k data); split; intro H;
      try reflexivity; discriminate.
  - intros k r Hr. rewrite Hget in Hr.
    destruct (with_key key k data) as [|x items] eqn:E; [discriminate|].
    injection Hr as Hr. subst r.
    pose proof (with_key_measurement data k Hm) as Hmk. rewrite E in Hmk.
    destruct (summarize_ordered (x :: items) Hmk) as [Hn [H1 H2]].
    split; [exact Hn|]. split; [rewrite Hn; simpl; lia|].
    split; assumption.
Qed.

End SummaryProperties.

(** ** Hazard ratio with events in both arms *)

(** X10.  When both arms contain an event, the hazard ratio of [calculateHR]
    is the ratio of the two event rates and it and both bounds of its
    interval are finite and positive. *)
Theorem calculateHR_with_events {M : MathLib} (armA armB : list record) :
  (0 < length (filter (fun d => (event d =? 1)%Z) armA))%nat ->
  (0 < length (filter (fun d => (event d =? 1)%Z) armB))%nat ->
  exists h l u : Q,
    HR.hr (calculateHR armA armB) = Fin h
    /\ HR.ciLower (calculateHR armA armB) = Fin l
    /\ HR.ciUpper (calculateHR armA armB) = Fin u
    /\ 0 < h /\ 0 < l /\ 0 < u
    /\ h == (inject_Z (Z.of_nat (length (filter (fun d => (event d =? 1)%Z)
                                                armA)))
             / inject_Z (Z.of_nat (length armA)))
            / (inject_Z (Z.of_nat (length (filter (fun d => (event d =? 1)%Z)
                                                  armB)))
               / inject_Z (Z.of_nat (length armB))).
Proof.
  intros HA HB. unfold calculateHR. cbv zeta.
  cbn [HR.hr HR.ciLower HR.ciUpper].
  pose proof (events_le_total armA) as HleA.
  pose proof (events_le_total armB) as HleB.
  set (eA := length (filter _ armA)) in *.
  set (eB := length (filter _ armB)) in *.
  set (nA := length armA) in *. set (nB := length armB) in *.
  pose proof (cnt_pos eA HA) as HeA. pose proof (cnt_pos eB HB) as HeB.
  pose proof (cnt_pos nA ltac:(lia)) as HnA.
  pose proof (cnt_pos nB ltac:(lia)) as HnB.
  unfold cnt.
  set (qeA := inject_Z (Z.of_nat eA)) in *.
  set (qeB := inject_Z (Z.of_nat eB)) in *.
  set (qnA := inject_Z (Z.of_nat nA)) in *.
  set (qnB := inject_Z (Z.of_nat nB)) in *.
  assert (HrA : 0 < qeA / qnA) by (apply Qlt_shift_div_l; lra).
  assert (HrB : 0 < qeB / qnB) by (apply Qlt_shift_div_l; lra).
  rewrite (div_fin qeA qnA) by lra. rewrite (div_fin qeB qnB) by lra.
  rewrite (div_fin (qeA / qnA) (qeB / qnB)) by lra.
  rewrite (div_fin 1 qeA) by lra. rewrite (div_fin 1 qeB) by lra.
  cbn [add].
  assert (Hv : 0 <= 1 / qeA + 1 / qeB).
  { assert (0 < 1 / qeA) by (apply Qlt_shift_div_l; lra).
    assert (0 < 1 / qeB) by (apply Qlt_shift_div_l; lra). lra. }
  rewrite Math_sqrt_fin by exact Hv.
  cbn [mul Math_exp].
  set (se := sqrtQ (1 / qeA + 1 / qeB)).
  assert (Hh : 0 < qeA / qnA / (qeB / qnB)) by (apply Qlt_shift_div_l; lra).
  pose proof (expQ_pos (-1.96 * se)) as Hl.
  pose proof (expQ_pos (1.96 * se)) as Hu.
  do 3 eexists.
  split; [reflexivity|]. split; [reflexivity|]. split; [reflexivity|].
  split; [exact Hh|].
  split; [apply Qmult_lt_0_compat; assumption|].
  split; [apply Qmult_lt_0_compat; assumption | reflexivity].
Qed.

(** ** The shape of a Kaplan-Meier curve *)

Lemma calculateKM_survival_shape {M : MathLib} (data : list record) :
  StronglySorted survival_decreasing (calculateKM data)
  /\ Forall (fun p => within 0 1 (KM.survival p)) (calculateKM data).
Proof.
  unfold calculateKM. cbv zeta.
  set (sorted := sort_by _ data).
  assert (Hone : 0 <= 1 <= 1) by lra.
  destruct (km_loop_survival sorted (uniqueTimes sorted) 1 (Fin 0) Hone)
    as [Hsurv Hdecr].
  split.
  - constructor; [exact Hdecr|].
    eapply Forall_impl; [|exact Hsurv].
    intros p Hp. unfold survival_decreasing, le, within in *.
    cbn [KM.survival]. destruct (KM.survival p); try contradiction.
    simpl. apply Qle_bool_iff. lra.
  - constructor; [simpl; lra | exact Hsurv].
Qed.

Lemma calculateKM_time_shape {M : MathLib} (data : list record) :
  Forall (fun d => 0 <= time_months d) data ->
  Forall (fun p => exists t : Q,
              KM.time p = Fin t /\ 0 <= t
              /\ (t = 0 \/ exists d, In d data /\ time_months d = t))
         (calculateKM data)
  /\ StronglySorted time_ordered (calculateKM data).
Proof.
  intro Hnonneg.
  assert (Hrest : forall p, In p (tl (calculateKM data)) ->
            exists d, In d data /\ KM.time p = Fin (time_months d) /\
                      0 <= time_months d).
  { intros p Hp. destruct (calculateKM_times_in_data data p Hp) as [d [Hd Et]].
    exists d. split; [exact Hd|]. split; [exact Et|].
    rewrite Forall_forall in Hnonneg. apply Hnonneg, Hd. }
  assert (Hsorted : StronglySorted time_increasing (tl (calculateKM data))).
  { rewrite calculateKM_tl. cbv zeta.
    eapply time_increasing_of_times;
      [apply km_loop_times | apply uniqueTimes_sorted]. }
  unfold calculateKM in *. cbv zeta in *. cbn [tl] in *.
  set (rest := km_loop _ _ _ _) in *.
  split.
  - constructor.
    + exists 0. split; [reflexivity|]. split; [lra | left; reflexivity].
    + apply Forall_forall. intros p Hp.
      destruct (Hrest p Hp) as [d [Hd [Et Ht]]].
      exists (time_months d). split; [exact Et|]. split; [exact Ht|].
      right. exists d. split; [exact Hd | reflexivity].
  - constructor.
    + apply StronglySorted_weaken with (2 := Hsorted).
      intros a b _ _ H. apply num_lt_le. exact H.
    + apply Forall_forall. intros p Hp.
      destruct (Hrest p Hp) as [d [_ [Et Ht]]].
      unfold time_ordered, le. cbn [KM.time]. rewrite Et. simpl.
      apply Qle_bool_iff. exact Ht.
Qed.

(** ** Restricted mean beyond the data *)

Lemma rmst_loop_beyond (pts : list KM.point) :
  forall x pt ps : Q,
    0 <= ps <= 1 ->
    Forall (fun p => exists t : Q, KM.time p = Fin t /\ pt <= t) pts ->
    Forall (fun p => within 0 1 (KM.survival p)) pts ->
    StronglySorted time_ordered pts ->
    exists y lt ls : Q,
      0 <= ls <= 1 /\ pt <= lt /\ x <= y <= x + (lt - pt)
      /\ (lt = pt \/ exists p, In p pts /\ KM.time p = Fin lt)
      /\ forall T : Q,
           (forall p t, In p pts -> KM.time p = Fin t -> t < T) ->
           rmst_loop pts (Fin T) (Fin x) (Fin pt) (Fin ps)
           = (Fin y, Fin lt, Fin ls).
Proof.
  induction pts as [|p pts IH]; intros x pt ps Hps Htimes Hsurv Hsorted.
  - exists x, pt, ps. repeat split; try lra. left. reflexivity.
  - inversion Htimes as [|? ? [t [Et Ht]] Htimes']; subst.
    inversion Hsurv as [|? ? Hs Hsurv']; subst.
    apply StronglySorted_inv in Hsorted. destruct Hsorted as [Hsorted Hp].
    destruct (KM.survival p) as [s| | |] eqn:Es; try contradiction.
    simpl in Hs.
    assert (Htimes2 : Forall (fun q => exists t' : Q,
                                  KM.time q = Fin t' /\ t <= t') pts).
    { rewrite Forall_forall in *. intros q Hq.
      destruct (Htimes' q Hq) as [t' [Et' _]].
      exists t'. split; [exact Et'|].
      specialize (Hp q Hq). unfold time_ordered, le in Hp.
      rewrite Et, Et' in Hp. simpl in Hp. qbool. exact Hp. }
    destruct (IH (x + (t + - pt) * ((ps + s) / 2)) t s Hs Htimes2 Hsurv' Hsorted)
      as [y [lt [ls [Hls [Hlt [Hy [Hlast Hrun]]]]]]].
    exists y, lt, ls.
    assert (Havg : 0 <= (ps + s) / 2 <= 1).
    { split; [apply Qdiv_nonneg | apply Qle_shift_div_r]; lra. }
    assert (Harea : 0 <= (t + - pt) * ((ps + s) / 2) <= t - pt).
    { set (h := (ps + s) / 2) in *. set (a := t + - pt).
      assert (Ha : 0 <= a) by (unfold a; lra).
      assert (Ea : t - pt == a) by (unfold a; ring).
      rewrite Ea. split; nra. }
    split; [exact Hls|]. split; [lra|]. split; [lra|].
    split.
    + right. destruct Hlast as [E | [q [Hq Eq]]].
      * exists p. split; [left; reflexivity | subst lt; exact Et].
      * exists q. split; [right; exact Hq | exact Eq].
    + intros T HT.
      assert (HtT : t < T) by (apply (HT p t); [left; reflexivity | exact Et]).
      cbn [rmst_loop]. rewrite Et, Es.
      cbn [min leb].
      assert (C1 : Qle_bool t T = true) by (apply Qle_bool_iff; lra).
      rewrite C1. unfold geb. cbn [leb].
      assert (C2 : Qle_bool T t = false) by (apply Qle_bool_false; lra).
      rewrite C2. unfold sub. cbn [neg add].
      rewrite div_fin by lra. cbn [mul add].
      apply Hrun. intros q tq Hq Eq. apply (HT q tq); [right; exact Hq | exact Eq].
Qed.

(** Beyond the data the loop is never left early, and the result is the
    area [y] up to the last time [lt] plus the final rectangle. *)
Lemma calculateRMST_beyond {M : MathLib} (data : list record) (T1 : Q) :
  Forall (fun d => 0 <= time_months d) data ->
  Forall (fun d => time_months d < T1) data ->
  0 < T1 ->
  exists y lt ls : Q,
    0 <= ls <= 1 /\ 0 <= lt /\ lt < T1 /\ 0 <= y <= lt
    /\ forall T, T1 <= T ->
         calculateRMST (calculateKM data) (Fin T)
         = Fin (y + (T + - lt) * ls).
Proof.
  intros Hnonneg Hbefore HT1.
  destruct (calculateKM_time_shape data Hnonneg) as [Htimes Hsorted].
  destruct (calculateKM_survival_shape data) as [_ Hsurv].
  assert (Htimes0 : Forall (fun p => exists t : Q, KM.time p = Fin t /\ 0 <= t)
                           (calculateKM data)).
  { eapply Forall_impl; [|exact Htimes]. intros p [t [Et [Ht _]]].
    exists t. auto. }
  destruct (rmst_loop_beyond (calculateKM data) 0 0 1 ltac:(lra)
              Htimes0 Hsurv Hsorted)
    as [y [lt [ls [Hls [Hlt [Hy [Hlast Hrun]]]]]]].
  assert (Hall : forall T, T1 <= T ->
            forall p t, In p (calculateKM data) -> KM.time p = Fin t -> t < T).
  { intros T HT p t Hp Et. rewrite Forall_forall in Htimes.
    destruct (Htimes p Hp) as [t' [Et' [_ Hcase]]].
    rewrite Et in Et'. injection Et' as Et'. subst t'.
    destruct Hcase as [E | [d [Hd Ed]]]; [subst t; lra|].
    rewrite Forall_forall in Hbefore. specialize (Hbefore d Hd).
    subst t. lra. }
  assert (HltT : lt < T1).
  { destruct Hlast as [E | [p [Hp Ep]]]; [subst lt; lra|].
    apply (Hall T1 ltac:(lra) p lt Hp Ep). }
  exists y, lt, ls.
  split; [exact Hls|]. split; [exact Hlt|]. split; [exact HltT|].
  split; [lra|].
  intros T HT. unfold calculateRMST. rewrite (Hrun T (Hall T HT)).
  cbn [ltb].
  assert (C : Qlt_bool lt T = true) by (apply Qlt_bool_iff; lra).
  rewrite C. reflexivity.
Qed.

(** X11.  For a restriction time beyond every record time, the loop of
    [calculateRMST] is never left early: the result is not negative
    and it does not decrease when the restriction time grows. *)
Theorem calculateRMST_beyond_data {M : MathLib} (data : list record)
  (T1 T2 : Q) :
  Forall (fun d => 0 <= time_months d) data ->
  Forall (fun d => time_months d < T1) data ->
  0 < T1 -> T1 <= T2 ->
  le (Fin 0) (calculateRMST (calculateKM data) (Fin T1))
  /\ le (calculateRMST (calculateKM data) (Fin T1))
        (calculateRMST (calculateKM data) (Fin T2)).
Proof.
  intros Hnonneg Hbefore HT1 HT12.
  destruct (calculateRMST_beyond data T1 Hnonneg Hbefore HT1)
    as [y [lt [ls [Hls [Hlt [HltT [Hy Hval]]]]]]].
  rewrite (Hval T1 ltac:(lra)), (Hval T2 HT12).
  split; unfold le; simpl; apply Qle_bool_iff; nra.
Qed.

(** ** Landmark survival *)

Lemma leb_target_mono (x : num) (t1 t2 : Q) :
  t1 <= t2 -> leb x (Fin t1) = true -> leb x (Fin t2) = true.
Proof.
  intros H. destruct x; simpl; intro E; try discriminate; try reflexivity.
  qbool. apply Qle_bool_iff. lra.
Qed.

Lemma getSurvivalAtTime_loop_mono (pts : list KM.point) :
  forall sq : Q,
    0 <= sq ->
    StronglySorted survival_decreasing pts ->
    Forall (fun p => within 0 sq (KM.survival p)) pts ->
    forall t1 t2 : Q,
      t1 <= t2 ->
      exists r1 r2 : Q,
        getSurvivalAtTime_loop pts (Fin t1) (Fin sq) = Fin r1
        /\ getSurvivalAtTime_loop pts (Fin t2) (Fin sq) = Fin r2
        /\ 0 <= r2 <= r1 /\ r1 <= sq.
Proof.
  induction pts as [|p pts IH]; intros sq Hsq Hsorted Hsurv t1 t2 Ht.
  - exists sq, sq. repeat split; try reflexivity; lra.
  - apply StronglySorted_inv in Hsorted. destruct Hsorted as [Hsorted Hp].
    inversion Hsurv as [|? ? Hs Hsurv']; subst.
    destruct (KM.survival p) as [s| | |] eqn:Es; try contradiction.
    simpl in Hs.
    assert (Hbelow : Forall (fun q => within 0 s (KM.survival q)) pts).
    { rewrite Forall_forall in *. intros q Hq.
      specialize (Hp q Hq). specialize (Hsurv' q Hq).
      unfold survival_decreasing, le, within in *. rewrite Es in Hp.
      destruct (KM.survival q); try contradiction.
      simpl in Hp. qbool. lra. }
    cbn [getSurvivalAtTime_loop]. rewrite Es.
    destruct (leb (KM.time p) (Fin t1)) eqn:C1.
    + rewrite (leb_target_mono _ t1 t2 Ht C1).
      destruct (IH s ltac:(lra) Hsorted Hbelow t1 t2 Ht)
        as [r1 [r2 [E1 [E2 [H1 H2]]]]].
      exists r1, r2. repeat split; try assumption; lra.
    + destruct (leb (KM.time p) (Fin t2)) eqn:C2.
      * destruct (IH s ltac:(lra) Hsorted Hbelow t2 t2 ltac:(lra))
          as [r1 [r2 [E1 [E2 [H1 H2]]]]].
        exists sq, r2. repeat split; try assumption; try reflexivity; lra.
      * exists sq, sq. repeat split; try reflexivity; lra.
Qed.

(** X12.  The survival read off a Kaplan-Meier curve at a landmark time
    lies in [0, 1], and at a later landmark it is never higher than at
    an earlier one. *)
Theorem getSurvivalAtTime_decreasing {M : MathLib} (data : list record)
  (t1 t2 : Q) :
  t1 <= t2 ->
  within 0 1 (getSurvivalAtTime (calculateKM data) (Fin t1))
  /\ le (getSurvivalAtTime (calculateKM data) (Fin t2))
        (getSurvivalAtTime (calculateKM data) (Fin t1)).
Proof.
  intro Ht.
  destruct (calculateKM_survival_shape data) as [Hsorted Hsurv].
  destruct (getSurvivalAtTime_loop_mono (calculateKM data) 1 ltac:(lra)
              Hsorted Hsurv t1 t2 Ht) as [r1 [r2 [E1 [E2 [H1 H2]]]]].
  unfold getSurvivalAtTime. rewrite E1, E2.
  split; [simpl; lra|]. unfold le. simpl. apply Qle_bool_iff. lra.
Qed.

(** ** Median survival *)

Lemma findMedian_loop_bounds (pts : list KM.point) :
  forall previous : option KM.point,
    Forall (fun p => exists t : Q, KM.time p = Fin t /\ 0 <= t) pts ->
    StronglySorted time_ordered pts ->
    (forall q, previous = Some q ->
       exists tq : Q, KM.time q = Fin tq /\ 0 <= tq
                      /\ Forall (fun p => time_ordered q p) pts) ->
    forall m, findMedian_loop previous pts = Some m ->
      exists (mq : Q) (p : KM.point),
        m = Fin mq /\ 0 <= mq /\ In p pts /\ le (Fin mq) (KM.time p).
Proof.
  induction pts as [|p pts IH]; intros previous Htimes Hsorted Hprev m Hm;
    [discriminate|].
  inversion Htimes as [|? ? [t [Et Ht]] Htimes']; subst.
  apply StronglySorted_inv in Hsorted. destruct Hsorted as [Hsorted Hp].
  cbn [findMedian_loop] in Hm.
  destruct (KM.survival p <? Fin 0.5)%num.
  - injection Hm as Hm. subst m.
    destruct previous as [q|].
    + destruct (Hprev q eq_refl) as [tq [Eq [Htq Hq]]].
      inversion Hq as [|? ? Hqp _]; subst.
      unfold time_ordered, le in Hqp. rewrite Eq, Et in Hqp.
      simpl in Hqp. qbool.
      rewrite Eq, Et. cbn [add]. rewrite div_fin by lra.
      exists ((tq + t) / 2), p.
      split; [reflexivity|].
      split; [apply Qdiv_nonneg; lra|].
      split; [left; reflexivity|].
      rewrite Et. unfold le. simpl. apply Qle_bool_iff.
      apply Qle_shift_div_r; lra.
    + exists t, p. split; [exact Et|]. split; [exact Ht|].
      split; [left; reflexivity|].
      rewrite Et. unfold le. simpl. apply Qle_bool_iff. lra.
  - destruct (IH (Some p) Htimes' Hsorted) with (m := m)
      as [mq [p' [E [H0 [Hin Hle]]]]].
    + intros q Eq. injection Eq as Eq. subst q.
      exists t. split; [exact Et|]. split; [exact Ht | exact Hp].
    + exact Hm.
    + exists mq, p'. split; [exact E|]. split; [exact H0|].
      split; [right; exact Hin | exact Hle].
Qed.

(** The median is a time between 0 and the time of a point of the
    curve. *)
Lemma findMedian_curve_time {M : MathLib} (data : list record) :
  Forall (fun d => 0 <= time_months d) data ->
  exists (m : Q) (p : KM.point),
    findMedian (calculateKM data) = Some (Fin m)
    /\ 0 <= m /\ In p (calculateKM data) /\ le (Fin m) (KM.time p).
Proof.
  intro Hnonneg.
  destruct (calculateKM_time_shape data Hnonneg) as [Htimes Hsorted].
  assert (Htimes0 : Forall (fun p => exists t : Q, KM.time p = Fin t /\ 0 <= t)
                           (calculateKM data)).
  { eapply Forall_impl; [|exact Htimes]. intros p [t [Et [Ht _]]].
    exists t. auto. }
  unfold findMedian.
  destruct (findMedian_loop None (calculateKM data)) as [m|] eqn:E.
  - destruct (findMedian_loop_bounds (calculateKM data) None Htimes0 Hsorted)
      with (m := m) as [mq [p [Em [H0 [Hin Hle]]]]].
    + intros q Hq. discriminate.
    + exact E.
    + exists mq, p. subst m. auto.
  - destruct (nth_error (calculateKM data) (length (calculateKM data) - 1))
      as [p|] eqn:En.
    + apply nth_error_In in En. rewrite Forall_forall in Htimes0.
      destruct (Htimes0 p En) as [t [Et Ht]].
      exists t, p. rewrite Et.
      split; [reflexivity|]. split; [exact Ht|]. split; [exact En|].
      unfold le. simpl. apply Qle_bool_iff. lra.
    + exfalso. apply nth_error_None in En.
      unfold calculateKM in En. cbn [length] in En. lia.
Qed.

(** X13.  On the Kaplan-Meier curve of records with times between 0 and
    10^100, [findMedian] does not throw and returns a finite time that
    is at least 0 and at most the time of a point of the curve, hence
    at most the largest record time. *)
Theorem findMedian_within_curve {M : MathLib} (data : list record) :
  Forall (fun d => 0 <= time_months d) data ->
  Forall (fun d => time_months d <= pow10 100) data ->
  exists (m : Q) (p : KM.point),
    findMedian (calculateKM data) = Some (Fin m)
    /\ 0 <= m /\ m <= pow10 100
    /\ In p (calculateKM data) /\ le (Fin m) (KM.time p).
Proof.
  intros Hnonneg Hmod.
  destruct (findMedian_curve_time data Hnonneg) as [m [p [E [H0 [Hin Hle]]]]].
  exists m, p. split; [exact E|]. split; [exact H0|].
  split; [|split; assumption].
  destruct (calculateKM_time_shape data Hnonneg) as [Htimes _].
  rewrite Forall_forall in Htimes.
  destruct (Htimes p Hin) as [t [Et [_ Hcase]]].
  rewrite Et in Hle. unfold le in Hle. simpl in Hle. qbool.
  assert (Ht : t <= pow10 100).
  { destruct Hcase as [E0 | [d [Hd Ed]]].
    - subst t. vm_compute. discriminate.
    - rewrite Forall_forall in Hmod. rewrite <- Ed. apply Hmod, Hd. }
  lra.
Qed.

(** ** Cumulative events and numbers at risk *)

Lemma cumulative_loop_spec (events : list Q) :
  forall (index : nat) (times : list num) (counts : list Z),
    cumulative_loop events index times counts
    = (times ++ map Fin events,
       counts ++ map Z.of_nat (seq (S index) (length events))).
Proof.
  induction events as [|e events IH]; intros index times counts.
  - simpl. now rewrite !app_nil_r.
  - cbn [cumulative_loop]. rewrite IH. cbn [map length seq].
    rewrite <- !app_assoc. cbn [app].
    replace (Z.of_nat index + 1)%Z with (Z.of_nat (S index)) by lia.
    reflexivity.
Qed.

Lemma sorted_map_Fin (s : list Q) :
  StronglySorted Qle s -> StronglySorted le (map Fin s).
Proof.
  induction 1 as [|x s Hs IHs Hx]; [constructor|].
  cbn [map]. constructor; [exact IHs|].
  apply Forall_forall. intros y Hy. apply in_map_iff in Hy.
  destruct Hy as [q [Eq Hq]]. subst y.
  rewrite Forall_forall in Hx. unfold le. simpl.
  apply Qle_bool_iff. apply Hx, Hq.
Qed.

Lemma calculateCumulativeEvents_fields (armData : list record) :
  calculateCumulativeEvents armData
  = {| Cumulative.times := Fin 0 :: map Fin (eventTimes armData);
       Cumulative.counts :=
         map Z.of_nat (seq 0 (S (length (eventTimes armData))));
       Cumulative.totalEvents := Z.of_nat (length (eventTimes armData)) |}.
Proof.
  unfold calculateCumulativeEvents. cbv zeta.
  change (sort_by (fun a b => a - b)
            (map time_months (filter (fun d => (event d =? 1)%Z) armData)))
    with (eventTimes armData).
  rewrite cumulative_loop_spec. reflexivity.
Qed.

(** X14.  [calculateCumulativeEvents] builds a step curve: the counts are
    0, 1, ..., [totalEvents], where [totalEvents] is the number of
    records with the event flag set; there is one time per count,
    starting at 0; the later times are exactly the times of the events
    and, when no time is negative, the times never decrease. *)
Theorem calculateCumulativeEvents_curve (armData : list record) :
  let events := length (filter (fun d => (event d =? 1)%Z) armData) in
  Cumulative.totalEvents (calculateCumulativeEvents armData)
  = Z.of_nat events
  /\ Cumulative.counts (calculateCumulativeEvents armData)
     = map Z.of_nat (seq 0 (S events))
  /\ length (Cumulative.times (calculateCumulativeEvents armData))
     = S events
  /\ hd NaN (Cumulative.times (calculateCumulativeEvents armData)) = Fin 0
  /\ (forall t : Q,
        In (Fin t) (tl (Cumulative.times (calculateCumulativeEvents armData)))
        <-> exists d, In d armData /\ event d = 1%Z /\ time_months d = t)
  /\ (Forall (fun d => 0 <= time_months d) armData ->
      StronglySorted le
        (Cumulative.times (calculateCumulativeEvents armData))).
Proof.
  cbv zeta. rewrite calculateCumulativeEvents_fields.
  cbn [Cumulative.totalEvents Cumulative.counts Cumulative.times hd tl].
  assert (Hlen : length (eventTimes armData)
                 = length (filter (fun d => (event d =? 1)%Z) armData)).
  { unfold eventTimes. rewrite sort_by_length, length_map. reflexivity. }
  assert (Hin : forall t, In t (eventTimes armData)
                  <-> exists d, In d armData /\ event d = 1%Z
                                /\ time_months d = t).
  { intro t. unfold eventTimes. rewrite sort_by_In, in_map_iff.
    split.
    - intros [d [Ed Hd]]. apply filter_In in Hd. destruct Hd as [Hd Hev].
      exists d. apply Z.eqb_eq in Hev. auto.
    - intros [d [Hd [Hev Ed]]]. exists d. split; [exact Ed|].
      apply filter_In. split; [exact Hd | apply Z.eqb_eq, Hev]. }
  rewrite Hlen.
  split; [reflexivity|]. split; [reflexivity|].
  split; [cbn [length]; rewrite length_map, Hlen; reflexivity|].
  split; [reflexivity|].
  split.
  - intro t. rewrite <- Hin. rewrite in_map_iff. split.
    + intros [t' [E Ht']]. injection E as E. subst t'. exact Ht'.
    + intro Ht. exists t. split; [reflexivity | exact Ht].
  - intro Hnonneg. constructor.
    + pose proof (sort_ascending_sorted
                    (map time_months
                         (filter (fun d => (event d =? 1)%Z) armData)))
        as Hs.
      apply sorted_map_Fin. exact Hs.
    + apply Forall_forall. intros y Hy. apply in_map_iff in Hy.
      destruct Hy as [q [Eq Hq]]. subst y.
      apply Hin in Hq. destruct Hq as [d [Hd [_ Ed]]].
      rewrite Forall_forall in Hnonneg. specialize (Hnonneg d Hd).
      unfold le. simpl. apply Qle_bool_iff. subst q. exact Hnonneg.
Qed.

(** X15.  The number at risk never increases with time, and it is the size
    of the arm at any time that no record precedes. *)
Theorem countAtRisk_decreasing (arm : list record) (t1 t2 : Q) :
  (t1 <= t2 -> (countAtRisk arm t2 <= countAtRisk arm t1)%nat)
  /\ (Forall (fun d => t1 <= time_months d) arm ->
      countAtRisk arm t1 = length arm).
Proof.
  unfold countAtRisk. split.
  - intro Ht. apply count_le. intros d Hd. qbool. apply Qle_bool_iff. lra.
  - intro Hall. induction Hall as [|d arm Hd _ IH]; [reflexivity|].
    simpl. apply Qle_bool_iff in Hd. rewrite Hd. simpl. now rewrite IH.
Qed.

(** ** Metrics at a threshold *)

Lemma filter_complement {A : Type} (f : A -> bool) (l : list A) :
  (length (filter f l) + length (filter (fun x => negb (f x)) l)
   = length l)%nat.
Proof.
  induction l as [|x l IH]; [reflexivity|].
  simpl. destruct (f x); simpl; lia.
Qed.

Lemma filter_disjoint {A : Type} (f g : A -> bool) (l : list A) :
  (forall x, f x = true -> g x = false) ->
  (length (filter f l) + length (filter g l) <= length l)%nat.
Proof.
  intro Hfg. induction l as [|x l IH]; [simpl; lia|].
  simpl. destruct (f x) eqn:F.
  - rewrite (Hfg x F). simpl. lia.
  - destruct (g x); simpl; lia.
Qed.

Lemma positive_not_negative (p : Patient.t) :
  isPositive p = true -> isNegative p = false.
Proof.
  unfold isPositive, isNegative. intro H. apply String.eqb_eq in H.
  rewrite H. reflexivity.
Qed.

(** The two cells of a row of the matrix make up the row. *)
Lemma above_below (threshold : Q) (l : list Patient.t) :
  (length (filter (fun p => Qle_bool threshold (predicted_probability p)) l)
   + length (filter (fun p => Qlt_bool (predicted_probability p) threshold) l)
   = length l)%nat.
Proof. apply filter_complement. Qed.

(** A ratio [a / (a + b)] of two counts. *)
Lemma ratio_cases (a b : nat) :
  ((a + b = 0)%nat /\ (cnt a / (cnt a + cnt b))%num = NaN)
  \/ ((0 < a + b)%nat
      /\ (cnt a / (cnt a + cnt b))%num
         = Fin (inject_Z (Z.of_nat a)
                / (inject_Z (Z.of_nat a) + inject_Z (Z.of_nat b)))).
Proof.
  destruct (Nat.eq_dec (a + b) 0) as [E | E].
  - left. split; [exact E|].
    assert (a = 0%nat) by lia. assert (b = 0%nat) by lia. subst.
    reflexivity.
  - right. split; [lia|].
    unfold cnt. cbn [add]. apply div_fin.
    pose proof (cnt_nonneg a). pose proof (cnt_nonneg b).
    destruct a as [|a].
    + pose proof (cnt_pos b ltac:(lia)). lra.
    + pose proof (cnt_pos (S a) ltac:(lia)). lra.
Qed.

Lemma ratio_value (a b : nat) :
  (0 < a + b)%nat ->
  inject_Z (Z.of_nat a) / (inject_Z (Z.of_nat a) + inject_Z (Z.of_nat b))
  == inject_Z (Z.of_nat a) / inject_Z (Z.of_nat (a + b))
  /\ 0 <= inject_Z (Z.of_nat a) / inject_Z (Z.of_nat (a + b)) <= 1.
Proof.
  intro H. split.
  - rewrite Nat2Z.inj_add, inject_Z_plus. reflexivity.
  - apply rate_bounds; lia.
Qed.

Lemma or_zero_fin (q : Q) : exists r, or_zero (Fin q) = Fin r /\ r == q.
Proof.
  simpl. destruct (Qeq_bool q 0) eqn:E.
  - exists 0. split; [reflexivity|]. qbool. lra.
  - exists q. split; reflexivity.
Qed.

(** A guarded ratio [a / (a + b) || 0] of two counts is the ratio, and
    0 when both counts are 0. *)
Lemma or_zero_ratio (a b : nat) :
  exists r, or_zero (cnt a / (cnt a + cnt b))%num = Fin r
            /\ 0 <= r <= 1
            /\ ((a + b = 0)%nat -> r == 0)
            /\ ((0 < a + b)%nat ->
                r == inject_Z (Z.of_nat a) / inject_Z (Z.of_nat (a + b))).
Proof.
  destruct (ratio_cases a b) as [[E R] | [E R]]; rewrite R.
  - exists 0. split; [reflexivity|]. split; [lra|].
    split; [reflexivity | lia].
  - destruct (or_zero_fin
                (inject_Z (Z.of_nat a)
                 / (inject_Z (Z.of_nat a) + inject_Z (Z.of_nat b))))
      as [r [Er Hr]].
    destruct (ratio_value a b E) as [Hv Hb].
    exists r. split; [exact Er|]. rewrite Hr, Hv.
    split; [exact Hb|]. split; [lia | reflexivity].
Qed.

(** The harmonic mean [2 * (p * s) / (p + s) || 0] of two rates. *)
Lemma or_zero_f1 (p s : Q) :
  0 <= p <= 1 -> 0 <= s <= 1 ->
  within 0 1 (or_zero (Fin 2 * (Fin p * Fin s) / (Fin p + Fin s))%num).
Proof.
  intros Hp Hs. cbn [mul add div].
  destruct (Qeq_bool (p + s) 0) eqn:E.
  - qbool. assert (Ep : p == 0) by lra. assert (Es : s == 0) by lra.
    assert (En : Qeq_bool (2 * (p * s)) 0 = true).
    { apply Qeq_bool_iff. rewrite Ep. ring. }
    unfold sgn. rewrite En. simpl. lra.
  - qbool.
    assert (Hpos : 0 < p + s) by lra.
    assert (Hb : 0 <= 2 * (p * s) / (p + s) <= 1).
    { split.
      - apply Qdiv_nonneg; [nra | exact Hpos].
      - apply Qdiv_le_1; [nra | exact Hpos]. }
    destruct (or_zero_fin (2 * (p * s) / (p + s))) as [r [Er Hr]].
    rewrite Er. simpl. rewrite Hr. exact Hb.
Qed.

(** X16.  Every guarded metric of the threshold explorer (sensitivity,
    specificity, PPV, NPV and F1) is a finite number between 0 and 1
    at every threshold and for every array, an empty class giving 0.
    The accuracy is not guarded: it lies between 0 and 1 for a
    non-empty array and is [NaN] for the empty one.  The four cells
    never count more patients than the array holds. *)
Theorem updateThresholdExplorer_bounded (threshold : Q)
  (data : list Patient.t) :
  let m := updateThresholdExplorer threshold data in
  within 0 1 (Explorer.sensitivity m)
  /\ within 0 1 (Explorer.specificity m)
  /\ within 0 1 (Explorer.ppv m)
  /\ within 0 1 (Explorer.npv m)
  /\ within 0 1 (Explorer.f1 m)
  /\ (data <> [] -> within 0 1 (Explorer.accuracy m))
  /\ (data = [] -> Explorer.accuracy m = NaN)
  /\ (Explorer.tp m + Explorer.fn m + Explorer.tn m + Explorer.fp m
      <= length data)%nat.
Proof.
  cbv zeta. unfold updateThresholdExplorer.
  cbn [Explorer.sensitivity Explorer.specificity Explorer.ppv Explorer.npv
       Explorer.f1 Explorer.accuracy Explorer.tp Explorer.fn Explorer.tn
       Explorer.fp].
  set (above := fun p => Qle_bool threshold (predicted_probability p)).
  set (below := fun p => Qlt_bool (predicted_probability p) threshold).
  set (pos := filter isPositive data). set (neg := filter isNegative data).
  set (tp := length (filter above pos)). set (fn := length (filter below pos)).
  set (tn := length (filter below neg)). set (fp := length (filter above neg)).
  assert (Hpos : (tp + fn = length pos)%nat)
    by apply (above_below threshold pos).
  assert (Hneg : (fp + tn = length neg)%nat)
    by apply (above_below threshold neg).
  assert (Hall : (length pos + length neg <= length data)%nat)
    by apply (filter_disjoint _ _ data positive_not_negative).
  destruct (or_zero_ratio tp fn) as [se [Ese [Hse _]]].
  destruct (or_zero_ratio tn fp) as [sp [Esp [Hsp _]]].
  destruct (or_zero_ratio tp fp) as [pp [Epp [Hpp _]]].
  destruct (or_zero_ratio tn fn) as [np [Enp [Hnp _]]].
  rewrite Ese, Esp, Epp, Enp.
  split; [exact Hse|]. split; [exact Hsp|].
  split; [exact Hpp|]. split; [exact Hnp|].
  split; [apply or_zero_f1; assumption|].
  split; [|split; [|lia]].
  - intro Hne. assert (Hn : (0 < length data)%nat).
    { destruct data; [contradiction | simpl; lia]. }
    unfold cnt at 1 2. cbn [add]. rewrite (div_cnt _ _ Hn).
    pose proof (cnt_pos _ Hn). pose proof (cnt_nonneg tp).
    pose proof (cnt_nonneg tn).
    split.
    + apply Qdiv_nonneg; [lra | assumption].
    + apply Qdiv_le_1; [|assumption].
      rewrite <- inject_Z_plus, <- Nat2Z.inj_add. apply cnt_le. lia.
  - intro E. subst data. reflexivity.
Qed.

Lemma explorer_sensitivity (threshold : Q) (data : list Patient.t) :
  exists r,
    Explorer.sensitivity (updateThresholdExplorer threshold data) = Fin r
    /\ (positives data = 0%nat -> r == 0)
    /\ ((0 < positives data)%nat ->
        r == inject_Z
               (Z.of_nat
                  (length
                     (filter (fun p =>
                                Qle_bool threshold (predicted_probability p))
                             (filter isPositive data))))
             / inject_Z (Z.of_nat (positives data))).
Proof.
  unfold updateThresholdExplorer, positives. cbn [Explorer.sensitivity].
  pose proof (above_below threshold (filter isPositive data)) as Hrow.
  match goal with
  | |- context [or_zero (cnt ?a / (cnt ?a + cnt ?b))%num] =>
      destruct (or_zero_ratio a b) as [r [Er [_ [H0 H1]]]]
  end.
  exists r. split; [exact Er|]. rewrite Hrow in H0, H1.
  split; assumption.
Qed.

Lemma explorer_specificity (threshold : Q) (data : list Patient.t) :
  exists r,
    Explorer.specificity (updateThresholdExplorer threshold data) = Fin r
    /\ (negatives data = 0%nat -> r == 0)
    /\ ((0 < negatives data)%nat ->
        r == inject_Z
               (Z.of_nat
                  (length
                     (filter (fun p =>
                                Qlt_bool (predicted_probability p) threshold)
                             (filter isNegative data))))
             / inject_Z (Z.of_nat (negatives data))).
Proof.
  unfold updateThresholdExplorer, negatives. cbn [Explorer.specificity].
  pose proof (above_below threshold (filter isNegative data)) as Hrow.
  rewrite Nat.add_comm in Hrow.
  match goal with
  | |- context [or_zero (cnt ?a / (cnt ?a + cnt ?b))%num] =>
      destruct (or_zero_ratio a b) as [r [Er [_ [H0 H1]]]]
  end.
  exists r. split; [exact Er|]. rewrite Hrow in H0, H1.
  split; assumption.
Qed.

Lemma Qdiv_le_compat (a b n : Q) : a <= b -> 0 < n -> a / n <= b / n.
Proof.
  intros Hab Hn. apply Qle_shift_div_l; [exact Hn|].
  setoid_replace (a / n * n) with a by (field; lra). exact Hab.
Qed.

(** X17.  Raising the threshold never raises the sensitivity and never
    lowers the specificity that the threshold explorer shows. *)
Theorem updateThresholdExplorer_monotone (t1 t2 : Q)
  (data : list Patient.t) :
  t1 <= t2 ->
  le (Explorer.sensitivity (updateThresholdExplorer t2 data))
     (Explorer.sensitivity (updateThresholdExplorer t1 data))
  /\ le (Explorer.specificity (updateThresholdExplorer t1 data))
        (Explorer.specificity (updateThresholdExplorer t2 data)).
Proof.
  intro Ht. split.
  - destruct (explorer_sensitivity t1 data) as [r1 [E1 [Z1 V1]]].
    destruct (explorer_sensitivity t2 data) as [r2 [E2 [Z2 V2]]].
    rewrite E1, E2. unfold le. simpl. apply Qle_bool_iff.
    destruct (Nat.eq_dec (positives data) 0) as [E | E].
    + rewrite (Z1 E), (Z2 E). lra.
    + assert (Hp : (0 < positives data)%nat) by lia.
      rewrite (V1 Hp), (V2 Hp).
      apply Qdiv_le_compat; [|apply cnt_pos, Hp].
      apply cnt_le, count_le. intros p Hp2. qbool.
      apply Qle_bool_iff. lra.
  - destruct (explorer_specificity t1 data) as [r1 [E1 [Z1 V1]]].
    destruct (explorer_specificity t2 data) as [r2 [E2 [Z2 V2]]].
    rewrite E1, E2. unfold le. simpl. apply Qle_bool_iff.
    destruct (Nat.eq_dec (negatives data) 0) as [E | E].
    + rewrite (Z1 E), (Z2 E). lra.
    + assert (Hp : (0 < negatives data)%nat) by lia.
      rewrite (V1 Hp), (V2 Hp).
      apply Qdiv_le_compat; [|apply cnt_pos, Hp].
      apply cnt_le, count_le. intros p Hp2. qbool.
      apply Qlt_bool_iff. lra.
Qed.

(** X18.  The gauges compute sensitivity and specificity without the
    explorer's guard: with patients of both classes they are the
    explorer's values, between 0 and 1, and Youden's J lies between
    -1 and 1; without positive patients the sensitivity gauge and
    Youden's J are [NaN] where the explorer shows 0, and likewise the
    specificity gauge without negative patients. *)
Theorem createDiagnosticGauges_rates (data : list Patient.t)
  (threshold : Q) :
  let g := createDiagnosticGauges data threshold in
  let m := updateThresholdExplorer threshold data in
  ((0 < positives data)%nat -> (0 < negatives data)%nat ->
   within 0 1 (Gauges.sensitivity g)
   /\ within 0 1 (Gauges.specificity g)
   /\ within (-1) 1 (Gauges.youdenJ g)
   /\ same (Gauges.sensitivity g) (Explorer.sensitivity m)
   /\ same (Gauges.specificity g) (Explorer.specificity m))
  /\ (positives data = 0%nat ->
      Gauges.sensitivity g = NaN /\ Gauges.youdenJ g = NaN
      /\ Explorer.sensitivity m = Fin 0)
  /\ (negatives data = 0%nat ->
      Gauges.specificity g = NaN /\ Gauges.youdenJ g = NaN
      /\ Explorer.specificity m = Fin 0).
Proof.
  cbv zeta. unfold createDiagnosticGauges, updateThresholdExplorer, positives,
    negatives.
  cbn [Gauges.sensitivity Gauges.specificity Gauges.youdenJ
       Explorer.sensitivity Explorer.specificity].
  set (above := fun p => Qle_bool threshold (predicted_probability p)).
  set (below := fun p => Qlt_bool (predicted_probability p) threshold).
  set (pos := filter isPositive data). set (neg := filter isNegative data).
  set (tp := length (filter above pos)). set (fn := length (filter below pos)).
  set (tn := length (filter below neg)). set (fp := length (filter above neg)).
  assert (Hpos : (tp + fn = length pos)%nat)
    by apply (above_below threshold pos).
  assert (Hneg : (fp + tn = length neg)%nat)
    by apply (above_below threshold neg).
  split; [|split].
  - intros Hp Hn.
    destruct (ratio_cases tp fn) as [[E _] | [_ Rs]]; [lia|].
    destruct (ratio_cases tn fp) as [[E _] | [_ Rp]]; [lia|].
    rewrite Rs, Rp.
    destruct (ratio_value tp fn ltac:(lia)) as [Vs Bs].
    destruct (ratio_value tn fp ltac:(lia)) as [Vp Bp].
    rewrite <- Vs in Bs. rewrite <- Vp in Bp.
    match goal with
    | |- context [or_zero (Fin ?q)] =>
        destruct (or_zero_fin q) as [r1 [Er1 Hr1]]; rewrite Er1
    end.
    match goal with
    | |- context [or_zero (Fin ?q)] =>
        destruct (or_zero_fin q) as [r2 [Er2 Hr2]]; rewrite Er2
    end.
    simpl. repeat split; try lra; symmetry; assumption.
  - intro Hp.
    destruct (ratio_cases tp fn) as [[_ R] | [E _]]; [|lia].
    rewrite R. repeat split.
  - intro Hn.
    destruct (ratio_cases tn fp) as [[_ R] | [E _]]; [|lia].
    rewrite R. repeat split.
    destruct (cnt tp / (cnt tp + cnt fn))%num; reflexivity.
Qed.

(** ** The confusion matrix of the imaging study *)

Lemma imaging_cells (d : Imaging.t) :
  ((if imaging_cell "Negative" "Negative" d then 1 else 0)
   + (if imaging_cell "Negative" "Positive" d then 1 else 0)
   + (if imaging_cell "Positive" "Negative" d then 1 else 0)
   + (if imaging_cell "Positive" "Positive" d then 1 else 0)
   = if labelled d then 1 else 0)%nat.
Proof.
  unfold imaging_cell, labelled.
  destruct (String.eqb (Imaging.disease_status d) "Positive") eqn:DP;
    destruct (String.eqb (Imaging.disease_status d) "Negative") eqn:DN;
    destruct (String.eqb (Imaging.imaging_result d) "Positive") eqn:IP;
    destruct (String.eqb (Imaging.imaging_result d) "Negative") eqn:IN;
    try reflexivity;
    repeat match goal with
           | H : String.eqb _ _ = true |- _ => apply String.eqb_eq in H
           end;
    congruence.
Qed.

Lemma length_filter_cons {A : Type} (f : A -> bool) (x : A) (l : list A) :
  length (filter f (x :: l))
  = ((if f x then 1 else 0) + length (filter f l))%nat.
Proof. simpl. destruct (f x); reflexivity. Qed.

Lemma imaging_cells_count (data : list Imaging.t) :
  (length (filter (imaging_cell "Negative" "Negative") data)
   + length (filter (imaging_cell "Negative" "Positive") data)
   + length (filter (imaging_cell "Positive" "Negative") data)
   + length (filter (imaging_cell "Positive" "Positive") data)
   = length (filter labelled data))%nat.
Proof.
  induction data as [|d data IH]; [reflexivity|].
  rewrite !length_filter_cons. pose proof (imaging_cells d). lia.
Qed.

Lemma filter_all {A : Type} (f : A -> bool) (l : list A) :
  length (filter f l) = length l <-> Forall (fun x => f x = true) l.
Proof.
  induction l as [|x l IH]; [split; [constructor | reflexivity]|].
  rewrite length_filter_cons. cbn [length].
  pose proof (count_le (fun _ => true) f l (fun _ _ => eq_refl)) as Hle.
  assert (El : length (filter (fun _ : A => true) l) = length l).
  { clear. induction l; simpl; congruence. }
  rewrite El in Hle. split.
  - intro H. destruct (f x) eqn:F; [|lia].
    constructor; [exact F | apply IH; lia].
  - intro H. inversion H as [|? ? F Hl]; subst. rewrite F.
    apply IH in Hl. lia.
Qed.

(** X19.  The four cells of the confusion matrix count exactly the rows
    whose disease status and imaging result are both 'Positive' or
    'Negative': a row with any other label is in no cell.  So the
    cells add up to the number of rows exactly when every row is
    labelled, and then each row of the matrix adds up to the number of
    rows with that disease status. *)
Theorem createConfusionMatrix_partition (data : list Imaging.t) :
  exists TN FP FN TP : nat,
    createConfusionMatrix data = [[TN; FP]; [FN; TP]]
    /\ (TN + FP + FN + TP = length (filter labelled data))%nat
    /\ ((TN + FP + FN + TP = length data)%nat
        <-> Forall (fun d => labelled d = true) data)
    /\ (Forall (fun d => labelled d = true) data ->
        (FN + TP)%nat
        = length (filter (fun d => String.eqb (Imaging.disease_status d)
                                              "Positive") data)
        /\ (TN + FP)%nat
           = length (filter (fun d => String.eqb (Imaging.disease_status d)
                                                 "Negative") data)).
Proof.
  unfold createConfusionMatrix. do 4 eexists.
  split; [reflexivity|].
  split; [apply imaging_cells_count|].
  split.
  - rewrite imaging_cells_count. apply filter_all.
  - intro Hall. induction Hall as [|d data Hd _ [IH1 IH2]];
      [split; reflexivity|].
    rewrite !length_filter_cons.
    unfold labelled in Hd. unfold imaging_cell at 1 3 5 7.
    destruct (String.eqb (Imaging.disease_status d) "Positive") eqn:DP;
      destruct (String.eqb (Imaging.disease_status d) "Negative") eqn:DN;
      destruct (String.eqb (Imaging.imaging_result d) "Positive") eqn:IP;
      destruct (String.eqb (Imaging.imaging_result d) "Negative") eqn:IN;
      try discriminate Hd;
      repeat match goal with
             | H : String.eqb _ _ = true |- _ => apply String.eqb_eq in H
             end;
      try congruence; cbn [andb]; lia.
Qed.

Section AccuracyChart.
Context {M : MathLib}.

(** A percentage [a / (a + b) * 100] of two counts and its error bar. *)
Lemma percent_ratio (a b : nat) :
  ((0 < a + b)%nat ->
   exists r m,
     (cnt a / (cnt a + cnt b) * Fin 100)%num = Fin r
     /\ 0 <= r <= 100
     /\ r == inject_Z (Z.of_nat a) / inject_Z (Z.of_nat (a + b)) * 100
     /\ calcCI (Fin r) (cnt a + cnt b)%num = Fin m
     /\ 0 <= m)
  /\ ((a + b = 0)%nat ->
      (cnt a / (cnt a + cnt b) * Fin 100)%num = NaN
      /\ calcCI NaN (cnt a + cnt b)%num = NaN).
Proof.
  split.
  - intro Hpos.
    destruct (ratio_cases a b) as [[E _] | [_ R]]; [lia|].
    destruct (ratio_value a b Hpos) as [V B]. rewrite <- V in B.
    rewrite R. cbn [mul].
    set (q := inject_Z (Z.of_nat a)
              / (inject_Z (Z.of_nat a) + inject_Z (Z.of_nat b))) in *.
    assert (Hn : 0 < inject_Z (Z.of_nat a) + inject_Z (Z.of_nat b)).
    { rewrite <- inject_Z_plus, <- Nat2Z.inj_add. apply cnt_pos, Hpos. }
    set (n := inject_Z (Z.of_nat a) + inject_Z (Z.of_nat b)) in *.
    set (v := (q * 100 / 100) * (1 + - (q * 100 / 100)) / n).
    assert (Hv : 0 <= v).
    { unfold v. apply Qdiv_nonneg; [|exact Hn].
      setoid_replace (q * 100 / 100) with q by field. nra. }
    exists (q * 100), (1.96 * sqrtQ v * 100).
    split; [reflexivity|]. split; [lra|].
    split; [rewrite <- V; reflexivity|].
    split.
    + unfold calcCI, cnt. cbn [add].
      rewrite (div_fin (q * 100) 100) by (intro H; discriminate H).
      cbn [sub neg add mul].
      rewrite (div_fin _ n) by lra.
      fold v. rewrite (Math_sqrt_fin v Hv). reflexivity.
    + pose proof (sqrtQ_nonneg v Hv). nra.
  - intro E. assert (a = 0%nat) by lia. assert (b = 0%nat) by lia. subst.
    split; reflexivity.
Qed.

(** X20.  In the diagnostic accuracy chart, a class with at least one
    labelled row has its rate (sensitivity for the diseased, specificity
    for the healthy) between 0 and 100 with a finite, non-negative error
    bar; a class without labelled rows has rate and error bar [NaN].
    The accuracy lies between 0 and 100 for every non-empty array and
    is [NaN] for the empty one. *)
Theorem createDiagnosticAccuracyChart_bounds (data : list Imaging.t) :
  let r := createDiagnosticAccuracyChart data in
  let diseased :=
    (length (filter (imaging_cell "Positive" "Positive") data)
     + length (filter (imaging_cell "Positive" "Negative") data))%nat in
  let healthy :=
    (length (filter (imaging_cell "Negative" "Negative") data)
     + length (filter (imaging_cell "Negative" "Positive") data))%nat in
  ((0 < diseased)%nat ->
   within 0 100 (Accuracy.sensitivity r)
   /\ exists m, Accuracy.sensCI r = Fin m /\ 0 <= m)
  /\ (diseased = 0%nat ->
      Accuracy.sensitivity r = NaN /\ Accuracy.sensCI r = NaN)
  /\ ((0 < healthy)%nat ->
      within 0 100 (Accuracy.specificity r)
      /\ exists m, Accuracy.specCI r = Fin m /\ 0 <= m)
  /\ (healthy = 0%nat ->
      Accuracy.specificity r = NaN /\ Accuracy.specCI r = NaN)
  /\ (data <> [] -> within 0 100 (Accuracy.accuracy r))
  /\ (data = [] -> Accuracy.accuracy r = NaN).
Proof.
  cbv zeta. unfold createDiagnosticAccuracyChart.
  cbn [Accuracy.sensitivity Accuracy.specificity Accuracy.accuracy
       Accuracy.sensCI Accuracy.specCI].
  set (TP := length (filter (imaging_cell "Positive" "Positive") data)).
  set (FN := length (filter (imaging_cell "Positive" "Negative") data)).
  set (FP := length (filter (imaging_cell "Negative" "Positive") data)).
  set (TN := length (filter (imaging_cell "Negative" "Negative") data)).
  destruct (percent_ratio TP FN) as [Sp Sz].
  destruct (percent_ratio TN FP) as [Pp Pz].
  split; [|split; [|split; [|split; [|split]]]].
  - intro H. destruct (Sp H) as [r [m [Er [Hr [_ [Em Hm]]]]]].
    rewrite Er. split; [exact Hr|]. exists m. split; assumption.
  - intro H. destruct (Sz ltac:(lia)) as [Er Em]. rewrite Er.
    split; [reflexivity | exact Em].
  - intro H. destruct (Pp H) as [r [m [Er [Hr [_ [Em Hm]]]]]].
    rewrite Er. split; [exact Hr|]. exists m. split; assumption.
  - intro H. destruct (Pz ltac:(lia)) as [Er Em]. rewrite Er.
    split; [reflexivity | exact Em].
  - intro Hne. assert (Hn : (0 < length data)%nat).
    { destruct data; [contradiction | simpl; lia]. }
    pose proof (imaging_cells_count data) as Hc. fold TP FN FP TN in Hc.
    pose proof (count_le (fun _ => true) labelled data (fun _ _ => eq_refl))
      as Hle.
    assert (El : length (filter (fun _ : Imaging.t => true) data)
                 = length data).
    { clear. induction data; simpl; congruence. }
    rewrite El in Hle.
    unfold cnt at 1 2. cbn [add]. rewrite (div_cnt _ _ Hn). cbn [mul].
    pose proof (cnt_pos _ Hn). pose proof (cnt_nonneg TP).
    pose proof (cnt_nonneg TN).
    assert (Hb : 0 <= (inject_Z (Z.of_nat TP) + inject_Z (Z.of_nat TN))
                      / inject_Z (Z.of_nat (length data)) <= 1).
    { split.
      - apply Qdiv_nonneg; [lra | assumption].
      - apply Qdiv_le_1; [|assumption].
        rewrite <- inject_Z_plus, <- Nat2Z.inj_add. apply cnt_le. lia. }
    simpl. lra.
  - intro E. subst data. reflexivity.
Qed.

End AccuracyChart.

(** ** The number needed to treat *)

Lemma filter_length_le' {A : Type} (f : A -> bool) (l : list A) :
  (length (filter f l) <= length l)%nat.
Proof.
  induction l as [|x l IH]; [simpl; lia|].
  simpl. destruct (f x); simpl; lia.
Qed.

(** A response rate: responders over group size. *)
Lemma response_rate (r n : nat) :
  (r <= n)%nat ->
  (n = 0%nat /\ (cnt r / cnt n)%num = NaN)
  \/ (exists q, (cnt r / cnt n)%num = Fin q /\ 0 <= q <= 1).
Proof.
  intro Hle. destruct (Nat.eq_dec n 0) as [E | E].
  - left. subst n. assert (r = 0%nat) by lia. subst r.
    split; reflexivity.
  - right. unfold cnt at 1. rewrite div_cnt by lia.
    eexists. split; [reflexivity|]. apply rate_bounds; lia.
Qed.

(** [ARR > 0 ? Math.ceil(1 / ARR) : Infinity] on a difference of two
    response rates. *)
Lemma nnt_of_rates (rateT rateP : num) :
  (rateT = NaN \/ exists q, rateT = Fin q /\ 0 <= q <= 1) ->
  (rateP = NaN \/ exists q, rateP = Fin q /\ 0 <= q <= 1) ->
  let ARR := (rateT - rateP)%num in
  let NNT := if (ARR >? Fin 0)%num then Math_ceil (Fin 1 / ARR)%num
             else PInf in
  (ARR = NaN \/ exists a, ARR = Fin a /\ -1 <= a <= 1)
  /\ ((ARR >? Fin 0)%num = false -> NNT = PInf)
  /\ (forall a, ARR = Fin a -> 0 < a ->
      exists k : Z,
        NNT = Fin (inject_Z k) /\ (1 <= k)%Z
        /\ inject_Z k - 1 < 1 / a /\ 1 / a <= inject_Z k).
Proof.
  intros HT HP. cbv zeta.
  split; [|split].
  - destruct HT as [ET | [t [ET Ht]]]; subst rateT; [left; reflexivity|].
    destruct HP as [EP | [p [EP Hp]]]; subst rateP; [left; reflexivity|].
    right. exists (t + - p). split; [reflexivity | lra].
  - intro E. rewrite E. reflexivity.
  - intros a Ea Ha. rewrite Ea.
    assert (Hle : a <= 1).
    { destruct HT as [ET | [t [ET Ht]]]; subst rateT; [discriminate Ea|].
      destruct HP as [EP | [p [EP Hp]]]; subst rateP; [discriminate Ea|].
      injection Ea as Ea. subst a. lra. }
    assert (G : (Fin a >? Fin 0)%num = true).
    { unfold gtb. simpl. apply Qlt_bool_iff. exact Ha. }
    rewrite G. rewrite div_fin by lra. cbn [Math_ceil].
    exists (Qceiling (1 / a)). split; [reflexivity|].
    split; [|split].
    + assert (H1 : 1 <= 1 / a) by (apply Qle_shift_div_l; lra).
      apply Qceiling_resp_le in H1.
      change (Qceiling 1) with 1%Z in H1. exact H1.
    + pose proof (Qceiling_lt (1 / a)) as H.
      unfold Z.sub in H. rewrite inject_Z_plus, inject_Z_opp in H.
      change (inject_Z 1) with 1 in H. lra.
    + apply Qle_ceiling.
Qed.

(** X21.  The icon array computes the same number needed to treat as
    the card, and it is never [NaN].  When the absolute risk reduction
    is positive the number is an integer [k] of at least 1, and the
    first [min(k, 10)] of the ten icons are highlighted; in every other
    case, an empty treatment or placebo group included, the number is
    [Infinity] and no icon is highlighted. *)
Theorem createNNTIconArray_NNT (data : list Trial.t) :
  let card := updateNNTCard data in
  let icons := createNNTIconArray data in
  IconArray.NNT icons = NNTCard.NNT card
  /\ (NNTCard.ARR card = NaN
      \/ exists a, NNTCard.ARR card = Fin a /\ -1 <= a <= 1)
  /\ ((NNTCard.ARR card >? Fin 0)%num = false ->
      NNTCard.NNT card = PInf
      /\ IconArray.iconData icons = repeat false 10)
  /\ (forall a, NNTCard.ARR card = Fin a -> 0 < a ->
      exists k : Z,
        NNTCard.NNT card = Fin (inject_Z k) /\ (1 <= k)%Z
        /\ IconArray.iconData icons
           = repeat true (Z.to_nat (Z.min k 10))
             ++ repeat false (10 - Z.to_nat (Z.min k 10))).
Proof.
  cbv zeta. unfold createNNTIconArray, updateNNTCard.
  cbn [IconArray.NNT IconArray.iconData NNTCard.NNT NNTCard.ARR].
  set (responder := fun d => leb (toNumber (Trial.pct_change_week12 d))
                                 (Fin (-20))).
  set (treatmentData :=
         filter (fun d => String.eqb (Trial.treatment_group d) "Treatment")
                data).
  set (placeboData :=
         filter (fun d => String.eqb (Trial.treatment_group d) "Placebo")
                data).
  set (rateT := (cnt (length (filter responder treatmentData))
                 / cnt (length treatmentData))%num).
  set (rateP := (cnt (length (filter responder placeboData))
                 / cnt (length placeboData))%num).
  assert (HT : rateT = NaN \/ exists q, rateT = Fin q /\ 0 <= q <= 1).
  { destruct (response_rate _ _ (filter_length_le' responder treatmentData))
      as [[_ E] | E]; [left | right]; exact E. }
  assert (HP : rateP = NaN \/ exists q, rateP = Fin q /\ 0 <= q <= 1).
  { destruct (response_rate _ _ (filter_length_le' responder placeboData))
      as [[_ E] | E]; [left | right]; exact E. }
  destruct (nnt_of_rates rateT rateP HT HP) as [Harr [Hinf Hfin]].
  split; [reflexivity|]. split; [exact Harr|]. split.
  - intro E. rewrite (Hinf E). split; reflexivity.
  - intros a Ea Ha. destruct (Hfin a Ea Ha) as [k [Ek [Hk _]]].
    exists k. rewrite Ek. split; [reflexivity|]. split; [exact Hk|].
    assert (Eh : JS.min (Fin (inject_Z k)) (cnt 10)
                 = Fin (inject_Z (Z.min k 10))).
    { unfold JS.min, cnt. simpl.
      destruct (Qle_bool (inject_Z k) (inject_Z 10)) eqn:E; qbool.
      + rewrite <- Zle_Qle in E.
        rewrite Z.min_l by exact E. reflexivity.
      + assert (H : (10 < k)%Z) by (rewrite <- Zlt_Qlt in E; exact E).
        rewrite Z.min_r by lia. reflexivity. }
    rewrite Eh. cbn [eqb negb].
    assert (Hh : (1 <= Z.min k 10 <= 10)%Z) by lia.
    destruct (Z.min k 10) as [|h|h]; try lia.
    assert (Hcases : (h = 1 \/ h = 2 \/ h = 3 \/ h = 4 \/ h = 5 \/ h = 6
                      \/ h = 7 \/ h = 8 \/ h = 9 \/ h = 10)%positive)
      by lia.
    repeat (destruct Hcases as [E | Hcases]; [subst h; reflexivity|]).
    subst h. reflexivity.
Qed.

(** ** The calibration plot *)

Lemma update_at_map_seq {A : Type} (F : nat -> A) (g : A -> A)
  (k n s : nat) :
  update_at k g (map F (seq s n))
  = map (fun i => if (i =? s + k)%nat then g (F i) else F i) (seq s n).
Proof.
  revert k s. induction n as [|n IH]; intros k s;
    [destruct k; reflexivity|].
  cbn [seq map]. destruct k as [|k]; cbn [update_at].
  - rewrite Nat.add_0_r, Nat.eqb_refl. f_equal.
    apply map_ext_in. intros i Hi. apply in_seq in Hi.
    destruct (Nat.eqb_spec i s); [lia | reflexivity].
  - destruct (Nat.eqb_spec s (s + S k)); [lia|]. f_equal.
    rewrite IH. apply map_ext_in. intros i _.
    replace (S s + k)%nat with (s + S k)%nat by lia. reflexivity.
Qed.

Lemma calibration_bins_empty : calibration_bins = map (bin_of []) (seq 0 10).
Proof. reflexivity. Qed.

Lemma binIdx_nonneg (prob : Q) :
  0 <= prob -> (0 <= Z.min (Qfloor (prob * 10)) 9)%Z.
Proof.
  intro H. apply Z.min_glb; [|lia].
  change 0%Z with (Qfloor 0). apply Qfloor_resp_le. lra.
Qed.

Lemma binIdx_negative (prob : Q) :
  prob < 0 -> (Z.min (Qfloor (prob * 10)) 9 < 0)%Z.
Proof.
  intro H. apply Z.min_lt_iff. left.
  pose proof (Qfloor_le (prob * 10)) as Hf.
  assert (Hlt : inject_Z (Qfloor (prob * 10)) < inject_Z 0)
    by (change (inject_Z 0) with 0; lra).
  rewrite <- Zlt_Qlt in Hlt. exact Hlt.
Qed.

Lemma assign_bin_bin_of (seen : list Patient.t) (p : Patient.t) :
  0 <= predicted_probability p ->
  assign_bin (Some (map (bin_of seen) (seq 0 10))) p
  = Some (map (bin_of (seen ++ [p])) (seq 0 10)).
Proof.
  intro Hp. unfold assign_bin.
  pose proof (binIdx_nonneg _ Hp) as Hk.
  destruct (Z.ltb_spec (Z.min (Qfloor (predicted_probability p * 10)) 9) 0)
    as [Hneg | _]; [lia|].
  f_equal. rewrite update_at_map_seq. apply map_ext_in. intros i _.
  cbn [Nat.add].
  assert (E : (i =? Z.to_nat
                      (Z.min (Qfloor (predicted_probability p * 10)) 9))%nat
              = in_bin i p) by (unfold in_bin; apply Nat.eqb_sym).
  rewrite E. unfold bin_of. rewrite !filter_app, !map_app. cbn [filter].
  destruct (in_bin i p);
    cbn [Bin.lower Bin.upper Bin.predicted Bin.observed map];
    [reflexivity | rewrite !app_nil_r; reflexivity].
Qed.

Lemma assign_bin_fold (data seen : list Patient.t) :
  Forall (fun p => 0 <= predicted_probability p) data ->
  fold_left assign_bin data (Some (map (bin_of seen) (seq 0 10)))
  = Some (map (bin_of (seen ++ data)) (seq 0 10)).
Proof.
  intro Hall. revert seen.
  induction Hall as [|p data Hp _ IH]; intro seen.
  - rewrite app_nil_r. reflexivity.
  - cbn [fold_left]. rewrite (assign_bin_bin_of seen p Hp), IH.
    rewrite <- app_assoc. reflexivity.
Qed.

Lemma assign_bin_thrown (data : list Patient.t) :
  fold_left assign_bin data None = None.
Proof. induction data as [|p data IH]; [reflexivity | exact IH]. Qed.

Lemma assign_bin_throws (data : list Patient.t) :
  Exists (fun p => predicted_probability p < 0) data ->
  forall bins, fold_left assign_bin data bins = None.
Proof.
  intro Hex. induction Hex as [p data Hp | p data _ IH]; intro bins.
  - cbn [fold_left]. destruct bins as [bins|]; [|apply assign_bin_thrown].
    unfold assign_bin. pose proof (binIdx_negative _ Hp) as Hk.
    apply Z.ltb_lt in Hk. rewrite Hk. apply assign_bin_thrown.
  - cbn [fold_left]. apply IH.
Qed.

Lemma filter_map_swap {A B : Type} (f : A -> B) (p : B -> bool)
  (l : list A) :
  filter p (map f l) = map f (filter (fun x => p (f x)) l).
Proof.
  induction l as [|x l IH]; [reflexivity|].
  cbn [map filter]. destruct (p (f x)); cbn [map]; now rewrite IH.
Qed.

Lemma list_sum_nonempty {A : Type} (len : A -> nat) (l : list A) :
  list_sum (map len (filter (fun x => (0 <? len x)%nat) l))
  = list_sum (map len l).
Proof.
  unfold list_sum. induction l as [|x l IH]; [reflexivity|].
  cbn [filter map fold_right]. destruct (Nat.ltb_spec 0 (len x)).
  - cbn [map fold_right]. now rewrite IH.
  - rewrite IH. lia.
Qed.

Lemma list_sum_plus {A : Type} (f g : A -> nat) (l : list A) :
  list_sum (map (fun x => (f x + g x)%nat) l)
  = (list_sum (map f l) + list_sum (map g l))%nat.
Proof.
  unfold list_sum. induction l as [|x l IH]; [reflexivity|].
  cbn [map fold_right]. rewrite IH. lia.
Qed.

(** Every patient falls into exactly one of the ten bins. *)
Lemma one_bin (p : Patient.t) :
  list_sum (map (fun i => if in_bin i p then 1 else 0)%nat (seq 0 10))
  = 1%nat.
Proof.
  unfold in_bin.
  assert (Hk : (Z.to_nat (Z.min (Qfloor (predicted_probability p * 10)) 9)
                <= 9)%nat) by lia.
  destruct (Z.to_nat (Z.min (Qfloor (predicted_probability p * 10)) 9))
    as [|k]; [reflexivity|].
  do 9 (destruct k as [|k]; [reflexivity|]). lia.
Qed.

Lemma bins_count (data : list Patient.t) :
  list_sum (map (fun i => length (filter (in_bin i) data)) (seq 0 10))
  = length data.
Proof.
  induction data as [|p data IH]; [reflexivity|].
  rewrite (map_ext _ (fun i => ((if in_bin i p then 1 else 0)
                                + length (filter (in_bin i) data))%nat))
    by (intro i; apply length_filter_cons).
  rewrite list_sum_plus, one_bin, IH. reflexivity.
Qed.

Lemma list_mean_fin (qs : list Q) :
  qs <> [] ->
  (Fin (fold_left Qplus qs 0) / cnt (length qs))%num
  = Fin (fold_left Qplus qs 0 / inject_Z (Z.of_nat (length qs)))
  /\ 0 < inject_Z (Z.of_nat (length qs)).
Proof.
  intro Hne. assert (Hn : (0 < length qs)%nat).
  { destruct qs; [contradiction Hne; reflexivity | simpl; lia]. }
  split; [apply div_cnt, Hn | apply cnt_pos, Hn].
Qed.

Lemma list_mean_between (lo hi : Q) (qs : list Q) :
  qs <> [] -> (forall q, In q qs -> lo <= q <= hi) ->
  lo <= fold_left Qplus qs 0 / inject_Z (Z.of_nat (length qs)) <= hi.
Proof.
  intros Hne Hall. destruct (list_mean_fin qs Hne) as [_ Hn].
  destruct (sum_between lo hi qs Hall 0) as [H1 H2].
  split; [apply Qle_shift_div_l | apply Qle_shift_div_r];
    solve [exact Hn | lra].
Qed.

Lemma bin_scores (data : list Patient.t) (i : nat) (q : Q) :
  In q (map predicted_probability (filter (in_bin i) data)) ->
  exists p, In p data /\ in_bin i p = true /\ predicted_probability p = q.
Proof.
  intro H. apply in_map_iff in H. destruct H as [p [E Hp]].
  apply filter_In in Hp. exists p. tauto.
Qed.

Lemma nonempty_length {A : Type} (l : list A) :
  (0 < length l)%nat -> l <> [].
Proof. destruct l; simpl; [lia | discriminate]. Qed.

(** X22.  With no negative score the calibration plot puts every
    patient into exactly one bin: the counts of its points add up to
    the number of patients, and there are at most ten points, each with
    at least one patient and an observed rate between 0 and 1.  With
    scores of at most 1 the mean scores lie between 0 and 1.  A
    negative score makes the function throw. *)
Theorem createCalibrationPlot_points (data : list Patient.t) :
  (Forall (fun p => 0 <= predicted_probability p) data ->
   exists points,
     createCalibrationPlot data = Some points
     /\ list_sum (map Calibration.count points) = length data
     /\ (length points <= 10)%nat
     /\ Forall (fun pt =>
                  (0 < Calibration.count pt)%nat
                  /\ within 0 1 (Calibration.observed pt)) points
     /\ (Forall (fun p => predicted_probability p <= 1) data ->
         Forall (fun pt => within 0 1 (Calibration.predicted pt)) points))
  /\ (Exists (fun p => predicted_probability p < 0) data ->
      createCalibrationPlot data = None).
Proof.
  split.
  - intro Hall. unfold createCalibrationPlot.
    rewrite calibration_bins_empty, (assign_bin_fold data [] Hall).
    cbn [app]. rewrite filter_map_swap, map_map.
    unfold bin_of. cbn [Bin.predicted Bin.observed].
    set (scores := fun i => map predicted_probability
                                (filter (in_bin i) data)).
    set (outcomes := fun i => map (fun p => if isPositive p then 1 else 0)
                                  (filter (in_bin i) data)).
    set (kept := filter (fun i => (0 <? length (scores i))%nat) (seq 0 10)).
    assert (Hkept : forall i, In i kept ->
                              (0 < length (scores i))%nat
                              /\ scores i <> [] /\ outcomes i <> []).
    { intros i Hi. apply filter_In in Hi. destruct Hi as [_ Hlen].
      apply Nat.ltb_lt in Hlen.
      split; [exact Hlen|]. split; [apply nonempty_length, Hlen|].
      apply nonempty_length. unfold outcomes. unfold scores in Hlen.
      rewrite length_map in *. exact Hlen. }
    eexists. split; [reflexivity|].
    split; [|split; [|split]].
    + rewrite map_map. cbn [Calibration.count].
      unfold kept. rewrite (list_sum_nonempty (fun i => length (scores i))).
      unfold scores.
      rewrite (map_ext _ (fun i => length (filter (in_bin i) data)))
        by (intro i; apply length_map).
      apply bins_count.
    + rewrite length_map. unfold kept.
      pose proof (filter_length_le'
                    (fun i => (0 <? length (scores i))%nat) (seq 0 10)) as H.
      rewrite length_seq in H. exact H.
    + apply Forall_forall. intros pt Hpt. apply in_map_iff in Hpt.
      destruct Hpt as [i [E Hi]]. subst pt.
      destruct (Hkept i Hi) as [Hlen [_ Ho]].
      cbn [Calibration.count Calibration.observed].
      split; [exact Hlen|].
      destruct (list_mean_fin _ Ho) as [Eo _]. unfold outcomes in Eo.
      rewrite Eo. apply (list_mean_between 0 1 _ Ho).
      intros q Hq. unfold outcomes in Hq. apply in_map_iff in Hq.
      destruct Hq as [p [E _]]. subst q. destruct (isPositive p); lra.
    + intro Hle. apply Forall_forall. intros pt Hpt.
      apply in_map_iff in Hpt. destruct Hpt as [i [E Hi]]. subst pt.
      destruct (Hkept i Hi) as [_ [Hs _]].
      cbn [Calibration.predicted].
      destruct (list_mean_fin _ Hs) as [Es _]. unfold scores in Es.
      rewrite Es. apply (list_mean_between 0 1 _ Hs).
      intros q Hq. apply bin_scores in Hq.
      destruct Hq as [p [Hp [_ E]]]. subst q.
      rewrite Forall_forall in Hall, Hle.
      split; [apply Hall, Hp | apply Hle, Hp].
  - intro Hex. unfold createCalibrationPlot.
    rewrite (assign_bin_throws data Hex). reflexivity.
Qed.

(** ** The RMST card *)

Lemma follow_up_times (P : Q -> Prop) (data : list Subject.t)
  (f : Subject.t -> bool) :
  Forall (fun d => P (Subject.time_months d)) data ->
  Forall (fun d => P (time_months d)) (map follow_up (filter f data)).
Proof.
  intro Hall. apply Forall_forall. intros r Hr. apply in_map_iff in Hr.
  destruct Hr as [d [E Hd]]. subst r. apply filter_In in Hd.
  rewrite Forall_forall in Hall. apply (Hall d), Hd.
Qed.

Lemma calculateRMST_no_data {M : MathLib} (T : Q) :
  0 < T -> same (calculateRMST (calculateKM []) (Fin T)) (Fin T).
Proof.
  intro HT. unfold calculateRMST, calculateKM. simpl.
  assert (C1 : Qle_bool 0 T = true) by (apply Qle_bool_iff; lra).
  assert (C2 : Qle_bool T 0 = false).
  { destruct (Qle_bool T 0) eqn:C; [qbool; lra | reflexivity]. }
  rewrite C1. simpl. rewrite C2. simpl.
  assert (C3 : Qlt_bool 0 T = true) by (apply Qlt_bool_iff; lra).
  rewrite C3. simpl. field.
Qed.

(** X23.  When every follow-up time is non-negative and before the
    restriction time, which is at most 10^100, both restricted means on
    the card are finite and not negative, and the card shows the
    advantage of arm A exactly when the restricted mean of arm B is at
    most that of arm A.  An arm without rows has the whole restriction
    time as its restricted mean. *)
Theorem updateRMSTCard_advantage {M : MathLib} (data : list Subject.t)
  (T : Q) :
  0 < T -> T <= pow10 100 ->
  Forall (fun d => 0 <= Subject.time_months d) data ->
  Forall (fun d => Subject.time_months d < T) data ->
  let card := updateRMSTCard data T in
  (exists a b : Q,
     RMSTCard.rmstA card = Fin a /\ RMSTCard.rmstB card = Fin b
     /\ 0 <= a /\ 0 <= b)
  /\ (RMSTCard.advantageA card = true
      <-> le (RMSTCard.rmstB card) (RMSTCard.rmstA card))
  /\ (Forall (fun d => Subject.treatment_arm d <> "Treatment A"%string) data ->
      same (RMSTCard.rmstA card) (Fin T))
  /\ (Forall (fun d => Subject.treatment_arm d <> "Treatment B"%string) data ->
      same (RMSTCard.rmstB card) (Fin T)).
Proof.
  intros HT _ Hnonneg Hbefore. cbv zeta. unfold updateRMSTCard.
  cbn [RMSTCard.rmstA RMSTCard.rmstB RMSTCard.difference
       RMSTCard.advantageA].
  set (isA := fun d => String.eqb (Subject.treatment_arm d) "Treatment A").
  set (isB := fun d => String.eqb (Subject.treatment_arm d) "Treatment B").
  assert (Hin : forall f : Subject.t -> bool,
             within 0 T
               (calculateRMST (calculateKM (map follow_up (filter f data)))
                              (Fin T))).
  { intro f.
    destruct (calculateRMST_beyond (map follow_up (filter f data)) T
                (follow_up_times (fun t => 0 <= t) data f Hnonneg)
                (follow_up_times (fun t => t < T) data f Hbefore) HT)
      as [y [lt [ls [Hls [Hlt [HltT [Hy Hval]]]]]]].
    rewrite (Hval T ltac:(lra)). simpl. split; nra. }
  pose proof (Hin isA) as HA. pose proof (Hin isB) as HB. clear Hin.
  assert (Hempty : forall f : Subject.t -> bool,
             Forall (fun d => f d = false) data ->
             same (calculateRMST (calculateKM (map follow_up (filter f data)))
                                 (Fin T)) (Fin T)).
  { intros f Hf.
    assert (E : filter f data = []).
    { clear - Hf. induction Hf as [|d data Hd _ IH]; [reflexivity|].
      cbn [filter]. rewrite Hd. exact IH. }
    rewrite E. apply calculateRMST_no_data, HT. }
  assert (HeA : Forall (fun d => Subject.treatment_arm d
                                 <> "Treatment A"%string) data ->
                same (calculateRMST
                        (calculateKM (map follow_up (filter isA data)))
                        (Fin T)) (Fin T)).
  { intro Hnone. apply Hempty. eapply Forall_impl; [|exact Hnone].
    intros d Hd. unfold isA.
    destruct (String.eqb_spec (Subject.treatment_arm d) "Treatment A");
      congruence. }
  assert (HeB : Forall (fun d => Subject.treatment_arm d
                                 <> "Treatment B"%string) data ->
                same (calculateRMST
                        (calculateKM (map follow_up (filter isB data)))
                        (Fin T)) (Fin T)).
  { intro Hnone. apply Hempty. eapply Forall_impl; [|exact Hnone].
    intros d Hd. unfold isB.
    destruct (String.eqb_spec (Subject.treatment_arm d) "Treatment B");
      congruence. }
  clear Hempty.
  destruct (calculateRMST (calculateKM (map follow_up (filter isA data)))
                          (Fin T)) as [a| | |]; try contradiction.
  destruct (calculateRMST (calculateKM (map follow_up (filter isB data)))
                          (Fin T)) as [b| | |]; try contradiction.
  simpl in HA, HB.
  split; [exists a, b; repeat split; lra|].
  split.
  - unfold geb, le. simpl. rewrite !Qle_bool_iff. split; intro; lra.
  - split; assumption.
Qed.

(** * Concrete instances of the further properties *)

(** ** js/stats.js and js/data-loader.js *)

Lemma sampleA_measurements : Forall measurement sampleA.
Proof. repeat constructor. Defined.

Lemma sampleB_measurements : Forall measurement sampleB.
Proof. repeat constructor. Defined.

Lemma sampleA_valid : filter valid sampleA <> [].
Proof. simpl. discriminate. Defined.

Lemma sampleB_valid : filter valid sampleB <> [].
Proof. simpl. discriminate. Defined.

Lemma mean_sign_witness :
  Forall moderate sampleA /\ filter valid sampleA <> []
  /\ finite (mean sampleA) /\ le (Fin 0) (mean sampleA).
Proof.
  split; [exact sampleA_moderate|]. split; [exact sampleA_valid|].
  destruct (proj2 (mean_sign sampleA) sampleA_moderate sampleA_valid)
    as [Hf [Hpos _]].
  split; [exact Hf|]. apply Hpos.
  intros q Hq. simpl in Hq.
  destruct Hq as [E | [E | [E | [E | [E | []]]]]];
    try discriminate E; injection E as <-; lra.
Defined.

Lemma standardDeviation_nonneg_witness :
  Forall moderate sampleA
  /\ exists s : Q, @standardDeviation approxMath sampleA = Fin s /\ 0 <= s.
Proof.
  split; [exact sampleA_moderate|].
  exact (proj1 (@standardDeviation_nonneg approxMath sampleA)
               sampleA_moderate).
Defined.

Lemma calculateMedian_splits_witness :
  StronglySorted Qle sampleSorted
  /\ Forall (fun q => Qabs q <= pow10 100) sampleSorted
  /\ within (- pow10 100) (pow10 100) (calculateMedian (map ofQ sampleSorted))
  /\ (length sampleSorted
      <= 2 * count_at_most (map ofQ sampleSorted)
                           (calculateMedian (map ofQ sampleSorted)))%nat
  /\ (length sampleSorted
      <= 2 * count_at_least (map ofQ sampleSorted)
                            (calculateMedian (map ofQ sampleSorted)))%nat.
Proof.
  assert (Hs : StronglySorted Qle sampleSorted)
    by (repeat constructor; lra).
  assert (Hm : Forall (fun q => Qabs q <= pow10 100) sampleSorted)
    by (repeat constructor; vm_compute; discriminate).
  split; [exact Hs|]. split; [exact Hm|].
  apply (proj2 (calculateMedian_splits sampleSorted Hs Hm)). discriminate.
Defined.

Lemma median_splits_sample_witness :
  Forall moderate sampleA /\ filter valid sampleA <> []
  /\ within (- pow10 100) (pow10 100) (median sampleA)
  /\ (length (filter valid sampleA)
      <= 2 * count_at_most sampleA (median sampleA))%nat
  /\ (length (filter valid sampleA)
      <= 2 * count_at_least sampleA (median sampleA))%nat.
Proof.
  split; [exact sampleA_moderate|]. split; [exact sampleA_valid|].
  exact (proj2 (proj2 (median_splits_sample sampleA))
               sampleA_moderate sampleA_valid).
Defined.

Lemma calculateDifferenceCI_bounds_witness :
  Forall moderate sampleA /\ Forall moderate sampleB
  /\ filter valid sampleA <> [] /\ filter valid sampleB <> []
  /\ le (DiffCI.lower (@calculateDifferenceCI approxMath sampleA sampleB))
        (DiffCI.meanDiff (@calculateDifferenceCI approxMath sampleA sampleB))
  /\ le (DiffCI.meanDiff (@calculateDifferenceCI approxMath sampleA sampleB))
        (DiffCI.upper (@calculateDifferenceCI approxMath sampleA sampleB)).
Proof.
  split; [exact sampleA_moderate|]. split; [exact sampleB_moderate|].
  split; [exact sampleA_valid|]. split; [exact sampleB_valid|].
  exact (proj1 (@calculateDifferenceCI_bounds approxMath sampleA sampleB)
               sampleA_moderate sampleB_moderate
               sampleA_valid sampleB_valid).
Defined.

Lemma calculateDifferenceCI_swap_witness :
  Forall measurement sampleA /\ Forall measurement sampleB
  /\ same (DiffCI.meanDiff (@calculateDifferenceCI approxMath sampleB sampleA))
          (neg (DiffCI.meanDiff
                  (@calculateDifferenceCI approxMath sampleA sampleB))).
Proof.
  split; [exact sampleA_measurements|]. split; [exact sampleB_measurements|].
  exact (@calculateDifferenceCI_swap approxMath sampleA sampleB
           sampleA_measurements sampleB_measurements).
Defined.

Lemma sampleRows_keys :
  Forall (fun item : string * value => objectPrototype (fst item) = false)
         sampleRows.
Proof. repeat constructor. Defined.

Lemma sampleRows_values :
  Forall (fun item : string * value => moderate (snd item)) sampleRows.
Proof. repeat constructor; vm_compute; discriminate. Defined.

Lemma groupBy_groups_witness :
  Forall (fun item : string * value => objectPrototype (fst item) = false)
         sampleRows
  /\ exists groups,
       groupBy objectPrototype fst sampleRows = Some groups
       /\ forall k,
            own_get groups k
            = match with_key fst k sampleRows with
              | [] => None
              | items => Some items
              end.
Proof.
  split; [exact sampleRows_keys|].
  exact (proj1 (groupBy_groups objectPrototype fst sampleRows)
               sampleRows_keys).
Defined.

Lemma summarizeByGroup_groups_witness :
  (Z.of_nat (length sampleRows) <= 10000)%Z
  /\ Forall (fun item : string * value => objectPrototype (fst item) = false)
         sampleRows
  /\ Forall (fun item : string * value => moderate (snd item)) sampleRows
  /\ exists summary,
       @summarizeByGroup _ objectPrototype fst snd approxMath sampleRows
       = Some summary
       /\ forall k,
            own_get summary k = None <-> with_key fst k sampleRows = [].
Proof.
  assert (Hlen : (Z.of_nat (length sampleRows) <= 10000)%Z) by (simpl; lia).
  split; [exact Hlen|].
  split; [exact sampleRows_keys|]. split; [exact sampleRows_values|].
  destruct (@summarizeByGroup_groups _ approxMath objectPrototype fst snd
              sampleRows Hlen sampleRows_keys sampleRows_values)
    as [summary [E [Hk _]]].
  exists summary. split; assumption.
Defined.

(** ** Survival analysis *)

Lemma scenario2_nonneg : Forall (fun d => 0 <= time_months d) scenario2.
Proof. repeat constructor; simpl; lra. Defined.

Lemma calculateHR_with_events_witness :
  (0 < length (filter (fun d => (event d =? 1)%Z) scenario2))%nat
  /\ exists h l u : Q,
       HR.hr (@calculateHR approxMath scenario2 scenario2) = Fin h
       /\ HR.ciLower (@calculateHR approxMath scenario2 scenario2) = Fin l
       /\ HR.ciUpper (@calculateHR approxMath scenario2 scenario2) = Fin u
       /\ 0 < h /\ 0 < l /\ 0 < u.
Proof.
  assert (He : (0 < length (filter (fun d => (event d =? 1)%Z) scenario2))%nat)
    by (simpl; lia).
  split; [exact He|].
  destruct (@calculateHR_with_events approxMath scenario2 scenario2 He He)
    as [h [l [u [Eh [El [Eu [Hh [Hl [Hu _]]]]]]]]].
  exists h, l, u. repeat split; assumption.
Defined.

Lemma calculateRMST_beyond_data_witness :
  Forall (fun d => 0 <= time_months d) scenario2
  /\ Forall (fun d => time_months d < 13) scenario2
  /\ le (Fin 0) (calculateRMST (@calculateKM approxMath scenario2) (Fin 13))
  /\ le (calculateRMST (@calculateKM approxMath scenario2) (Fin 13))
        (calculateRMST (@calculateKM approxMath scenario2) (Fin 24)).
Proof.
  assert (Hb : Forall (fun d => time_months d < 13) scenario2)
    by (repeat constructor; simpl; lra).
  split; [exact scenario2_nonneg|]. split; [exact Hb|].
  apply (@calculateRMST_beyond_data approxMath scenario2 13 24
           scenario2_nonneg Hb); lra.
Defined.

Lemma getSurvivalAtTime_decreasing_witness :
  6 <= 12
  /\ within 0 1 (getSurvivalAtTime (@calculateKM approxMath scenario2) (Fin 6))
  /\ le (getSurvivalAtTime (@calculateKM approxMath scenario2) (Fin 12))
        (getSurvivalAtTime (@calculateKM approxMath scenario2) (Fin 6)).
Proof.
  assert (H : 6 <= 12) by lra.
  split; [exact H|].
  exact (@getSurvivalAtTime_decreasing approxMath scenario2 6 12 H).
Defined.

Lemma findMedian_within_curve_witness :
  Forall (fun d => 0 <= time_months d) scenario2
  /\ Forall (fun d => time_months d <= pow10 100) scenario2
  /\ exists (m : Q) (p : KM.point),
       findMedian (@calculateKM approxMath scenario2) = Some (Fin m)
       /\ 0 <= m /\ m <= pow10 100
       /\ In p (@calculateKM approxMath scenario2)
       /\ le (Fin m) (KM.time p).
Proof.
  assert (Hb : Forall (fun d => time_months d <= pow10 100) scenario2)
    by (repeat constructor; vm_compute; discriminate).
  split; [exact scenario2_nonneg|]. split; [exact Hb|].
  exact (@findMedian_within_curve approxMath scenario2 scenario2_nonneg Hb).
Defined.

Lemma calculateCumulativeEvents_curve_witness :
  Forall (fun d => 0 <= time_months d) scenario2
  /\ Cumulative.counts (calculateCumulativeEvents scenario2)
     = [0%Z; 1%Z; 2%Z]
  /\ StronglySorted le (Cumulative.times (calculateCumulativeEvents scenario2)).
Proof.
  split; [exact scenario2_nonneg|].
  destruct (calculateCumulativeEvents_curve scenario2)
    as [_ [Hc [_ [_ [_ Hs]]]]].
  split; [exact Hc | exact (Hs scenario2_nonneg)].
Defined.

Lemma countAtRisk_decreasing_witness :
  5 <= 12 /\ (countAtRisk scenario2 12 <= countAtRisk scenario2 5)%nat.
Proof.
  assert (H : 5 <= 12) by lra.
  split; [exact H|].
  exact (proj1 (countAtRisk_decreasing scenario2 5 12) H).
Defined.

Lemma updateRMSTCard_advantage_witness :
  0 < 24 /\ 24 <= pow10 100
  /\ Forall (fun d => 0 <= Subject.time_months d) survivalRows
  /\ Forall (fun d => Subject.time_months d < 24) survivalRows
  /\ (exists a b : Q,
        RMSTCard.rmstA (@updateRMSTCard approxMath survivalRows 24) = Fin a
        /\ RMSTCard.rmstB (@updateRMSTCard approxMath survivalRows 24) = Fin b
        /\ 0 <= a /\ 0 <= b)
  /\ (RMSTCard.advantageA (@updateRMSTCard approxMath survivalRows 24) = true
      <-> le (RMSTCard.rmstB (@updateRMSTCard approxMath survivalRows 24))
             (RMSTCard.rmstA (@updateRMSTCard approxMath survivalRows 24))).
Proof.
  assert (HT : 0 < 24) by lra.
  assert (HB : 24 <= pow10 100) by (vm_compute; discriminate).
  assert (Hn : Forall (fun d => 0 <= Subject.time_months d) survivalRows)
    by (repeat constructor; simpl; lra).
  assert (Hb : Forall (fun d => Subject.time_months d < 24) survivalRows)
    by (repeat constructor; simpl; lra).
  split; [exact HT|]. split; [exact HB|].
  split; [exact Hn|]. split; [exact Hb|].
  destruct (@updateRMSTCard_advantage approxMath survivalRows 24 HT HB Hn Hb)
    as [H1 [H2 _]].
  split; [exact H1 | exact H2].
Defined.

(** ** Diagnostic accuracy and responder analysis *)

Lemma updateThresholdExplorer_bounded_witness :
  mixedData <> []
  /\ within 0 1 (Explorer.f1 (updateThresholdExplorer 0.5 mixedData))
  /\ within 0 1 (Explorer.accuracy (updateThresholdExplorer 0.5 mixedData)).
Proof.
  assert (Hne : mixedData <> []) by discriminate.
  split; [exact Hne|].
  destruct (updateThresholdExplorer_bounded 0.5 mixedData)
    as [_ [_ [_ [_ [Hf [Ha _]]]]]].
  split; [exact Hf | exact (Ha Hne)].
Defined.

Lemma updateThresholdExplorer_monotone_witness :
  0.2 <= 0.5
  /\ le (Explorer.sensitivity (updateThresholdExplorer 0.5 mixedData))
        (Explorer.sensitivity (updateThresholdExplorer 0.2 mixedData))
  /\ le (Explorer.specificity (updateThresholdExplorer 0.2 mixedData))
        (Explorer.specificity (updateThresholdExplorer 0.5 mixedData)).
Proof.
  assert (H : 0.2 <= 0.5) by lra.
  split; [exact H|].
  exact (updateThresholdExplorer_monotone 0.2 0.5 mixedData H).
Defined.

Lemma createDiagnosticGauges_rates_witness :
  (0 < positives mixedData)%nat /\ (0 < negatives mixedData)%nat
  /\ within 0 1 (Gauges.sensitivity (createDiagnosticGauges mixedData 0.5))
  /\ within 0 1 (Gauges.specificity (createDiagnosticGauges mixedData 0.5))
  /\ within (-1) 1 (Gauges.youdenJ (createDiagnosticGauges mixedData 0.5))
  /\ same (Gauges.sensitivity (createDiagnosticGauges mixedData 0.5))
          (Explorer.sensitivity (updateThresholdExplorer 0.5 mixedData))
  /\ same (Gauges.specificity (createDiagnosticGauges mixedData 0.5))
          (Explorer.specificity (updateThresholdExplorer 0.5 mixedData)).
Proof.
  assert (Hp : (0 < positives mixedData)%nat) by (vm_compute; lia).
  assert (Hn : (0 < negatives mixedData)%nat) by (vm_compute; lia).
  split; [exact Hp|]. split; [exact Hn|].
  exact (proj1 (createDiagnosticGauges_rates mixedData 0.5) Hp Hn).
Defined.

Lemma createConfusionMatrix_partition_witness :
  Forall (fun d => labelled d = true) imagingData
  /\ exists TN FP FN TP : nat,
       createConfusionMatrix imagingData = [[TN; FP]; [FN; TP]]
       /\ (TN + FP + FN + TP = length imagingData)%nat
       /\ (FN + TP)%nat
          = length (filter (fun d => String.eqb (Imaging.disease_status d)
                                                "Positive") imagingData).
Proof.
  assert (Hl : Forall (fun d => labelled d = true) imagingData)
    by (repeat constructor).
  split; [exact Hl|].
  destruct (createConfusionMatrix_partition imagingData)
    as [TN [FP [FN [TP [E [_ [Hsum Hrows]]]]]]].
  exists TN, FP, FN, TP. split; [exact E|].
  split; [exact (proj2 Hsum Hl) | exact (proj1 (Hrows Hl))].
Defined.

Lemma createDiagnosticAccuracyChart_bounds_witness :
  imagingData <> []
  /\ within 0 100
            (Accuracy.sensitivity
               (@createDiagnosticAccuracyChart approxMath imagingData))
  /\ (exists m,
        Accuracy.sensCI (@createDiagnosticAccuracyChart approxMath imagingData)
        = Fin m /\ 0 <= m)
  /\ within 0 100
            (Accuracy.accuracy
               (@createDiagnosticAccuracyChart approxMath imagingData)).
Proof.
  assert (Hne : imagingData <> []) by discriminate.
  split; [exact Hne|].
  destruct (@createDiagnosticAccuracyChart_bounds approxMath imagingData)
    as [Hs [_ [_ [_ [Ha _]]]]].
  destruct (Hs ltac:(vm_compute; lia)) as [H1 H2].
  split; [exact H1|]. split; [exact H2 | exact (Ha Hne)].
Defined.

Lemma createCalibrationPlot_points_witness :
  Forall (fun p => 0 <= predicted_probability p) mixedData
  /\ Forall (fun p => predicted_probability p <= 1) mixedData
  /\ exists points,
       createCalibrationPlot mixedData = Some points
       /\ list_sum (map Calibration.count points) = length mixedData
       /\ Forall (fun pt => within 0 1 (Calibration.predicted pt)) points.
Proof.
  assert (H : Forall (fun p => 0 <= predicted_probability p) mixedData)
    by (repeat constructor; simpl; lra).
  assert (H1 : Forall (fun p => predicted_probability p <= 1) mixedData)
    by (repeat constructor; simpl; lra).
  split; [exact H|]. split; [exact H1|].
  destruct (proj1 (createCalibrationPlot_points mixedData) H)
    as [points [E [Hc [_ [_ Hp]]]]].
  exists points. split; [exact E|]. split; [exact Hc | exact (Hp H1)].
Defined.

Lemma createNNTIconArray_NNT_witness :
  (exists (a : Q) (k : Z),
     NNTCard.ARR (updateNNTCard trialData) = Fin a /\ 0 < a
     /\ NNTCard.NNT (updateNNTCard trialData) = Fin (inject_Z k)
     /\ (1 <= k)%Z
     /\ IconArray.iconData (createNNTIconArray trialData)
        = repeat true (Z.to_nat (Z.min k 10))
          ++ repeat false (10 - Z.to_nat (Z.min k 10)))
  /\ (NNTCard.ARR (updateNNTCard placeboOnly) >? Fin 0)%num = false
  /\ NNTCard.NNT (updateNNTCard placeboOnly) = PInf
  /\ IconArray.iconData (createNNTIconArray placeboOnly) = repeat false 10.
Proof.
  split.
  - assert (E : exists a, NNTCard.ARR (updateNNTCard trialData) = Fin a
                          /\ 0 < a)
      by (eexists; split; [reflexivity | vm_compute; reflexivity]).
    destruct E as [a [Ea Ha]].
    destruct (createNNTIconArray_NNT trialData) as [_ [_ [_ H]]].
    destruct (H a Ea Ha) as [k [Ek [Hk Hh]]].
    exists a, k. repeat split; assumption.
  - assert (E : (NNTCard.ARR (updateNNTCard placeboOnly) >? Fin 0)%num = false)
      by reflexivity.
    split; [exact E|].
    destruct (createNNTIconArray_NNT placeboOnly) as [_ [_ [H _]]].
    exact (H E).
Defined.
